(** * DeepSeek R1 VS Code extension: the streaming response pipeline

    A shallow embedding of the request builder, the two stream decoders,
    the conversation history, the cancellation state and the webview's
    reasoning split, with the properties the design document states
    about them.

    Strings are sequences of code units; the characters of [ascii]
    stand for the code units U+0000 to U+00FF.  The bytes a stream
    delivers, and the texts over all code units that they decode to,
    are the subject of [Bytes]. *)

From Stdlib Require Import String Ascii List Bool Arith NArith ZArith Lia.
From Stdlib.Strings Require Byte.
Import ListNotations.
Open Scope string_scope.
Set Warnings "-register-all".

(** ** The string methods of the host language that the sources call *)

Module JS.

(** "\n" *)
Definition LFc : ascii := ascii_of_nat 10.
Definition LF : string := String LFc EmptyString.

(** [s.startsWith(p)] *)
Fixpoint startsWith (p s : string) : bool :=
  match p, s with
  | EmptyString, _ => true
  | String _ _, EmptyString => false
  | String a p', String b s' => if Ascii.eqb a b then startsWith p' s' else false
  end.

(** [s.slice(n)] for [0 <= n] *)
Fixpoint slice (n : nat) (s : string) : string :=
  match n, s with
  | O, _ => s
  | S _, EmptyString => EmptyString
  | S n', String _ s' => slice n' s'
  end.

(** [s.indexOf(p)]: the position of the first occurrence, or [-1] *)
Fixpoint indexOf (p s : string) : Z :=
  if startsWith p s then 0%Z
  else match s with
       | EmptyString => (-1)%Z
       | String _ s' =>
           let i := indexOf p s' in
           if (i <? 0)%Z then (-1)%Z else (i + 1)%Z
       end.

(** [s.includes(p)] *)
Definition includes (p s : string) : bool := (0 <=? indexOf p s)%Z.

(** [s.substring(a, b)]: both ends are clamped to [0 .. s.length] and
    swapped when [a > b] *)
Definition clamp (s : string) (i : Z) : nat :=
  Nat.min (Z.to_nat i) (String.length s).

Definition substring (a b : Z) (s : string) : string :=
  let a' := clamp s a in
  let b' := clamp s b in
  String.substring (Nat.min a' b') (Nat.max a' b' - Nat.min a' b') s.

(** [s.substring(a)] *)
Definition substring_from (a : Z) (s : string) : string :=
  substring a (Z.of_nat (String.length s)) s.

(** White space and line terminators below U+0100, the characters
    [trim] strips. *)
Definition isWhiteSpace (c : ascii) : bool :=
  let n := nat_of_ascii c in
  ((9 <=? n)%nat && (n <=? 13)%nat) || (n =? 32)%nat || (n =? 160)%nat.

Fixpoint trimStart (s : string) : string :=
  match s with
  | EmptyString => EmptyString
  | String c s' => if isWhiteSpace c then trimStart s' else s
  end.

Fixpoint trimEnd (s : string) : string :=
  match s with
  | EmptyString => EmptyString
  | String c s' =>
      match trimEnd s' with
      | EmptyString => if isWhiteSpace c then EmptyString else String c EmptyString
      | t => String c t
      end
  end.

(** [s.trim()] *)
Definition trim (s : string) : string := trimEnd (trimStart s).

(** [s.split(sep)] for a one-character separator; the result always
    has at least one element. *)
Fixpoint split (sep : ascii) (s : string) : list string :=
  match s with
  | EmptyString => [EmptyString]
  | String c s' =>
      if Ascii.eqb c sep then EmptyString :: split sep s'
      else match split sep s' with
           | [] => [String c EmptyString]
           | l :: ls => String c l :: ls
           end
  end.

(** [xs.join(sep)] *)
Fixpoint join (sep : string) (xs : list string) : string :=
  match xs with
  | [] => EmptyString
  | [x] => x
  | x :: rest => x ++ sep ++ join sep rest
  end.

End JS.

(** ** src/chatview/app.js: the reasoning split *)

Module ChatView.

(** The regular expression [/<think>([\s\S]*?)<\/think>/], run the
    way a backtracking matcher runs it.

    [lazyUntil close s] is the tail [([\s\S]*?)close] of the pattern
    tried at the head of [s]: the lazy star first tries to capture
    nothing and grows the capture by one character each time the
    closing literal does not follow.  It returns the capture and the
    text after the match. *)
Fixpoint lazyUntil (close s : string) : option (string * string) :=
  if JS.startsWith close s then Some (EmptyString, JS.slice (String.length close) s)
  else match s with
       | EmptyString => None
       | String c s' =>
           match lazyUntil close s' with
           | Some (cap, rest) => Some (String c cap, rest)
           | None => None
           end
       end.

Definition openTag : string := "<think>".
Definition closeTag : string := "</think>".

(** The whole pattern tried at the head of [s]. *)
Definition matchHere (s : string) : option (string * string) :=
  if JS.startsWith openTag s
  then lazyUntil closeTag (JS.slice (String.length openTag) s)
  else None.

(** The result of [thinkRegex.exec(text)]: the text before the match,
    capture group 1 and the text after the match.  The matcher tries
    the start positions from left to right and stops at the first
    one where the pattern matches. *)
Record Match := { before : string; group1 : string; after : string }.

Fixpoint exec (text : string) : option Match :=
  match matchHere text with
  | Some (cap, rest) => Some {| before := EmptyString; group1 := cap; after := rest |}
  | None =>
      match text with
      | EmptyString => None
      | String c text' =>
          match exec text' with
          | Some m => Some {| before := String c (before m); group1 := group1 m; after := after m |}
          | None => None
          end
      end
  end.

(** [text.replace(thinkRegex, empty)]: the regex has no [g] flag, so
    only the first match is replaced, by the empty string. *)
Definition replaceFirst (text : string) : string :=
  match exec text with
  | Some m => before m ++ after m
  | None => text
  end.

Record ThinkSplit := { mainText : string; thinkContent : string }.

Definition extractThinkContent (text : string) : ThinkSplit :=
  match exec text with
  | Some m =>
      (* match[1], or the empty string when it is falsy *)
      {| mainText := replaceFirst text; thinkContent := group1 m |}
  | None => {| mainText := text; thinkContent := EmptyString |}
  end.

(** [str.replace(/c/g, r)] for a pattern that is one literal character
    and a replacement without dollar patterns. *)
Fixpoint replaceAll (c : ascii) (r : string) (str : string) : string :=
  match str with
  | EmptyString => EmptyString
  | String x rest =>
      if Ascii.eqb x c then r ++ replaceAll c r rest
      else String x (replaceAll c r rest)
  end.

Definition escapeHtml (str : string) : string :=
  replaceAll ">" "&gt;" (replaceAll "<" "&lt;" (replaceAll "&" "&amp;" str)).

End ChatView.

(** ** extension.ts: requests, stream decoders, history, cancellation *)

Module Extension.
Import JS.

(** *** Values of the host language *)

(** What [JSON.parse] returns.  Of a number the decoders observe only
    whether it is truthy and how it prints when it is appended to a
    string, so a number is kept as these two observations. *)
Inductive json :=
| JNull
| JBool (b : bool)
| JNumber (nonzero : bool) (text : string)
| JString (s : string)
| JArray (items : list json)
| JObject (members : list (string * json)).

(** What a [throw] or a [reject] carries. *)
Inductive Thrown :=
| AxiosError (status : option Z) (message : string)
| Error (message : string)
| SyntaxError                  (* raised by JSON.parse *)
| TypeError                    (* a property read of null or undefined, a call of
                                  what is no function, a value with no primitive *)
| Str (s : string).            (* a bare string handed to reject *)

(** [JSON.parse] belongs to the host; [None] stands for the
    [SyntaxError] it throws. *)
Class Host := { JSON_parse : string -> option json }.

Inductive Completion (A : Type) :=
| Normal (a : A)
| Throw (e : Thrown).
Arguments Normal {A} a.
Arguments Throw {A} e.

Definition bind {A B} (c : Completion A) (k : A -> Completion B) : Completion B :=
  match c with
  | Normal a => k a
  | Throw e => Throw e
  end.

Notation "x <- c ;; k" := (bind c (fun x => k))
  (at level 61, c at next level, right associativity).

(** A member of a parsed object; a repeated key keeps its last value. *)
Definition lastMember (key : string) (members : list (string * json)) : option json :=
  fold_left (fun acc kv => if String.eqb (fst kv) key then Some (snd kv) else acc)
            members None.

(** [v.key], for the keys the decoders read ("response", "choices",
    "delta", "content"); [None] is [undefined]. *)
Definition getProp (key : string) (v : option json) : Completion (option json) :=
  match v with
  | None | Some JNull => Throw TypeError
  | Some (JObject ms) => Normal (lastMember key ms)
  | Some _ => Normal None
  end.

(** [v[0]] *)
Definition getIndex0 (v : option json) : Completion (option json) :=
  match v with
  | None | Some JNull => Throw TypeError
  | Some (JArray items) => Normal (hd_error items)
  | Some (JString (String c _)) => Normal (Some (JString (String c EmptyString)))
  | Some (JObject ms) => Normal (lastMember "0" ms)
  | Some _ => Normal None
  end.

Definition truthy (v : option json) : bool :=
  match v with
  | None | Some JNull => false
  | Some (JBool b) => b
  | Some (JNumber nonzero _) => nonzero
  | Some (JString s) => negb (String.eqb s EmptyString)
  | Some (JArray _) | Some (JObject _) => true
  end.

(** Whether a parsed object has a member of its own under [key]. *)
Definition hasMember (key : string) (members : list (string * json)) : bool :=
  existsb (fun kv => String.eqb (fst kv) key) members.

(** The string a value turns into when [+=] appends it to a string.
    An object is printed by the [toString] it inherits; a member of
    its own named [toString] hides that method and, being no
    function, leaves the object without a primitive value: the
    conversion throws a [TypeError].  An array prints its elements
    joined by commas, [null] as nothing, and throws when one of them
    does. *)
Fixpoint toString (v : json) : Completion string :=
  match v with
  | JNull => Normal "null"
  | JBool true => Normal "true"
  | JBool false => Normal "false"
  | JNumber _ text => Normal text
  | JString s => Normal s
  | JArray items =>
      (fix elements (l : list json) : Completion string :=
         match l with
         | [] => Normal EmptyString
         | x :: rest =>
             first <- (match x with JNull => Normal EmptyString | _ => toString x end) ;;
             match rest with
             | [] => Normal first
             | _ => others <- elements rest ;; Normal (first ++ "," ++ others)
             end
         end) items
  | JObject members =>
      if hasMember "toString" members then Throw TypeError
      else Normal "[object Object]"
  end.

Inductive Promise :=
| Pending
| Fulfilled (value : string)
| Rejected (reason : Thrown).

(** Settling a promise that is already settled does nothing. *)
Definition resolve (v : string) (p : Promise) : Promise :=
  match p with Pending => Fulfilled v | _ => p end.

Definition reject (e : Thrown) (p : Promise) : Promise :=
  match p with Pending => Rejected e | _ => p end.

(** *** What the extension does to the outside *)

Inductive Message :=
| streamChunk (chunk : json)
| startResponse
| streamComplete
| error (error : string).

Inductive Effect :=
| postMessage (m : Message)            (* panelOrSidebar.webview.postMessage *)
| consoleError (label : string) (e : Thrown).

Definition isDelta (e : Effect) : bool :=
  match e with postMessage (streamChunk _) => true | _ => false end.

(** The delta fragments among some effects, in order. *)
Definition deltas (out : list Effect) : list Effect := filter isDelta out.

(** *** The self-hosted line-JSON decoder *)

Record StreamState := { fullResponse : string; buffer : string }.

(** The stream state a request starts from: both texts empty. *)
Definition freshState : StreamState :=
  {| fullResponse := EmptyString; buffer := EmptyString |}.

Section Decoders.
Context `{Host}.

(** The body of the loop of [processBuffer] after the line has been
    cut off the buffer. *)
Definition processLine (line : string) (state : StreamState)
  : StreamState * list Effect :=
  if String.eqb line EmptyString then (state, [])
  else
    match JSON_parse line with
    | None => (state, [consoleError "Error parsing JSON line:" SyntaxError])
    | Some parsed =>
        match getProp "response" (Some parsed) with
        | Throw e => (state, [consoleError "Error parsing JSON line:" e])
        | Normal (Some response) =>
            if truthy (Some response)
            then match toString response with
                 | Normal text =>
                     ({| fullResponse := fullResponse state ++ text;
                         buffer := buffer state |},
                      [postMessage (streamChunk response)])
                 | Throw e => (state, [consoleError "Error parsing JSON line:" e])
                 end
            else (state, [])
        | Normal None => (state, [])
        end
    end.

(** One turn of the [while] loop. *)
Definition processBuffer_body (state : StreamState) : StreamState * list Effect :=
  let line := trim (substring 0 (indexOf LF (buffer state)) (buffer state)) in
  let state1 := {| fullResponse := fullResponse state;
                   buffer := substring_from (indexOf LF (buffer state) + 1)
                                            (buffer state) |} in
  processLine line state1.

Fixpoint processBuffer_loop (fuel : nat) (state : StreamState)
  : StreamState * list Effect :=
  match fuel with
  | O => (state, [])
  | S fuel' =>
      if includes LF (buffer state) then
        let (state1, out) := processBuffer_body state in
        let (state2, out') := processBuffer_loop fuel' state1 in
        (state2, (out ++ out')%list)
      else (state, [])
  end.

(** Every turn of the loop shortens the buffer, so its length
    bounds the number of turns. *)
Definition processBuffer (state : StreamState) : StreamState * list Effect :=
  processBuffer_loop (String.length (buffer state)) state.

(** The [data] handler of [handleStreamingRequest] once the abort
    check has passed.  [chunk] is the text that [chunk.toString()]
    gives for the buffer delivered: the handler uses the buffer in no
    other way.  What that text is for given bytes is the subject of
    [Bytes] below. *)
Definition appendChunk (chunk : string) (state : StreamState)
  : StreamState * list Effect :=
  processBuffer {| fullResponse := fullResponse state;
                   buffer := buffer state ++ chunk |}.

(** A stream delivered as a sequence of chunks, each given by its
    text. *)
Fixpoint feed (chunks : list string) (state : StreamState)
  : StreamState * list Effect :=
  match chunks with
  | [] => (state, [])
  | chunk :: rest =>
      let (state1, out) := appendChunk chunk state in
      let (state2, out') := feed rest state1 in
      (state2, (out ++ out')%list)
  end.

(** *** The cloud event-stream decoder *)

(** The body of the [for] loop of the [data] handler of
    [handleCloudStream]. *)
Definition cloudLine (line : string) (fullResponse : string)
  : Completion (string * list Effect) :=
  if startsWith "data: " line then
    match JSON_parse (slice 6 line) with
    | None => Throw SyntaxError
    | Some data =>
        choices <- getProp "choices" (Some data) ;;
        choice0 <- getIndex0 choices ;;
        delta <- getProp "delta" choice0 ;;
        content <- getProp "content" delta ;;
        match content with
        | Some v =>
            if truthy content
            then text <- toString v ;;
                 Normal (fullResponse ++ text, [postMessage (streamChunk v)])
            else Normal (fullResponse, [])
        | None => Normal (fullResponse, [])
        end
    end
  else Normal (fullResponse, []).

(** The [for] loop; a throw leaves it at once. *)
Fixpoint cloudLines (lines : list string) (fullResponse : string)
  : string * list Effect * option Thrown :=
  match lines with
  | [] => (fullResponse, [], None)
  | line :: rest =>
      match cloudLine line fullResponse with
      | Throw e => (fullResponse, [], Some e)
      | Normal (fullResponse1, out) =>
          let '(fullResponse2, out', thrown) := cloudLines rest fullResponse1 in
          (fullResponse2, (out ++ out')%list, thrown)
      end
  end.

(** The [data] handler: [try { for ... } catch (error) { reject(error) }].
    [chunk] is the text [chunk.toString()] gives. *)
Definition cloudOnData (chunk : string) (fullResponse : string) (p : Promise)
  : string * list Effect * Promise :=
  let '(fullResponse1, out, thrown) := cloudLines (split LFc chunk) fullResponse in
  (fullResponse1, out,
   match thrown with Some e => reject e p | None => p end).

End Decoders.

(** *** The conversation history and the request builder *)

Record Turn := { role : string; content : string }.

(** A number of the configuration store.  The code observes whether
    it is zero and how it prints, as for the numbers of [json]. *)
Record Number := { isNonZero : bool; numberText : string }.

(** The configuration store, each setting with the type the package
    manifest declares for it; [None] is a key without a value. *)
Record Config := {
  accountType : option string;
  optionalCloudApiKey : option string;
  aiR1SelfHostedUrl : option string;
  aiR1Model : option string;
  aiR1ModelTemperature : option Number;
  MultiRoundConversationContext : option bool
}.

(** [value || fallback] on an optional string: the empty string is
    falsy too. *)
Definition orElse (value : option string) (fallback : string) : string :=
  match value with
  | Some s => if String.eqb s EmptyString then fallback else s
  | None => fallback
  end.

(** [value || "0.3"] on an optional number, as the text [parseFloat]
    is handed: zero is falsy, so a temperature of 0 is sent as 0.3. *)
Definition orElseNumber (value : option Number) (fallback : string) : string :=
  match value with
  | Some n => if isNonZero n then numberText n else fallback
  | None => fallback
  end.

(** [`${value}`] *)
Definition interpolate (value : option string) : string :=
  match value with Some s => s | None => "undefined" end.

(** The request body.  [temperature] holds the text handed to
    [parseFloat]. *)
Inductive Data :=
| CloudData (model : string) (messages : list Turn) (temperature : string)
            (stream : bool)
| SelfHostedData (model prompt temperature : string) (max_tokens : Z)
                 (stream : bool).

Definition stream (d : Data) : bool :=
  match d with
  | CloudData _ _ _ s => s
  | SelfHostedData _ _ _ _ s => s
  end.

Definition prompt (d : Data) : option string :=
  match d with
  | CloudData _ _ _ _ => None
  | SelfHostedData _ p _ _ _ => Some p
  end.

Record Request := {
  url : string;
  headers : list (string * string);
  data : Data
}.

Definition formatConversation (history : list Turn) : string :=
  join (LF ++ LF)
       (map (fun msg =>
               (if String.eqb (role msg) "user" then "User" else "Assistant")
               ++ ": " ++ content msg)
            history).

Definition prepareRequest (config : Config) (message : string)
           (useMultiRound : bool) (conversationHistory : list Turn) : Request :=
  let accountType := orElse (accountType config) "self-hosted" in
  let apiKey := optionalCloudApiKey config in
  let selfHostedUrl := orElse (aiR1SelfHostedUrl config) "http://localhost:11434" in
  let model := orElse (aiR1Model config) "deepseek-r1:7b" in
  let temperature := orElseNumber (aiR1ModelTemperature config) "0.3" in
  if String.eqb accountType "cloud" then
    {| url := "https://api.deepseek.com/v1/chat/completions";
       headers := [("Content-Type", "application/json");
                   ("Authorization", "Bearer " ++ interpolate apiKey)];
       data := CloudData "deepseek-chat" conversationHistory temperature true |}
  else
    {| url := selfHostedUrl ++ "/api/generate";
       headers := [("Content-Type", "application/json")];
       data := SelfHostedData model
                 (if useMultiRound then formatConversation conversationHistory
                  else message)
                 temperature 4096 true |}.

Definition defaultMessage : string :=
  "Failed to get response. Check error logs for details.".

(** [handleError] also writes the error to the console. *)
Definition handleError (e : Thrown) : string * list Effect :=
  (match e with
   | AxiosError status message =>
       match status with
       | Some 401%Z => "Authentication failed. Check your API key."
       | Some 404%Z => "Invalid API endpoint. Check your configuration."
       | _ => message
       end
   | Error message =>
       if String.eqb message "Request aborted" then "Generation stopped."
       else defaultMessage
   | _ => defaultMessage
   end,
   [consoleError "API Error:" e]).

(** *** The process: global state and the calls in flight *)

(** How far one call of [sendToDeepSeek] has come. *)
Inductive Phase :=
| Posting                                  (* awaiting axios.post *)
| PostFailed                               (* axios.post rejected *)
| Streaming (streamState : StreamState)    (* handleStreamingRequest listens *)
| NotAStream.                              (* handleCloudStream threw *)

(** One call of [sendToDeepSeek]: the [AbortController] it created,
    what it captured, and the promise it returned. *)
Record Call := {
  aborted : bool;               (* controller.signal.aborted *)
  selfHosted : bool;            (* handleStreamingRequest, else handleCloudRequest *)
  useMultiRound : bool;
  request : Request;
  phase : Phase;
  promise : Promise
}.

Definition withAborted (c : Call) : Call :=
  {| aborted := true; selfHosted := selfHosted c; useMultiRound := useMultiRound c;
     request := request c; phase := phase c; promise := promise c |}.

Definition withPhase (ph : Phase) (c : Call) : Call :=
  {| aborted := aborted c; selfHosted := selfHosted c; useMultiRound := useMultiRound c;
     request := request c; phase := ph; promise := promise c |}.

Definition withPromise (f : Promise -> Promise) (c : Call) : Call :=
  {| aborted := aborted c; selfHosted := selfHosted c; useMultiRound := useMultiRound c;
     request := request c; phase := phase c; promise := f (promise c) |}.

(** The module's global variables, the calls made so far (call [i]
    owns controller [i]) and everything posted or logged so far, each
    entry with the call that caused it. *)
Record World := {
  conversationHistory : list Turn;
  currentAbortController : option nat;
  calls : list Call;
  trace : list (nat * Effect)
}.

Definition initial : World :=
  {| conversationHistory := []; currentAbortController := None;
     calls := []; trace := [] |}.

Definition withHistory (h : list Turn) (w : World) : World :=
  {| conversationHistory := h; currentAbortController := currentAbortController w;
     calls := calls w; trace := trace w |}.

Definition withController (k : option nat) (w : World) : World :=
  {| conversationHistory := conversationHistory w; currentAbortController := k;
     calls := calls w; trace := trace w |}.

Definition withCalls (cs : list Call) (w : World) : World :=
  {| conversationHistory := conversationHistory w;
     currentAbortController := currentAbortController w;
     calls := cs; trace := trace w |}.

Definition emit (id : nat) (out : list Effect) (w : World) : World :=
  {| conversationHistory := conversationHistory w;
     currentAbortController := currentAbortController w;
     calls := calls w; trace := (trace w ++ map (pair id) out)%list |}.

Fixpoint updateAt {A} (i : nat) (f : A -> A) (l : list A) : list A :=
  match l, i with
  | [], _ => []
  | x :: rest, O => f x :: rest
  | x :: rest, S i' => x :: updateAt i' f rest
  end.

Definition setCall (id : nat) (f : Call -> Call) (w : World) : World :=
  withCalls (updateAt id f (calls w)) w.

Definition push (t : Turn) (w : World) : World :=
  withHistory (conversationHistory w ++ [t])%list w.

(** [controller.abort()]: the flag is raised once and the listeners
    on the signal run in the order they were added.

    [handleStreamingRequest] hands the signal to [axios.post], so the
    first listener is the transport's.  While the post is pending it
    rejects the post with a [CanceledError], an [AxiosError] without
    a response whose message is [canceled]; the function has added
    no listener of its own yet.  Once the response is there, it makes
    the body emit [error] with that [CanceledError], so the [error]
    handler of the function rejects with the message; then the two
    listeners of the function run.  (After the body has ended or
    failed the transport has withdrawn its listener, and the promise
    is settled, so the first rejection does nothing either way.)

    [handleCloudRequest] gets no signal: for its calls only the flag
    changes. *)
Definition abort (id : nat) (w : World) : World :=
  match nth_error (calls w) id with
  | Some c =>
      if aborted c then w
      else
        let w1 := setCall id withAborted w in
        match phase c with
        | Posting =>
            if selfHosted c
            then setCall id
                   (fun c => withPromise (reject (AxiosError None "canceled"))
                               (withPhase PostFailed c))
                   w1
            else w1
        | Streaming _ =>
            (* the transport: the body emits error, the handler rejects *)
            let w2 := setCall id (withPromise (reject (Str "canceled"))) w1 in
            (* first listener: destroy, post *)
            let w3 := emit id [postMessage streamComplete] w2 in
            (* second listener: destroy, post, reject *)
            let w4 := emit id [postMessage streamComplete] w3 in
            setCall id (withPromise (reject (Error "Request aborted"))) w4
        | _ => w1
        end
  | None => w
  end.

Definition stopGeneratingResponse (w : World) : World :=
  match currentAbortController w with
  | Some id => withController None (abort id w)
  | None => w
  end.

Definition resetConversation (w : World) : World :=
  stopGeneratingResponse (withHistory [] w).

(** [sendToDeepSeek] up to the promise it returns.  Every statement
    of its [try] block completes normally; the two handlers are
    [async], so their failures are rejections of the promise they
    return, and the block returns that promise without awaiting it. *)
Definition sendToDeepSeek (config : Config) (message : string) (w : World) : World :=
  let w1 := match currentAbortController w with
            | Some id => abort id w
            | None => w
            end in
  let id := List.length (calls w1) in              (* new AbortController() *)
  let w2 := withController (Some id) w1 in
  let accountType := orElse (accountType config) "self-hosted" in
  let useMultiRound :=
    match MultiRoundConversationContext config with Some b => b | None => false end in
  let w3 := if useMultiRound
            then push {| role := "user"; content := message |} w2
            else w2 in
  let req := prepareRequest config message useMultiRound (conversationHistory w3) in
  withCalls (calls w3 ++
             [{| aborted := false;
                 selfHosted := String.eqb accountType "self-hosted" && stream (data req);
                 useMultiRound := useMultiRound;
                 request := req;
                 phase := Posting;
                 promise := Pending |}])%list w3.

(** The [catch] clause of [sendToDeepSeek], for an error thrown
    inside the [try] block of call [id]. *)
Definition sendToDeepSeek_catch (id : nat) (e : Thrown) (w : World) : World :=
  let w1 := withController None w in
  let (errorMessage, logged) := handleError e in
  let w2 := emit id logged w1 in
  let w3 := emit id [postMessage (error errorMessage)] w2 in
  setCall id (withPromise (resolve errorMessage)) w3.

Section Handlers.
Context `{Host}.

(** [axios.post] resolved.  [handleStreamingRequest] asked for
    [responseType: "stream"] and starts to listen to the body.
    [handleCloudRequest] did not: its [response.data] is the body
    read to its end, a text or the value parsed from it.  The
    request body always asks the server for a stream, so the function
    goes on to [handleCloudStream], whose first statement,
    [response.data.on("data", ...)], calls what is no function; the
    [TypeError] rejects the promise of [handleCloudStream], the
    [await] rethrows it before the history is touched, and no
    handler has been registered. *)
Definition onResponse (id : nat) (w : World) : World :=
  match nth_error (calls w) id with
  | Some c =>
      match phase c with
      | Posting =>
          if selfHosted c
          then emit id [postMessage startResponse]
                 (setCall id (withPhase (Streaming freshState)) w)
          else setCall id (fun c => withPromise (reject TypeError)
                                      (withPhase NotAStream c)) w
      | _ => w
      end
  | None => w
  end.

(** [axios.post] rejected. *)
Definition onPostRejected (id : nat) (e : Thrown) (w : World) : World :=
  match nth_error (calls w) id with
  | Some c =>
      match phase c with
      | Posting => setCall id (fun c => withPromise (reject e) (withPhase PostFailed c)) w
      | _ => w
      end
  | None => w
  end.

Definition finalizeStream (id : nat) (state : StreamState) (useMultiRound : bool)
           (w : World) : World :=
  let w1 := if useMultiRound
            then push {| role := "assistant"; content := fullResponse state |} w
            else w in
  let w2 := emit id [postMessage streamComplete] w1 in
  setCall id (withPromise (resolve (fullResponse state))) w2.

(** The [data] event of the response stream of call [id]; [chunk] is
    the text of the buffer delivered, as for [appendChunk].  Only
    [handleStreamingRequest] has registered a handler. *)
Definition onData (id : nat) (chunk : string) (w : World) : World :=
  match nth_error (calls w) id with
  | Some c =>
      match phase c with
      | Streaming state =>
          if aborted c then w
          else
            let (state1, out) := appendChunk chunk state in
            emit id out (setCall id (withPhase (Streaming state1)) w)
      | _ => w
      end
  | None => w
  end.

(** The [end] event. *)
Definition onEnd (id : nat) (w : World) : World :=
  match nth_error (calls w) id with
  | Some c =>
      match phase c with
      | Streaming state =>
          if aborted c then w
          else finalizeStream id state (useMultiRound c) w
      | _ => w
      end
  | None => w
  end.

(** The [error] event: the handler rejects with the message of the
    error. *)
Definition onError (id : nat) (message : string) (w : World) : World :=
  match nth_error (calls w) id with
  | Some c =>
      match phase c with
      | Streaming _ => setCall id (withPromise (reject (Str message))) w
      | _ => w
      end
  | None => w
  end.

(** What can happen to the process: a command from the user
    interface, or the transport of call [id] reporting. *)
Inductive Event :=
| SendToDeepSeek (config : Config) (message : string)
| StopGeneratingResponse
| ResetConversation
| PostRejected (id : nat) (e : Thrown)
| Response (id : nat)
| StreamData (id : nat) (chunk : string)
| StreamEnd (id : nat)
| StreamError (id : nat) (message : string).

Definition step (e : Event) (w : World) : World :=
  match e with
  | SendToDeepSeek config message => sendToDeepSeek config message w
  | StopGeneratingResponse => stopGeneratingResponse w
  | ResetConversation => resetConversation w
  | PostRejected id e => onPostRejected id e w
  | Response id => onResponse id w
  | StreamData id chunk => onData id chunk w
  | StreamEnd id => onEnd id w
  | StreamError id message => onError id message w
  end.

Definition run (events : list Event) (w : World) : World :=
  fold_left (fun w e => step e w) events w.

End Handlers.

(** What call [id] posted and logged, in order. *)
Definition effectsOf (id : nat) (w : World) : list Effect :=
  map snd (filter (fun entry => Nat.eqb (fst entry) id) (trace w)).

Definition promiseOf (id : nat) (w : World) : option Promise :=
  option_map promise (nth_error (calls w) id).

(** *** Stream texts and parse results used to state the properties *)

(** The stream text made of the given lines, each ended by a newline. *)
Definition terminated (lines : list string) : string :=
  fold_right (fun line rest => line ++ LF ++ rest) EmptyString lines.

(** The text after the last newline of [text]: the last element of
    [text.split(newline)]. *)
Definition afterLastNewline (text : string) : string :=
  last (split LFc text) EmptyString.

Definition DQ : string := String (ascii_of_nat 34) EmptyString.

(** The line [{"response":"text"}]. *)
Definition responseLine (text : string) : string :=
  "{" ++ DQ ++ "response" ++ DQ ++ ":" ++ DQ ++ text ++ DQ ++ "}".

(** The payload [{"choices":[{"delta":{"content":"text"}}]}]. *)
Definition deltaPayload (text : string) : string :=
  "{" ++ DQ ++ "choices" ++ DQ ++ ":[{" ++ DQ ++ "delta" ++ DQ ++ ":{"
      ++ DQ ++ "content" ++ DQ ++ ":" ++ DQ ++ text ++ DQ ++ "}}]}".

(** What [JSON.parse] answers on the payloads the examples use.  The
    four payloads listed parse to the objects shown.  The other two
    texts of the examples, [{oops] and [[DONE]], are not JSON; on them,
    as on every text it does not list, the table answers [None]. *)
Definition exampleParse (s : string) : option json :=
  if String.eqb s (responseLine "Hel") then
    Some (JObject [("response", JString "Hel")])
  else if String.eqb s (responseLine "lo") then
    Some (JObject [("response", JString "lo")])
  else if String.eqb s (deltaPayload "Hi") then
    Some (JObject [("choices",
                    JArray [JObject [("delta", JObject [("content", JString "Hi")])]])])
  else if String.eqb s (deltaPayload "there") then
    Some (JObject [("choices",
                    JArray [JObject [("delta", JObject [("content", JString "there")])]])])
  else None.

Definition exampleHost : Host := {| JSON_parse := exampleParse |}.

Definition selfHostedConfig (multiRound : bool) : Config :=
  {| accountType := Some "self-hosted";
     optionalCloudApiKey := None;
     aiR1SelfHostedUrl := None;
     aiR1Model := None;
     aiR1ModelTemperature := None;
     MultiRoundConversationContext := Some multiRound |}.

(** A controller is live while it has not been aborted.  The
    cancellation invariant: the live controllers are exactly the
    stored one, so there is at most one. *)
Definition live (w : World) (id : nat) : Prop :=
  exists c, nth_error (calls w) id = Some c /\ aborted c = false.

Definition storedIsLive (w : World) : Prop :=
  forall id, live w id <-> currentAbortController w = Some id.

(** The signal of call [id] has been raised, the call is past its
    post and its promise is settled. *)
Definition silenced (id : nat) (w : World) : Prop :=
  exists c,
    nth_error (calls w) id = Some c
    /\ aborted c = true
    /\ phase c <> Posting
    /\ promise c <> Pending.

(** Between [w] and [w'] nothing happened to call [id]: its record is
    the same and it has posted and logged nothing more. *)
Definition untouched (id : nat) (w w' : World) : Prop :=
  nth_error (calls w') id = nth_error (calls w) id
  /\ effectsOf id w' = effectsOf id w.

Definition cloudConfig : Config :=
  {| accountType := Some "cloud";
     optionalCloudApiKey := Some "sk-example";
     aiR1SelfHostedUrl := None;
     aiR1Model := None;
     aiR1ModelTemperature := None;
     MultiRoundConversationContext := Some true |}.

(** The text of the fragments posted among some effects: what the
    webview has received as chunks, joined.  (A fragment that is
    posted has a text: the append before the post has succeeded.) *)
Fixpoint chunkText (out : list Effect) : string :=
  match out with
  | [] => EmptyString
  | postMessage (streamChunk v) :: rest =>
      match toString v with
      | Normal text => text ++ chunkText rest
      | Throw _ => chunkText rest
      end
  | _ :: rest => chunkText rest
  end.

(** A line of a self-hosted stream that carries a response: it is
    not blank, it parses to an object whose [response] is truthy, and
    the response has a text.  The pair holds the response and its
    text. *)
Definition carries `{Host} (line : string) (response : json * string) : Prop :=
  trim line <> EmptyString
  /\ exists parsed,
       JSON_parse (trim line) = Some parsed
       /\ getProp "response" (Some parsed) = Normal (Some (fst response))
       /\ truthy (Some (fst response)) = true
       /\ toString (fst response) = Normal (snd response).

(** A text made of white space only. *)
Fixpoint allWhiteSpace (s : string) : bool :=
  match s with
  | EmptyString => true
  | String c rest => isWhiteSpace c && allWhiteSpace rest
  end.

(** A cloud stream delivered as a sequence of chunks: the [data]
    handler of [handleCloudStream] run on each in turn. *)
Fixpoint cloudFeed `{Host} (chunks : list string) (fullResponse : string)
         (p : Promise) : string * list Effect * Promise :=
  match chunks with
  | [] => (fullResponse, [], p)
  | chunk :: rest =>
      let '(fullResponse1, out, p1) := cloudOnData chunk fullResponse p in
      let '(fullResponse2, out', p2) := cloudFeed rest fullResponse1 p1 in
      (fullResponse2, (out ++ out')%list, p2)
  end.

Definition isSend (e : Event) : bool :=
  match e with SendToDeepSeek _ _ => true | _ => false end.

(** A [sendToDeepSeek] event made with multi-round context enabled. *)
Definition isMultiRoundSend (e : Event) : bool :=
  match e with
  | SendToDeepSeek config _ =>
      match MultiRoundConversationContext config with
      | Some true => true
      | _ => false
      end
  | _ => false
  end.

End Extension.

(** ** The bytes of a self-hosted stream

    The [data] handler of [handleStreamingRequest] is given buffers of
    bytes and turns each into text on its own, with
    [chunk.toString()].  The text of a buffer can hold any code unit
    (the replacement character U+FFFD, for one), so in this part a
    text is a sequence of 16-bit code units, and the handler and
    [processBuffer] are written out over such texts. *)

Module Bytes.

Definition Buffer := list Byte.byte.
Definition Text := list N.

(** The text with the code units of a string, and the buffer with
    its characters as bytes. *)
Definition text (s : string) : Text := map N_of_ascii (list_ascii_of_string s).
Definition bytes (s : string) : Buffer := map byte_of_ascii (list_ascii_of_string s).

(** *** [chunk.toString()]: UTF-8 decoding with replacement *)

(** Between two bytes the decoder either is at a character boundary
    or awaits [needed] more continuation bytes, the next one within
    [lower .. upper]. *)
Inductive Utf8State :=
| Boundary
| Awaiting (needed : nat) (codePoint lower upper : N).

(** A byte met at a character boundary. *)
Definition lead (b : N) : list N * Utf8State :=
  if (b <=? 0x7F)%N then ([b], Boundary)
  else if ((0xC2 <=? b) && (b <=? 0xDF))%N
  then ([], Awaiting 0 (N.land b 0x1F) 0x80 0xBF)
  else if ((0xE0 <=? b) && (b <=? 0xEF))%N
  then ([], Awaiting 1 (N.land b 0x0F)
                     (if (b =? 0xE0)%N then 0xA0 else 0x80)
                     (if (b =? 0xED)%N then 0x9F else 0xBF))
  else if ((0xF0 <=? b) && (b <=? 0xF4))%N
  then ([], Awaiting 2 (N.land b 0x07)
                     (if (b =? 0xF0)%N then 0x90 else 0x80)
                     (if (b =? 0xF4)%N then 0x8F else 0xBF))
  else ([0xFFFD]%N, Boundary).

(** The code units of a code point: itself, or a surrogate pair. *)
Definition codeUnits (codePoint : N) : list N :=
  if (codePoint <? 0x10000)%N then [codePoint]
  else [0xD800 + (codePoint - 0x10000) / 0x400;
        0xDC00 + (codePoint - 0x10000) mod 0x400]%N.

(** A byte that cannot continue the character begun is replaced by
    U+FFFD together with what came before it, and is then read again
    as the first byte of a character; a character still unfinished
    at the end of the buffer is replaced as well. *)
Fixpoint decode (input : list N) (st : Utf8State) : Text :=
  match input with
  | [] => match st with Boundary => [] | Awaiting _ _ _ _ => [0xFFFD]%N end
  | b :: rest =>
      match st with
      | Boundary => let (out, st') := lead b in (out ++ decode rest st')%list
      | Awaiting needed codePoint lower upper =>
          if ((lower <=? b) && (b <=? upper))%N
          then
            let codePoint' := (codePoint * 64 + N.land b 0x3F)%N in
            match needed with
            | O => (codeUnits codePoint' ++ decode rest Boundary)%list
            | S needed' => decode rest (Awaiting needed' codePoint' 0x80 0xBF)
            end
          else
            let (out, st') := lead b in
            (0xFFFD%N :: out ++ decode rest st')%list
      end
  end.

Definition Buffer_toString (chunk : Buffer) : Text :=
  decode (map Byte.to_N chunk) Boundary.

(** *** The string methods [processBuffer] calls *)

Definition LF : N := 10.

Fixpoint eqb (a b : Text) : bool :=
  match a, b with
  | [], [] => true
  | x :: a', y :: b' => (x =? y)%N && eqb a' b'
  | _, _ => false
  end.

(** [s.indexOf("\n")] *)
Fixpoint indexOf (c : N) (s : Text) : Z :=
  match s with
  | [] => (-1)%Z
  | x :: s' =>
      if (x =? c)%N then 0%Z
      else let i := indexOf c s' in
           if (i <? 0)%Z then (-1)%Z else (i + 1)%Z
  end.

(** [s.includes("\n")] *)
Definition includes (c : N) (s : Text) : bool := (0 <=? indexOf c s)%Z.

Definition clamp (s : Text) (i : Z) : nat := Nat.min (Z.to_nat i) (List.length s).

(** [s.substring(a, b)] *)
Definition substring (a b : Z) (s : Text) : Text :=
  let a' := clamp s a in
  let b' := clamp s b in
  firstn (Nat.max a' b' - Nat.min a' b') (skipn (Nat.min a' b') s).

(** [s.substring(a)] *)
Definition substring_from (a : Z) (s : Text) : Text :=
  substring a (Z.of_nat (List.length s)) s.

(** White space and line terminators, the code units [trim] strips. *)
Definition isWhiteSpace (c : N) : bool :=
  (((9 <=? c) && (c <=? 13)) || (c =? 0x20) || (c =? 0xA0) || (c =? 0x1680)
   || ((0x2000 <=? c) && (c <=? 0x200A))
   || (c =? 0x2028) || (c =? 0x2029) || (c =? 0x202F) || (c =? 0x205F)
   || (c =? 0x3000) || (c =? 0xFEFF))%N.

Fixpoint trimStart (s : Text) : Text :=
  match s with
  | [] => []
  | c :: s' => if isWhiteSpace c then trimStart s' else s
  end.

Fixpoint trimEnd (s : Text) : Text :=
  match s with
  | [] => []
  | c :: s' =>
      match trimEnd s' with
      | [] => if isWhiteSpace c then [] else [c]
      | t => c :: t
      end
  end.

(** [s.trim()] *)
Definition trim (s : Text) : Text := trimEnd (trimStart s).

(** *** Values and the decoder *)

Inductive json :=
| JNull
| JBool (b : bool)
| JNumber (nonzero : bool) (printed : Text)
| JString (s : Text)
| JArray (items : list json)
| JObject (members : list (Text * json)).

Class Host := { JSON_parse : Text -> option json }.

Definition lastMember (key : Text) (members : list (Text * json)) : option json :=
  fold_left (fun acc kv => if eqb (fst kv) key then Some (snd kv) else acc)
            members None.

Definition hasMember (key : Text) (members : list (Text * json)) : bool :=
  existsb (fun kv => eqb (fst kv) key) members.

Definition getProp (key : Text) (v : option json) : Extension.Completion (option json) :=
  match v with
  | None | Some JNull => Extension.Throw Extension.TypeError
  | Some (JObject ms) => Extension.Normal (lastMember key ms)
  | Some _ => Extension.Normal None
  end.

Definition truthy (v : option json) : bool :=
  match v with
  | None | Some JNull => false
  | Some (JBool b) => b
  | Some (JNumber nonzero _) => nonzero
  | Some (JString s) => negb (eqb s [])
  | Some (JArray _) | Some (JObject _) => true
  end.

Fixpoint toString (v : json) : Extension.Completion Text :=
  match v with
  | JNull => Extension.Normal (text "null")
  | JBool true => Extension.Normal (text "true")
  | JBool false => Extension.Normal (text "false")
  | JNumber _ printed => Extension.Normal printed
  | JString s => Extension.Normal s
  | JArray items =>
      (fix elements (l : list json) : Extension.Completion Text :=
         match l with
         | [] => Extension.Normal []
         | x :: rest =>
             match (match x with JNull => Extension.Normal [] | _ => toString x end) with
             | Extension.Throw e => Extension.Throw e
             | Extension.Normal first =>
                 match rest with
                 | [] => Extension.Normal first
                 | _ => match elements rest with
                        | Extension.Throw e => Extension.Throw e
                        | Extension.Normal others => Extension.Normal (first ++ text "," ++ others)%list
                        end
                 end
             end
         end) items
  | JObject members =>
      if hasMember (text "toString") members then Extension.Throw Extension.TypeError
      else Extension.Normal (text "[object Object]")
  end.

Inductive Effect :=
| streamChunk (chunk : json)     (* postMessage({ command: "streamChunk", chunk }) *)
| consoleError (e : Extension.Thrown).     (* console.error("Error parsing JSON line:", e) *)

Record StreamState := { fullResponse : Text; buffer : Text }.

Definition freshState : StreamState := {| fullResponse := []; buffer := [] |}.

Section Decoder.
Context `{Host}.

Definition processLine (line : Text) (state : StreamState)
  : StreamState * list Effect :=
  if eqb line [] then (state, [])
  else
    match JSON_parse line with
    | None => (state, [consoleError Extension.SyntaxError])
    | Some parsed =>
        match getProp (text "response") (Some parsed) with
        | Extension.Throw e => (state, [consoleError e])
        | Extension.Normal (Some response) =>
            if truthy (Some response)
            then match toString response with
                 | Extension.Normal appended =>
                     ({| fullResponse := (fullResponse state ++ appended)%list;
                         buffer := buffer state |},
                      [streamChunk response])
                 | Extension.Throw e => (state, [consoleError e])
                 end
            else (state, [])
        | Extension.Normal None => (state, [])
        end
    end.

Definition processBuffer_body (state : StreamState) : StreamState * list Effect :=
  let line := trim (substring 0 (indexOf LF (buffer state)) (buffer state)) in
  let state1 := {| fullResponse := fullResponse state;
                   buffer := substring_from (indexOf LF (buffer state) + 1)
                                            (buffer state) |} in
  processLine line state1.

Fixpoint processBuffer_loop (fuel : nat) (state : StreamState)
  : StreamState * list Effect :=
  match fuel with
  | O => (state, [])
  | S fuel' =>
      if includes LF (buffer state) then
        let (state1, out) := processBuffer_body state in
        let (state2, out') := processBuffer_loop fuel' state1 in
        (state2, (out ++ out')%list)
      else (state, [])
  end.

(** Every turn of the loop shortens the buffer. *)
Definition processBuffer (state : StreamState) : StreamState * list Effect :=
  processBuffer_loop (List.length (buffer state)) state.

(** The [data] handler once the abort check has passed:
    [streamState.buffer += chunk.toString(); processBuffer(...)]. *)
Definition onData (chunk : Buffer) (state : StreamState)
  : StreamState * list Effect :=
  processBuffer {| fullResponse := fullResponse state;
                   buffer := (buffer state ++ Buffer_toString chunk)%list |}.

(** The [data] events of a stream, one buffer each. *)
Fixpoint feed (chunks : list Buffer) (state : StreamState)
  : StreamState * list Effect :=
  match chunks with
  | [] => (state, [])
  | chunk :: rest =>
      let (state1, out) := onData chunk state in
      let (state2, out') := feed rest state1 in
      (state2, (out ++ out')%list)
  end.

End Decoder.

(** The bytes of the line [{"response":"..."}] with its newline,
    around the given bytes, and the text of that line around the
    given text. *)
Definition responseBytes (inner : Buffer) : Buffer :=
  (bytes ("{" ++ Extension.DQ ++ "response" ++ Extension.DQ ++ ":" ++ Extension.DQ)
   ++ inner ++ bytes (Extension.DQ ++ "}" ++ JS.LF))%list.

Definition responseText (inner : Text) : Text :=
  (text ("{" ++ Extension.DQ ++ "response" ++ Extension.DQ ++ ":" ++ Extension.DQ)
   ++ inner ++ text (Extension.DQ ++ "}"))%list.

(** What [JSON.parse] answers on the two lines the example meets: the
    line whose response is the one character U+00E9, and the line
    whose response is two replacement characters U+FFFD.  On every
    other text the table answers [None]. *)
Definition exampleParse (s : Text) : option json :=
  if eqb s (responseText [0xE9]%N) then
    Some (JObject [(text "response", JString [0xE9]%N)])
  else if eqb s (responseText [0xFFFD; 0xFFFD]%N) then
    Some (JObject [(text "response", JString [0xFFFD; 0xFFFD]%N)])
  else None.

Definition exampleHost : Host := {| JSON_parse := exampleParse |}.

End Bytes.

(** * Properties *)

(** ** Facts about the string methods *)

Module JSFacts.
Import JS.

Lemma startsWith_split p s :
  startsWith p s = true -> s = p ++ slice (String.length p) s.
Proof.
  revert s; induction p as [|a p IH]; intros s Hs; [reflexivity|].
  destruct s as [|b s]; [discriminate|].
  simpl in Hs |- *.
  destruct (Ascii.eqb_spec a b) as [->|]; [|discriminate].
  f_equal; auto.
Qed.

Lemma startsWith_app p r : startsWith p (p ++ r) = true.
Proof.
  induction p as [|a p IH]; simpl; [reflexivity|].
  now rewrite Ascii.eqb_refl.
Qed.

Lemma slice_app p r : slice (String.length p) (p ++ r) = r.
Proof. induction p; simpl; auto. Qed.

Lemma append_assoc (a b c : string) : (a ++ b) ++ c = a ++ b ++ c.
Proof. induction a; simpl; congruence. Qed.

Lemma append_empty (a : string) : a ++ EmptyString = a.
Proof. induction a; simpl; congruence. Qed.

Lemma length_app (a b : string) :
  String.length (a ++ b) = String.length a + String.length b.
Proof. induction a; simpl; auto. Qed.

Lemma indexOf_lower p s : (-1 <= indexOf p s)%Z.
Proof.
  induction s as [|c s IH]; simpl.
  - destruct (startsWith p EmptyString); lia.
  - destruct (startsWith p (String c s)); [lia|].
    destruct (Z.ltb_spec (indexOf p s) 0); lia.
Qed.

Lemma includes_cons p c s :
  includes p (String c s) = startsWith p (String c s) || includes p s.
Proof.
  unfold includes; simpl.
  destruct (startsWith p (String c s)); [reflexivity|]; simpl.
  destruct (Z.ltb_spec (indexOf p s) 0);
    destruct (Z.leb_spec 0 (indexOf p s)); try reflexivity; try lia;
    symmetry; apply Z.leb_le || apply Z.leb_gt; lia.
Qed.

Lemma includes_startsWith p s : startsWith p s = true -> includes p s = true.
Proof.
  intros Hs; unfold includes.
  destruct s; simpl; rewrite Hs; reflexivity.
Qed.

Lemma includes_middle p x y : includes p (x ++ p ++ y) = true.
Proof.
  induction x as [|c x IH]; simpl.
  - apply includes_startsWith, startsWith_app.
  - rewrite includes_cons, IH. apply orb_true_r.
Qed.

(** A literal whose first character does not come back inside it
    cannot straddle the border between a text and a copy of itself. *)
Lemma startsWith_before_char a q s t :
  includes (String a EmptyString) q = false ->
  startsWith q (s ++ String a t) = true -> startsWith q s = true.
Proof.
  revert s; induction q as [|b q IH]; intros s Hq Hs; [reflexivity|].
  rewrite includes_cons in Hq. apply orb_false_iff in Hq as [Hb Hq].
  simpl in Hb.
  destruct s as [|c s]; simpl in Hs |- *.
  - destruct (Ascii.eqb_spec b a) as [->|]; [|discriminate].
    rewrite Ascii.eqb_refl in Hb. discriminate.
  - destruct (Ascii.eqb b c); [|discriminate]. auto.
Qed.

Lemma startsWith_no_overlap a p s r :
  includes (String a EmptyString) p = false ->
  startsWith (String a p) (s ++ String a p ++ r) = true ->
  s = EmptyString \/ startsWith (String a p) s = true.
Proof.
  intros Hp Hs. destruct s as [|c s]; [now left|right].
  simpl in Hs |- *.
  destruct (Ascii.eqb a c); [|discriminate].
  eapply startsWith_before_char; eauto.
Qed.

End JSFacts.

(** ** The reasoning split *)

Module ChatViewFacts.
Import JS JSFacts ChatView.

Lemma lazyUntil_sound close s cap rest :
  lazyUntil close s = Some (cap, rest) -> s = cap ++ close ++ rest.
Proof.
  revert cap rest; induction s as [|c s IH]; intros cap rest; simpl.
  - destruct (startsWith close EmptyString) eqn:Hs; [|discriminate].
    intros [= <- <-]. now apply startsWith_split in Hs.
  - destruct (startsWith close (String c s)) eqn:Hs.
    + intros [= <- <-]. now apply startsWith_split in Hs.
    + destruct (lazyUntil close s) as [[cap' rest']|]; [|discriminate].
      intros [= <- <-]. simpl. f_equal. now apply IH.
Qed.

Lemma matchHere_sound s cap rest :
  matchHere s = Some (cap, rest) -> s = openTag ++ cap ++ closeTag ++ rest.
Proof.
  unfold matchHere. destruct (startsWith openTag s) eqn:Hs; [|discriminate].
  intros Hl. apply lazyUntil_sound in Hl. apply startsWith_split in Hs.
  rewrite Hs at 1. now rewrite Hl.
Qed.

(** A match of the regex is an occurrence of a complete pair. *)
Lemma exec_sound text m :
  exec text = Some m ->
  text = before m ++ openTag ++ group1 m ++ closeTag ++ after m.
Proof.
  revert m; induction text as [|c text IH]; intros m; cbn [exec].
  - destruct (matchHere EmptyString) as [[cap rest]|] eqn:Hm; [|discriminate].
    intros [= <-]. now apply matchHere_sound in Hm.
  - destruct (matchHere (String c text)) as [[cap rest]|] eqn:Hm.
    + intros [= <-]. now apply matchHere_sound in Hm.
    + destruct (exec text) as [m'|]; [|discriminate].
      intros [= <-]. simpl. f_equal. now apply IH.
Qed.

Lemma lazyUntil_first close' a B C :
  includes (String a EmptyString) close' = false ->
  includes (String a close') B = false ->
  lazyUntil (String a close') (B ++ String a close' ++ C) = Some (B, C).
Proof.
  intros Ha. induction B as [|c B IH]; intros HB.
  - change (EmptyString ++ String a close' ++ C) with (String a close' ++ C).
    destruct C; simpl; rewrite Ascii.eqb_refl, startsWith_app, ?slice_app;
      reflexivity.
  - rewrite includes_cons in HB. apply orb_false_iff in HB as [Hc HB].
    change ((String c B) ++ String a close' ++ C)
      with (String c (B ++ String a close' ++ C)).
    cbn [lazyUntil].
    destruct (startsWith (String a close') (String c (B ++ String a close' ++ C)))
      eqn:Hs.
    + apply (startsWith_no_overlap a close' (String c B) C Ha) in Hs
        as [Hs|Hs]; [discriminate|congruence].
    + now rewrite IH.
Qed.

Lemma exec_unfold text :
  exec text
  = match matchHere text with
    | Some (cap, rest) =>
        Some {| before := EmptyString; group1 := cap; after := rest |}
    | None =>
        match text with
        | EmptyString => None
        | String c text' =>
            match exec text' with
            | Some m => Some {| before := String c (before m);
                                group1 := group1 m; after := after m |}
            | None => None
            end
        end
    end.
Proof. destruct text; reflexivity. Qed.

(** The first pair: nothing opens before it and nothing closes inside. *)
Lemma exec_first A B C :
  includes openTag A = false ->
  includes closeTag B = false ->
  exec (A ++ openTag ++ B ++ closeTag ++ C)
  = Some {| before := A; group1 := B; after := C |}.
Proof.
  intros HA HB. induction A as [|c A IH].
  - assert (Hm : matchHere (openTag ++ B ++ closeTag ++ C) = Some (B, C)).
    { unfold matchHere. rewrite startsWith_app, slice_app.
      now apply (lazyUntil_first "/think>" "<"%char). }
    change (EmptyString ++ openTag ++ B ++ closeTag ++ C)
      with (openTag ++ B ++ closeTag ++ C).
    now rewrite exec_unfold, Hm.
  - rewrite includes_cons in HA. apply orb_false_iff in HA as [Hc HA].
    change ((String c A) ++ openTag ++ B ++ closeTag ++ C)
      with (String c (A ++ openTag ++ B ++ closeTag ++ C)).
    rewrite exec_unfold.
    assert (Hm : matchHere (String c (A ++ openTag ++ B ++ closeTag ++ C)) = None).
    { unfold matchHere.
      destruct (startsWith openTag (String c (A ++ openTag ++ B ++ closeTag ++ C)))
        eqn:Hs; [|reflexivity].
      apply (startsWith_no_overlap "<"%char "think>" (String c A)
               (B ++ closeTag ++ C) eq_refl) in Hs as [Hs|Hs];
        [discriminate|unfold openTag in Hc; congruence]. }
    rewrite Hm, (IH HA). reflexivity.
Qed.

Lemma extract_first A B C :
  includes openTag A = false ->
  includes closeTag B = false ->
  extractThinkContent (A ++ openTag ++ B ++ closeTag ++ C)
  = {| mainText := A ++ C; thinkContent := B |}.
Proof.
  intros HA HB. unfold extractThinkContent, replaceFirst.
  now rewrite (exec_first A B C HA HB).
Qed.

(** C3: the split of [A<think>B</think>C] is main text [AC] with
    reasoning [B], and a text without a complete
    [<think>...</think>] pair comes back unchanged as the main text,
    an opening tag left open included, with empty reasoning. *)
Theorem extractThinkContent_spec :
  extractThinkContent "A<think>B</think>C"
  = {| mainText := "AC"; thinkContent := "B" |}
  /\ forall text,
       (forall a b c, text <> a ++ "<think>" ++ b ++ "</think>" ++ c) ->
       extractThinkContent text = {| mainText := text; thinkContent := EmptyString |}.
Proof.
  split; [reflexivity|].
  intros text Hno. unfold extractThinkContent.
  destruct (exec text) as [m|] eqn:Hm; [|reflexivity].
  apply exec_sound in Hm. now apply Hno in Hm.
Qed.

Lemma extractThinkContent_spec_witness :
  extractThinkContent "see <think>still open"
  = {| mainText := "see <think>still open"; thinkContent := EmptyString |}.
Proof.
  apply (proj2 extractThinkContent_spec).
  intros a b c E.
  assert (Hc : includes "</think>" "see <think>still open" = true).
  { rewrite E.
    replace (a ++ "<think>" ++ b ++ "</think>" ++ c)
      with ((a ++ "<think>" ++ b) ++ "</think>" ++ c)
      by (now rewrite !append_assoc).
    apply includes_middle. }
  discriminate Hc.
Defined.

(** C10: with two complete pairs in the text, only the first pair is
    taken: its inside is the reasoning text, it alone is cut out of
    the main text, and the second pair stays in the main text with
    its tags. *)
Theorem extractThinkContent_first_pair_only A B M B2 D :
  includes "<think>" A = false ->
  includes "</think>" B = false ->
  extractThinkContent
    (A ++ "<think>" ++ B ++ "</think>" ++ M ++ "<think>" ++ B2 ++ "</think>" ++ D)
  = {| mainText := A ++ M ++ "<think>" ++ B2 ++ "</think>" ++ D;
       thinkContent := B |}.
Proof.
  intros HA HB.
  exact (extract_first A B (M ++ "<think>" ++ B2 ++ "</think>" ++ D) HA HB).
Qed.

Lemma extractThinkContent_first_pair_only_witness :
  extractThinkContent "a<think>p</think>b<think>q</think>c"
  = {| mainText := "ab<think>q</think>c"; thinkContent := "p" |}.
Proof.
  apply (extractThinkContent_first_pair_only "a" "p" "b" "q" "c"); reflexivity.
Defined.

End ChatViewFacts.

(** ** The self-hosted line-JSON decoder *)

Module DecoderFacts.
Import JS JSFacts Extension.

(** *** Cutting a buffer at its first newline *)

Lemma includes_LF_cons c s :
  includes LF (String c s) = Ascii.eqb LFc c || includes LF s.
Proof.
  rewrite includes_cons.
  change (startsWith LF (String c s)) with (if Ascii.eqb LFc c then true else false).
  now destruct (Ascii.eqb LFc c).
Qed.

Lemma cut_exists b :
  includes LF b = true ->
  exists l r, b = l ++ LF ++ r /\ includes LF l = false.
Proof.
  induction b as [|c b IH]; [discriminate|].
  rewrite includes_LF_cons.
  destruct (Ascii.eqb_spec LFc c) as [<-|Hc]; cbn [orb].
  - intros _. exists EmptyString, b. split; reflexivity.
  - intros Hb. destruct (IH Hb) as (l & r & -> & Hl).
    exists (String c l), r. split; [reflexivity|].
    rewrite includes_LF_cons, Hl.
    destruct (Ascii.eqb_spec LFc c); [contradiction|reflexivity].
Qed.

Lemma indexOf_cut l r :
  includes LF l = false ->
  indexOf LF (l ++ LF ++ r) = Z.of_nat (String.length l).
Proof.
  induction l as [|c l IH]; intros Hl.
  - reflexivity.
  - rewrite includes_LF_cons in Hl. apply orb_false_iff in Hl as [Hc Hl].
    change (indexOf LF (String c (l ++ LF ++ r))
            = Z.of_nat (S (String.length l))).
    cbn [indexOf].
    change (startsWith LF (String c (l ++ LF ++ r)))
      with (if Ascii.eqb LFc c then true else false).
    rewrite Hc, (IH Hl).
    destruct (Z.ltb_spec (Z.of_nat (String.length l)) 0); lia.
Qed.

Lemma substring_prefix l x :
  String.substring 0 (String.length l) (l ++ x) = l.
Proof. induction l; simpl; [now destruct x|congruence]. Qed.

Lemma substring_skip l n m y :
  String.substring (String.length l + n) m (l ++ y) = String.substring n m y.
Proof. induction l; simpl; auto. Qed.

Lemma substring_all r : String.substring 0 (String.length r) r = r.
Proof. induction r; simpl; congruence. Qed.

Lemma substring_head l x :
  substring 0 (Z.of_nat (String.length l)) (l ++ x) = l.
Proof.
  unfold substring, clamp. rewrite length_app, Nat2Z.id.
  change (Z.to_nat 0) with 0%nat.
  rewrite Nat.min_0_l, (Nat.min_l (String.length l)) by lia.
  rewrite Nat.min_0_l, Nat.max_0_l, Nat.sub_0_r. apply substring_prefix.
Qed.

Lemma substring_tail l r :
  substring_from (Z.of_nat (String.length l) + 1) (l ++ LF ++ r) = r.
Proof.
  unfold substring_from, substring, clamp.
  rewrite !length_app, !Nat2Z.id.
  change (String.length LF) with 1%nat.
  replace (Z.to_nat (Z.of_nat (String.length l) + 1)) with (String.length l + 1)%nat
    by lia.
  rewrite Nat.min_id, (Nat.min_l (String.length l + 1)) by lia.
  rewrite Nat.min_l, Nat.max_r by lia.
  replace (String.length l + (1 + String.length r) - (String.length l + 1))%nat
    with (String.length r) by lia.
  rewrite substring_skip. apply substring_all.
Qed.

(** Induction over the lines of a buffer. *)
Lemma cut_ind (P : string -> Prop) :
  (forall b, includes LF b = false -> P b) ->
  (forall l r, includes LF l = false -> P r -> P (l ++ LF ++ r)) ->
  forall b, P b.
Proof.
  intros Hbase Hstep b.
  remember (String.length b) as n eqn:Hn.
  revert b Hn. induction n as [n IH] using lt_wf_ind. intros b ->.
  destruct (includes LF b) eqn:Hb; [|auto].
  destruct (cut_exists b Hb) as (l & r & -> & Hl).
  apply Hstep; [assumption|].
  apply (IH (String.length r)); [|reflexivity].
  rewrite !length_app. change (String.length LF) with 1%nat. lia.
Qed.

Lemma split_nonempty c s : split c s <> [].
Proof.
  destruct s as [|a s]; cbn [split]; [discriminate|].
  destruct (Ascii.eqb a c); [discriminate|].
  destruct (split c s); discriminate.
Qed.

Lemma split_noLF b : includes LF b = false -> split LFc b = [b].
Proof.
  induction b as [|c b IH]; [reflexivity|].
  rewrite includes_LF_cons. intros Hb. apply orb_false_iff in Hb as [Hc Hb].
  cbn [split]. rewrite Ascii.eqb_sym, Hc, (IH Hb). reflexivity.
Qed.

Lemma split_cut l r :
  includes LF l = false -> split LFc (l ++ LF ++ r) = l :: split LFc r.
Proof.
  induction l as [|c l IH]; intros Hl.
  - reflexivity.
  - rewrite includes_LF_cons in Hl. apply orb_false_iff in Hl as [Hc Hl].
    change (split LFc (String c (l ++ LF ++ r)) = String c l :: split LFc r).
    cbn [split]. rewrite Ascii.eqb_sym, Hc, (IH Hl). reflexivity.
Qed.

Lemma afterLastNewline_noLF b :
  includes LF b = false -> afterLastNewline b = b.
Proof. intros Hb. unfold afterLastNewline. now rewrite split_noLF. Qed.

Lemma afterLastNewline_cut l r :
  includes LF l = false -> afterLastNewline (l ++ LF ++ r) = afterLastNewline r.
Proof.
  intros Hl. unfold afterLastNewline. rewrite (split_cut l r Hl).
  pose proof (split_nonempty LFc r).
  destruct (split LFc r); [contradiction|reflexivity].
Qed.

Lemma afterLastNewline_clean b : includes LF (afterLastNewline b) = false.
Proof.
  induction b as [b Hb|l r Hl IH] using cut_ind.
  - now rewrite afterLastNewline_noLF.
  - now rewrite afterLastNewline_cut.
Qed.

Lemma chunkText_app a b : chunkText (a ++ b) = chunkText a ++ chunkText b.
Proof.
  induction a as [|e a IH]; [reflexivity|].
  destruct e as [[v| | |m]|label t]; cbn [app chunkText]; rewrite ?IH;
    [|reflexivity..].
  destruct (toString v); [now rewrite append_assoc|reflexivity].
Qed.

(** *** The loop of [processBuffer] *)

Section Loop.
Context `{Host}.

(** What a line does depends on the line and on the response so
    far; the buffer passes through. *)
Lemma processLine_shape line fr :
  exists fr' out,
    forall b, processLine line {| fullResponse := fr; buffer := b |}
              = ({| fullResponse := fr'; buffer := b |}, out).
Proof.
  unfold processLine.
  destruct (String.eqb line EmptyString); [now exists fr, []|].
  destruct (JSON_parse line) as [parsed|];
    [|do 2 eexists; intros b; reflexivity].
  destruct (getProp "response" (Some parsed)) as [[response|]|e];
    [|do 2 eexists; intros b; reflexivity..].
  destruct (truthy (Some response)); [|now exists fr, []].
  destruct (toString response) as [text|e].
  - now exists (fr ++ text), [postMessage (streamChunk response)].
  - do 2 eexists; intros b; reflexivity.
Qed.

(** What a line emits does not depend on the state at all. *)
Lemma processLine_out line st st' :
  snd (processLine line st) = snd (processLine line st').
Proof.
  unfold processLine.
  destruct (String.eqb line EmptyString); [reflexivity|].
  destruct (JSON_parse line) as [parsed|]; [|reflexivity].
  destruct (getProp "response" (Some parsed)) as [[response|]|e];
    try reflexivity.
  destruct (truthy (Some response)); [|reflexivity].
  destruct (toString response); reflexivity.
Qed.

Lemma processBuffer_body_cut fr l r :
  includes LF l = false ->
  processBuffer_body {| fullResponse := fr; buffer := l ++ LF ++ r |}
  = processLine (trim l) {| fullResponse := fr; buffer := r |}.
Proof.
  intros Hl. unfold processBuffer_body. cbn [buffer fullResponse].
  now rewrite (indexOf_cut l r Hl), substring_head, substring_tail.
Qed.

(** One more unit of fuel than the buffer is long changes nothing. *)
Lemma processBuffer_loop_S fuel st :
  String.length (buffer st) <= fuel ->
  processBuffer_loop (S fuel) st = processBuffer_loop fuel st.
Proof.
  revert st. induction fuel as [|fuel IH]; intros [fr b] Hlen;
    cbn [buffer] in Hlen.
  - destruct b; [reflexivity|simpl in Hlen; lia].
  - cbn [processBuffer_loop buffer].
    destruct (includes LF b) eqn:Hb; [|reflexivity].
    destruct (cut_exists b Hb) as (l & r & -> & Hl).
    rewrite (processBuffer_body_cut fr l r Hl).
    destruct (processLine_shape (trim l) fr) as (fr' & out & ->).
    rewrite <- (IH {| fullResponse := fr'; buffer := r |}).
    + reflexivity.
    + cbn [buffer]. rewrite !length_app in Hlen.
      change (String.length LF) with 1 in Hlen. lia.
Qed.

Lemma processBuffer_loop_enough k st :
  processBuffer_loop (String.length (buffer st) + k) st = processBuffer st.
Proof.
  induction k as [|k IH].
  - now rewrite Nat.add_0_r.
  - rewrite Nat.add_succ_r, processBuffer_loop_S by lia. exact IH.
Qed.

(** [processBuffer] obeys the equation of the [while] loop: the
    fuel never runs out. *)
Lemma processBuffer_unfold st :
  processBuffer st
  = if includes LF (buffer st) then
      let (st1, out) := processBuffer_body st in
      let (st2, out') := processBuffer st1 in
      (st2, (out ++ out')%list)
    else (st, []).
Proof.
  destruct st as [fr b]. cbn [buffer].
  destruct (includes LF b) eqn:Hb.
  - destruct (cut_exists b Hb) as (l & r & -> & Hl).
    unfold processBuffer at 1. cbn [buffer].
    rewrite !length_app. change (String.length LF) with 1.
    replace (String.length l + (1 + String.length r))
      with (S (String.length r + String.length l)) by lia.
    cbn [processBuffer_loop buffer]. rewrite includes_middle.
    rewrite (processBuffer_body_cut fr l r Hl).
    destruct (processLine_shape (trim l) fr) as (fr' & out & ->).
    pose proof (processBuffer_loop_enough (String.length l)
                  {| fullResponse := fr'; buffer := r |}) as E.
    cbn [buffer] in E. now rewrite E.
  - unfold processBuffer. cbn [buffer].
    destruct (String.length b); cbn [processBuffer_loop buffer];
      [reflexivity|now rewrite Hb].
Qed.

Lemma processBuffer_noLF fr b :
  includes LF b = false ->
  processBuffer {| fullResponse := fr; buffer := b |}
  = ({| fullResponse := fr; buffer := b |}, []).
Proof. intros Hb. rewrite processBuffer_unfold. cbn [buffer]. now rewrite Hb. Qed.

Lemma processBuffer_cut fr l r :
  includes LF l = false ->
  processBuffer {| fullResponse := fr; buffer := l ++ LF ++ r |}
  = let (st1, out) := processLine (trim l) {| fullResponse := fr; buffer := r |} in
    let (st2, out') := processBuffer st1 in
    (st2, (out ++ out')%list).
Proof.
  intros Hl. rewrite processBuffer_unfold. cbn [buffer].
  now rewrite includes_middle, (processBuffer_body_cut fr l r Hl).
Qed.

(** The buffer left behind is the text after the last newline. *)
Lemma processBuffer_buffer fr b :
  buffer (fst (processBuffer {| fullResponse := fr; buffer := b |}))
  = afterLastNewline b.
Proof.
  revert fr. induction b as [b Hb|l r Hl IH] using cut_ind; intros fr.
  - now rewrite processBuffer_noLF, afterLastNewline_noLF.
  - rewrite (processBuffer_cut fr l r Hl), (afterLastNewline_cut l r Hl).
    destruct (processLine_shape (trim l) fr) as (fr' & out & ->).
    specialize (IH fr').
    destruct (processBuffer {| fullResponse := fr'; buffer := r |}).
    exact IH.
Qed.

(** Decoding a text in two pieces is decoding it whole. *)
Lemma processBuffer_app fr b c :
  processBuffer {| fullResponse := fr; buffer := b ++ c |}
  = let (st1, out) := processBuffer {| fullResponse := fr; buffer := b |} in
    let (st2, out') :=
      processBuffer {| fullResponse := fullResponse st1;
                       buffer := buffer st1 ++ c |} in
    (st2, (out ++ out')%list).
Proof.
  revert fr. induction b as [b Hb|l r Hl IH] using cut_ind; intros fr.
  - rewrite (processBuffer_noLF fr b Hb). cbn [fullResponse buffer].
    now destruct (processBuffer {| fullResponse := fr; buffer := b ++ c |}).
  - rewrite !append_assoc.
    change (String LFc (EmptyString ++ r ++ c)) with (LF ++ r ++ c).
    change (String LFc (EmptyString ++ r)) with (LF ++ r).
    rewrite (processBuffer_cut fr l (r ++ c) Hl), (processBuffer_cut fr l r Hl).
    destruct (processLine_shape (trim l) fr) as (fr' & out & Hline).
    rewrite !Hline, (IH fr').
    destruct (processBuffer {| fullResponse := fr'; buffer := r |})
      as [st1 out1].
    destruct (processBuffer {| fullResponse := fullResponse st1;
                               buffer := buffer st1 ++ c |}) as [st2 out2].
    now rewrite app_assoc.
Qed.

Lemma join_empty_cons c rest :
  join EmptyString (c :: rest) = c ++ join EmptyString rest.
Proof.
  destruct rest; cbn [join]; [now rewrite append_empty|reflexivity].
Qed.

Lemma feed_join chunks st :
  includes LF (buffer st) = false ->
  feed chunks st = appendChunk (join EmptyString chunks) st.
Proof.
  revert st. induction chunks as [|c rest IH]; intros [fr b] Hb;
    cbn [buffer] in Hb.
  - unfold appendChunk. cbn [feed join fullResponse buffer].
    now rewrite append_empty, processBuffer_noLF.
  - cbn [feed]. rewrite join_empty_cons. unfold appendChunk.
    cbn [fullResponse buffer].
    rewrite <- append_assoc, (processBuffer_app fr (b ++ c)).
    pose proof (processBuffer_buffer fr (b ++ c)) as Hbuf.
    destruct (processBuffer {| fullResponse := fr; buffer := b ++ c |})
      as [[fr1 b1] out1].
    cbn [fst buffer fullResponse] in Hbuf |- *.
    rewrite IH by (cbn [buffer]; rewrite Hbuf; apply afterLastNewline_clean).
    reflexivity.
Qed.

(** However a text is cut into chunks, the decoder ends in the same
    state and emits the same effects in the same order; what follows
    the last newline stays in the buffer. *)
Lemma feed_chunking (chunks : list string) :
  let text := join EmptyString chunks in
  feed chunks freshState = feed [text] freshState
  /\ deltas (snd (feed chunks freshState)) = deltas (snd (feed [text] freshState))
  /\ fullResponse (fst (feed chunks freshState))
     = fullResponse (fst (feed [text] freshState))
  /\ buffer (fst (feed chunks freshState)) = afterLastNewline text
  /\ includes LF (buffer (fst (feed chunks freshState))) = false.
Proof.
  intros text.
  assert (E : feed chunks freshState = feed [text] freshState).
  { rewrite (feed_join chunks), (feed_join [text]) by reflexivity.
    now cbn [join]. }
  assert (B : buffer (fst (feed chunks freshState)) = afterLastNewline text).
  { rewrite (feed_join chunks) by reflexivity. unfold appendChunk, freshState.
    cbn [fullResponse buffer]. apply processBuffer_buffer. }
  repeat split; try (now rewrite E); [exact B|].
  rewrite B. apply afterLastNewline_clean.
Qed.

(** *** Streams given line by line *)

Lemma terminated_app xs ys :
  terminated (xs ++ ys) = terminated xs ++ terminated ys.
Proof.
  induction xs as [|x xs IH]; [reflexivity|].
  cbn [terminated app fold_right]. fold (terminated (xs ++ ys)).
  fold (terminated xs). now rewrite IH, !append_assoc.
Qed.

Lemma afterLastNewline_terminated ls :
  Forall (fun l => includes LF l = false) ls ->
  afterLastNewline (terminated ls) = EmptyString.
Proof.
  induction 1 as [|l ls Hl _ IH]; [reflexivity|].
  change (terminated (l :: ls)) with (l ++ LF ++ terminated ls).
  now rewrite afterLastNewline_cut.
Qed.

Lemma processBuffer_lines_app fr xs ys :
  Forall (fun l => includes LF l = false) xs ->
  processBuffer {| fullResponse := fr; buffer := terminated (xs ++ ys) |}
  = let (st1, out) :=
      processBuffer {| fullResponse := fr; buffer := terminated xs |} in
    let (st2, out') :=
      processBuffer {| fullResponse := fullResponse st1;
                       buffer := terminated ys |} in
    (st2, (out ++ out')%list).
Proof.
  intros Hxs. rewrite terminated_app, processBuffer_app.
  pose proof (processBuffer_buffer fr (terminated xs)) as Hbuf.
  rewrite (afterLastNewline_terminated xs Hxs) in Hbuf.
  destruct (processBuffer {| fullResponse := fr; buffer := terminated xs |})
    as [[fr1 b1] out1].
  cbn [fst buffer fullResponse] in Hbuf |- *. now subst b1.
Qed.

Lemma processBuffer_lines_cons fr l ls :
  includes LF l = false ->
  processBuffer {| fullResponse := fr; buffer := terminated (l :: ls) |}
  = let (st1, out) :=
      processLine (trim l) {| fullResponse := fr; buffer := terminated ls |} in
    let (st2, out') := processBuffer st1 in
    (st2, (out ++ out')%list).
Proof. intros Hl. exact (processBuffer_cut fr l (terminated ls) Hl). Qed.

(** A line that is not blank and does not parse is logged and
    changes nothing. *)
Lemma processLine_malformed line st :
  line <> EmptyString -> JSON_parse line = None ->
  processLine line st
  = (st, [consoleError "Error parsing JSON line:" SyntaxError]).
Proof.
  intros Hne Hparse. unfold processLine.
  destruct (String.eqb_spec line EmptyString); [contradiction|].
  now rewrite Hparse.
Qed.

(** A line whose parsed object carries a truthy [response] that has
    a text emits it. *)
Lemma processLine_valid line parsed v text st :
  line <> EmptyString -> JSON_parse line = Some parsed ->
  getProp "response" (Some parsed) = Normal (Some v) ->
  truthy (Some v) = true ->
  toString v = Normal text ->
  processLine line st
  = ({| fullResponse := fullResponse st ++ text; buffer := buffer st |},
     [postMessage (streamChunk v)]).
Proof.
  intros Hne Hparse Hget Htruthy Htext. unfold processLine.
  destruct (String.eqb_spec line EmptyString); [contradiction|].
  now rewrite Hparse, Hget, Htruthy, Htext.
Qed.

Lemma deltas_app (a b : list Effect) : deltas (a ++ b) = (deltas a ++ deltas b)%list.
Proof. apply filter_app. Qed.

Lemma processLine_response line st :
  fullResponse (fst (processLine line st))
  = fullResponse st ++ chunkText (snd (processLine line st)).
Proof.
  unfold processLine.
  destruct (String.eqb line EmptyString); [cbn; now rewrite append_empty|].
  destruct (JSON_parse line) as [parsed|]; [|cbn; now rewrite append_empty].
  destruct (getProp "response" (Some parsed)) as [[response|]|e];
    try (cbn; now rewrite append_empty).
  destruct (truthy (Some response)); [|cbn; now rewrite append_empty].
  destruct (toString response) as [text|e] eqn:E; cbn; rewrite ?E;
    now rewrite append_empty.
Qed.

Lemma processBuffer_response fr b :
  fullResponse (fst (processBuffer {| fullResponse := fr; buffer := b |}))
  = fr ++ chunkText (snd (processBuffer {| fullResponse := fr; buffer := b |})).
Proof.
  revert fr. induction b as [b Hb|l r Hl IH] using cut_ind; intros fr.
  - rewrite (processBuffer_noLF fr b Hb). cbn. now rewrite append_empty.
  - rewrite (processBuffer_cut fr l r Hl).
    pose proof (processLine_response (trim l) {| fullResponse := fr; buffer := r |})
      as Hline.
    destruct (processLine_shape (trim l) fr) as (fr' & out & E).
    rewrite E in Hline |- *. cbn [fst snd fullResponse] in Hline.
    specialize (IH fr').
    destruct (processBuffer {| fullResponse := fr'; buffer := r |}) as [st2 out2].
    cbn [fst snd] in IH |- *.
    now rewrite IH, Hline, chunkText_app, append_assoc.
Qed.

Lemma line_by_line fr (lines : list string) (tail : string) :
  Forall (fun l => includes LF l = false) lines ->
  includes LF tail = false ->
  let r := processBuffer {| fullResponse := fr;
                            buffer := terminated lines ++ tail |} in
  snd r = flat_map (fun l => snd (processLine (trim l) freshState)) lines
  /\ buffer (fst r) = tail.
Proof.
  intros Hall Htail. revert fr. induction Hall as [|l ls Hl _ IH]; intros fr.
  - cbn [terminated fold_right append flat_map].
    now rewrite (processBuffer_noLF fr tail Htail).
  - change (terminated (l :: ls) ++ tail) with ((l ++ LF ++ terminated ls) ++ tail).
    rewrite !append_assoc.
    change (String LFc (EmptyString ++ terminated ls ++ tail))
      with (LF ++ terminated ls ++ tail).
    cbn zeta. rewrite (processBuffer_cut fr l (terminated ls ++ tail) Hl).
    cbn [flat_map].
    rewrite (processLine_out (trim l) freshState
               {| fullResponse := fr; buffer := terminated ls ++ tail |}).
    destruct (processLine_shape (trim l) fr) as (fr' & out & ->).
    specialize (IH fr'). cbn zeta in IH. destruct IH as [IH1 IH2].
    destruct (processBuffer {| fullResponse := fr';
                               buffer := terminated ls ++ tail |}) as [st2 out2].
    cbn [fst snd] in *. now rewrite IH1.
Qed.

(** What the lines that carry responses emit, and the text they add. *)
Lemma carried_lines lines (responses : list (json * string)) :
  Forall2 carries lines responses ->
  flat_map (fun l => snd (processLine (trim l) freshState)) lines
  = map (fun r => postMessage (streamChunk (fst r))) responses
  /\ chunkText (map (fun r => postMessage (streamChunk (fst r))) responses)
     = String.concat EmptyString (map snd responses).
Proof.
  induction 1 as [|l [v text] ls rs (Hne & parsed & Hp & Hg & Ht & Hs) _ [IH1 IH2]].
  - split; reflexivity.
  - cbn [fst snd] in *. cbn [flat_map map].
    rewrite (processLine_valid _ parsed v text freshState Hne Hp Hg Ht Hs).
    cbn [snd app]. rewrite IH1. split; [reflexivity|].
    cbn [chunkText fst]. rewrite Hs, IH2.
    destruct rs as [|r rs']; [now rewrite append_empty|reflexivity].
Qed.

(** C5: one malformed line among the lines of a self-hosted stream
    does not stop the decoder.  The line is logged and skipped: the
    decoder emits, in order, what each line before it emits, the one
    log entry, and what each line after it emits; the final state,
    accumulated response included, is that of the stream without the
    line, the response being the text of the fragments posted; and
    nothing is left in the buffer.  When the other lines carry
    responses, the effects are exactly the posts of these responses
    in order around the log entry, and the accumulated response is
    their texts joined. *)
Theorem malformed_line_is_skipped fr (before after : list string) (bad : string) :
  Forall (fun l => includes LF l = false) (before ++ bad :: after) ->
  trim bad <> EmptyString ->
  JSON_parse (trim bad) = None ->
  let run lines := processBuffer {| fullResponse := fr; buffer := terminated lines |} in
  let emits l := snd (processLine (trim l) freshState) in
  let post (r : json * string) := postMessage (streamChunk (fst r)) in
  snd (run (before ++ bad :: after)%list)
  = (flat_map emits before
     ++ [consoleError "Error parsing JSON line:" SyntaxError]
     ++ flat_map emits after)%list
  /\ snd (run (before ++ after)%list)
     = (flat_map emits before ++ flat_map emits after)%list
  /\ fst (run (before ++ bad :: after)%list) = fst (run (before ++ after)%list)
  /\ fullResponse (fst (run (before ++ bad :: after)%list))
     = fr ++ chunkText (flat_map emits before) ++ chunkText (flat_map emits after)
  /\ buffer (fst (run (before ++ bad :: after)%list)) = EmptyString
  /\ forall responses responses',
       Forall2 carries before responses ->
       Forall2 carries after responses' ->
       snd (run (before ++ bad :: after)%list)
       = (map post responses
          ++ [consoleError "Error parsing JSON line:" SyntaxError]
          ++ map post responses')%list
       /\ deltas (snd (run (before ++ bad :: after)%list))
          = map post (responses ++ responses')
       /\ fullResponse (fst (run (before ++ bad :: after)%list))
          = fr ++ String.concat EmptyString (map snd responses)
               ++ String.concat EmptyString (map snd responses').
Proof.
  intros Hall Hne Hparse run emits post.
  assert (Hbefore : Forall (fun l => includes LF l = false) before)
    by (apply Forall_app in Hall; tauto).
  assert (Hafter : Forall (fun l => includes LF l = false) after)
    by (apply Forall_app in Hall as [_ Hall]; now inversion Hall).
  assert (Hboth : Forall (fun l => includes LF l = false) (before ++ after))
    by (apply Forall_app; now split).
  assert (Hbad : emits bad = [consoleError "Error parsing JSON line:" SyntaxError]).
  { unfold emits. now rewrite (processLine_malformed _ _ Hne Hparse). }
  destruct (line_by_line fr (before ++ bad :: after) EmptyString Hall eq_refl)
    as [E1 B1].
  destruct (line_by_line fr (before ++ after) EmptyString Hboth eq_refl)
    as [E2 B2].
  cbn zeta in E1, B1, E2, B2. rewrite !append_empty in E1, B1, E2, B2.
  fold (run (before ++ bad :: after)%list) in E1, B1.
  fold (run (before ++ after)%list) in E2, B2.
  fold emits in E1, E2.
  rewrite flat_map_app in E1, E2. cbn [flat_map] in E1. rewrite Hbad in E1.
  change ([consoleError "Error parsing JSON line:" SyntaxError] ++ flat_map emits after)%list
    with (consoleError "Error parsing JSON line:" SyntaxError :: flat_map emits after)
    in E1.
  assert (F1 : fullResponse (fst (run (before ++ bad :: after)%list))
               = fr ++ chunkText (flat_map emits before)
                    ++ chunkText (flat_map emits after)).
  { unfold run. rewrite processBuffer_response. fold (run (before ++ bad :: after)%list).
    rewrite E1, chunkText_app. reflexivity. }
  assert (F2 : fullResponse (fst (run (before ++ after)%list))
               = fr ++ chunkText (flat_map emits before)
                    ++ chunkText (flat_map emits after)).
  { unfold run. rewrite processBuffer_response. fold (run (before ++ after)%list).
    rewrite E2, chunkText_app. reflexivity. }
  split; [exact E1|]. split; [exact E2|].
  split.
  { destruct (run (before ++ bad :: after)%list) as [[fr1 b1] out1].
    destruct (run (before ++ after)%list) as [[fr2 b2] out2].
    cbn [fst snd fullResponse buffer] in *. congruence. }
  split; [exact F1|]. split; [exact B1|].
  intros responses responses' Hr Hr'.
  destruct (carried_lines before responses Hr) as [P1 T1].
  destruct (carried_lines after responses' Hr') as [P2 T2].
  fold emits in P1, P2. fold post in P1, P2, T1, T2.
  split; [|split].
  - rewrite E1, P1, P2. reflexivity.
  - rewrite E1, P1, P2, map_app, deltas_app. cbn [deltas filter isDelta app].
    fold (deltas (map post responses')).
    assert (D : forall rs, deltas (map post rs) = map post rs).
    { induction rs as [|r rs IH]; [reflexivity|].
      cbn [map deltas filter]. unfold post at 1. cbn [isDelta].
      fold (deltas (map post rs)). now rewrite IH. }
    now rewrite !D.
  - rewrite F1, P1, P2, T1, T2. reflexivity.
Qed.

End Loop.

Lemma malformed_line_is_skipped_witness :
  let run lines :=
    processBuffer (H := exampleHost)
      {| fullResponse := EmptyString; buffer := terminated lines |} in
  snd (run [responseLine "Hel"; "{oops"; responseLine "lo"])
  = [postMessage (streamChunk (JString "Hel"));
     consoleError "Error parsing JSON line:" SyntaxError;
     postMessage (streamChunk (JString "lo"))]
  /\ fullResponse (fst (run [responseLine "Hel"; "{oops"; responseLine "lo"]))
     = "Hello".
Proof.
  intros run.
  destruct (malformed_line_is_skipped (H := exampleHost) EmptyString
              [responseLine "Hel"] [responseLine "lo"] "{oops")
    as (_ & _ & _ & _ & _ & F).
  - repeat constructor.
  - discriminate.
  - reflexivity.
  - destruct (F [(JString "Hel", "Hel")] [(JString "lo", "lo")]) as (E & _ & R).
    + repeat constructor; [discriminate|]. eexists. repeat split; reflexivity.
    + repeat constructor; [discriminate|]. eexists. repeat split; reflexivity.
    + split; [exact E|exact R].
Defined.

End DecoderFacts.

(** ** Requests, history and cancellation *)

Module ProcessFacts.
Import JS JSFacts Extension.

(** *** Updating one call *)

Lemma nth_error_updateAt {A} i j (f : A -> A) (l : list A) :
  nth_error (updateAt i f l) j
  = if Nat.eqb i j then option_map f (nth_error l j) else nth_error l j.
Proof.
  revert i j. induction l as [|x l IH]; intros [|i] [|j]; cbn; auto;
    now destruct (Nat.eqb _ _).
Qed.

Lemma length_updateAt {A} i (f : A -> A) (l : list A) :
  List.length (updateAt i f l) = List.length l.
Proof. revert i. induction l; intros [|i]; cbn; auto. Qed.

Lemma map_updateAt {A B} (g : A -> B) i (f : A -> A) (f' : B -> B) (l : list A) :
  (forall x, g (f x) = f' (g x)) ->
  map g (updateAt i f l) = updateAt i f' (map g l).
Proof.
  intros Hg. revert i. induction l as [|x l IH]; intros [|i]; cbn;
    rewrite ?Hg, ?IH; auto.
Qed.

Lemma updateAt_id {A} i (l : list A) : updateAt i (fun x => x) l = l.
Proof. revert i. induction l as [|x l IH]; intros [|i]; cbn; rewrite ?IH; auto. Qed.

Lemma map_updateAt_same {A B} (g : A -> B) i (f : A -> A) (l : list A) :
  (forall x, g (f x) = g x) ->
  map g (updateAt i f l) = map g l.
Proof.
  intros Hg. rewrite (map_updateAt g i f (fun x => x)) by assumption.
  apply updateAt_id.
Qed.

(** *** The abort flags *)

Lemma flags_abort id w :
  map aborted (calls (abort id w)) = updateAt id (fun _ => true) (map aborted (calls w)).
Proof.
  unfold abort.
  destruct (nth_error (calls w) id) as [c|] eqn:Hc.
  - destruct (aborted c) eqn:Ha.
    + clear - Hc Ha. revert id Hc.
      induction (calls w) as [|x l IH]; intros [|i]; cbn; try discriminate.
      * intros [= ->]. now rewrite Ha.
      * intros Hc. now rewrite <- IH.
    + destruct (phase c); [destruct (selfHosted c)|..]; cbn;
        rewrite ?map_updateAt_same by reflexivity;
        now apply map_updateAt.
  - clear - Hc. revert id Hc.
    induction (calls w) as [|x l IH]; intros [|i]; cbn; try discriminate; auto.
    intros Hc. now rewrite <- IH.
Qed.

Lemma controller_abort id w :
  currentAbortController (abort id w) = currentAbortController w.
Proof.
  unfold abort. destruct (nth_error (calls w) id) as [c|]; [|reflexivity].
  destruct (aborted c); [reflexivity|].
  destruct (phase c); [now destruct (selfHosted c)|reflexivity..].
Qed.

Lemma history_abort id w :
  conversationHistory (abort id w) = conversationHistory w.
Proof.
  unfold abort. destruct (nth_error (calls w) id) as [c|]; [|reflexivity].
  destruct (aborted c); [reflexivity|].
  destruct (phase c); [now destruct (selfHosted c)|reflexivity..].
Qed.

Lemma length_calls_abort id w :
  List.length (calls (abort id w)) = List.length (calls w).
Proof.
  rewrite <- (length_map aborted), flags_abort, length_updateAt.
  apply length_map.
Qed.

Lemma flags_sendToDeepSeek config message w :
  map aborted (calls (sendToDeepSeek config message w))
  = (match currentAbortController w with
     | Some id => updateAt id (fun _ => true) (map aborted (calls w))
     | None => map aborted (calls w)
     end ++ [false])%list.
Proof.
  unfold sendToDeepSeek.
  destruct (MultiRoundConversationContext config) as [[|]|]; cbn;
    rewrite map_app; cbn; f_equal;
    destruct (currentAbortController w); auto using flags_abort.
Qed.

Lemma controller_sendToDeepSeek config message w :
  currentAbortController (sendToDeepSeek config message w)
  = Some (List.length (calls w)).
Proof.
  unfold sendToDeepSeek.
  destruct (MultiRoundConversationContext config) as [[|]|]; cbn;
    destruct (currentAbortController w); now rewrite ?length_calls_abort.
Qed.

Lemma flags_stopGeneratingResponse w :
  map aborted (calls (stopGeneratingResponse w))
  = match currentAbortController w with
    | Some id => updateAt id (fun _ => true) (map aborted (calls w))
    | None => map aborted (calls w)
    end.
Proof.
  unfold stopGeneratingResponse.
  destruct (currentAbortController w); [|reflexivity]. cbn. apply flags_abort.
Qed.

Lemma controller_stopGeneratingResponse w :
  currentAbortController (stopGeneratingResponse w) = None.
Proof.
  unfold stopGeneratingResponse.
  now destruct (currentAbortController w) eqn:E.
Qed.

Section Steps.
Context `{Host}.

(** The transport events leave the cancellation state alone. *)
Lemma transport_keeps_cancellation e w :
  match e with
  | SendToDeepSeek _ _ | StopGeneratingResponse | ResetConversation => True
  | _ => map aborted (calls (step e w)) = map aborted (calls w)
         /\ currentAbortController (step e w) = currentAbortController w
  end.
Proof.
  destruct e as [config message| | |id e|id|id chunk|id|id message];
    try exact I; cbn [step].
  - unfold onPostRejected.
    destruct (nth_error (calls w) id) as [c|]; [|now split].
    destruct (phase c); split; cbn; auto using map_updateAt_same.
  - unfold onResponse.
    destruct (nth_error (calls w) id) as [c|]; [|now split].
    destruct (phase c); [|now split..].
    destruct (selfHosted c); split; cbn; auto using map_updateAt_same.
  - unfold onData.
    destruct (nth_error (calls w) id) as [c|]; [|now split].
    destruct (phase c) as [| |state|]; [now split..| |now split].
    destruct (aborted c); [now split|].
    destruct (appendChunk chunk state). split; cbn;
      auto using map_updateAt_same.
  - unfold onEnd, finalizeStream.
    destruct (nth_error (calls w) id) as [c|]; [|now split].
    destruct (phase c) as [| |state|]; [now split..| |now split].
    destruct (aborted c); [now split|].
    destruct (useMultiRound c); split; cbn; auto using map_updateAt_same.
  - unfold onError.
    destruct (nth_error (calls w) id) as [c|]; [|now split].
    destruct (phase c); split; cbn; auto using map_updateAt_same.
Qed.

(** *** At most one live controller *)

Lemma live_flags w id :
  live w id <-> nth_error (map aborted (calls w)) id = Some false.
Proof.
  unfold live. rewrite nth_error_map.
  destruct (nth_error (calls w) id) as [c|]; cbn.
  - split; [intros (c' & [= <-] & ->); reflexivity|].
    intros [= Ha]. now exists c.
  - split; [intros (c' & Hc & _); discriminate|discriminate].
Qed.

Lemma aborting_the_stored_one (F : list bool) (k : option nat) i :
  (forall i, nth_error F i = Some false <-> k = Some i) ->
  nth_error match k with
            | Some id => updateAt id (fun _ => true) F
            | None => F
            end i <> Some false.
Proof.
  intros Hinv Hi. destruct k as [id|].
  - rewrite nth_error_updateAt in Hi.
    destruct (Nat.eqb_spec id i) as [->|Hne].
    + destruct (nth_error F i); discriminate.
    + apply Hinv in Hi. congruence.
  - apply Hinv in Hi. discriminate.
Qed.

Lemma storedIsLive_flags w :
  storedIsLive w
  <-> forall i, nth_error (map aborted (calls w)) i = Some false
                <-> currentAbortController w = Some i.
Proof.
  unfold storedIsLive. split; intros Hw i; specialize (Hw i);
    now rewrite live_flags in *.
Qed.

Lemma storedIsLive_stop w :
  storedIsLive w -> storedIsLive (stopGeneratingResponse w).
Proof.
  rewrite !storedIsLive_flags. intros Hw i.
  rewrite flags_stopGeneratingResponse, controller_stopGeneratingResponse.
  split; [intros Hi; now apply aborting_the_stored_one in Hi|discriminate].
Qed.

Lemma storedIsLive_step e w : storedIsLive w -> storedIsLive (step e w).
Proof.
  intros Hlive. pose proof Hlive as Hw. revert Hw.
  rewrite !storedIsLive_flags. intros Hw.
  pose proof (fun i => aborting_the_stored_one _ _ i Hw) as Hall.
  pose proof (transport_keeps_cancellation e w) as Ht.
  destruct e as [config message| | |id e|id|id chunk|id|id message];
    [ | | | destruct Ht as [HF Hk]; intros i; rewrite HF, Hk; apply Hw ..].
  - intros i. cbn [step].
    rewrite flags_sendToDeepSeek, controller_sendToDeepSeek.
    set (F1 := match currentAbortController w with
               | Some id => updateAt id (fun _ => true) (map aborted (calls w))
               | None => map aborted (calls w)
               end) in *.
    assert (HL : List.length F1 = List.length (calls w)).
    { unfold F1. destruct (currentAbortController w);
        now rewrite ?length_updateAt, length_map. }
    rewrite <- HL.
    destruct (Nat.lt_trichotomy i (List.length F1)) as [Hlt|[->|Hgt]].
    + rewrite nth_error_app1 by assumption.
      split; [intros Hi; now apply Hall in Hi|intros [= E]; lia].
    + rewrite nth_error_app2, Nat.sub_diag by lia. now split.
    + rewrite nth_error_app2 by lia.
      destruct (i - List.length F1) as [|[|n]] eqn:E; cbn; try lia;
        split; try discriminate; intros [= E']; lia.
  - apply storedIsLive_flags, storedIsLive_stop, Hlive.
  - apply storedIsLive_flags. cbn [step]. unfold resetConversation.
    apply storedIsLive_stop. exact Hlive.
Qed.

Lemma storedIsLive_run events w :
  storedIsLive w -> storedIsLive (run events w).
Proof.
  revert w. induction events as [|e events IH]; intros w Hw; [exact Hw|].
  apply IH, storedIsLive_step, Hw.
Qed.

Lemma storedIsLive_initial : storedIsLive initial.
Proof.
  intros id. unfold live. cbn.
  split; [intros (c & Hc & _); now destruct id|discriminate].
Qed.

(** C2: in every state the process can reach, the controllers that
    have not been aborted are exactly the stored one, so at most
    one live controller exists, and every operation keeps it so.
    [sendToDeepSeek] aborts the stored controller, then stores a
    fresh live one; [stopGeneratingResponse] aborts and clears the
    stored controller and does nothing when none is stored;
    [resetConversation] empties the history and then does what
    [stopGeneratingResponse] does. *)
Theorem at_most_one_live_controller :
  (forall events, storedIsLive (run events initial))
  /\ (forall w i j, storedIsLive w -> live w i -> live w j -> i = j)
  /\ (forall e w, storedIsLive w -> storedIsLive (step e w))
  /\ (forall config message w id c,
         currentAbortController w = Some id ->
         nth_error (calls w) id = Some c ->
         ~ live (sendToDeepSeek config message w) id)
  /\ (forall config message w,
         let w' := sendToDeepSeek config message w in
         currentAbortController w' = Some (List.length (calls w))
         /\ exists c, nth_error (calls w') (List.length (calls w)) = Some c
                      /\ aborted c = false /\ phase c = Posting
                      /\ promise c = Pending)
  /\ (forall w id,
         currentAbortController w = Some id ->
         stopGeneratingResponse w = withController None (abort id w)
         /\ ~ live (stopGeneratingResponse w) id
         /\ currentAbortController (stopGeneratingResponse w) = None)
  /\ (forall w,
         currentAbortController w = None -> stopGeneratingResponse w = w)
  /\ (forall w,
         resetConversation w = stopGeneratingResponse (withHistory [] w)
         /\ currentAbortController (resetConversation w) = None
         /\ map aborted (calls (resetConversation w))
            = map aborted (calls (stopGeneratingResponse w))).
Proof.
  split; [|split; [|split; [|split; [|split; [|split; [|split]]]]]].
  - intros events. apply storedIsLive_run, storedIsLive_initial.
  - intros w i j Hw Hi Hj. apply Hw in Hi, Hj. congruence.
  - apply storedIsLive_step.
  - intros config message w id c Hk Hc Hlive.
    apply live_flags in Hlive.
    rewrite flags_sendToDeepSeek, Hk in Hlive.
    assert (Hlt : id < List.length (calls w))
      by (apply nth_error_Some; congruence).
    rewrite nth_error_app1 in Hlive
      by now rewrite length_updateAt, length_map.
    rewrite nth_error_updateAt, Nat.eqb_refl, nth_error_map, Hc in Hlive.
    discriminate.
  - intros config message w w'. split; [apply controller_sendToDeepSeek|].
    unfold w', sendToDeepSeek.
    destruct (MultiRoundConversationContext config) as [[|]|];
      destruct (currentAbortController w) as [k|]; cbn;
      (eexists; split;
       [rewrite nth_error_app2, ?length_calls_abort, ?Nat.sub_diag;
        [reflexivity|rewrite ?length_calls_abort; lia]
       |now cbn]).
  - intros w id Hk. split; [|split].
    + unfold stopGeneratingResponse. now rewrite Hk.
    + intros Hlive. apply live_flags in Hlive.
      rewrite flags_stopGeneratingResponse, Hk, nth_error_updateAt,
        Nat.eqb_refl in Hlive.
      destruct (nth_error (map aborted (calls w)) id); discriminate.
    + apply controller_stopGeneratingResponse.
  - intros w Hk. unfold stopGeneratingResponse. now rewrite Hk.
  - intros w. split; [reflexivity|split].
    + apply controller_stopGeneratingResponse.
    + unfold resetConversation. now rewrite !flags_stopGeneratingResponse.
Qed.

End Steps.

Lemma at_most_one_live_controller_witness :
  let w := run (H := exampleHost)
             [SendToDeepSeek (selfHostedConfig true) "hi"; Response 0;
              SendToDeepSeek (selfHostedConfig true) "again"]
             initial in
  storedIsLive w /\ ~ live w 0 /\ live w 1.
Proof.
  intros w.
  pose proof (proj1 (at_most_one_live_controller (H := exampleHost))
                [SendToDeepSeek (selfHostedConfig true) "hi"; Response 0;
                 SendToDeepSeek (selfHostedConfig true) "again"]) as Hw.
  fold w in Hw. split; [exact Hw|].
  assert (H1 : live w 1) by (apply Hw; reflexivity).
  split; [|exact H1].
  intros H0.
  pose proof (proj1 (proj2 (at_most_one_live_controller (H := exampleHost)))
                w 0 1 Hw H0 H1).
  discriminate.
Defined.

End ProcessFacts.

(** ** After the abort signal *)

Module AbortFacts.
Import JS JSFacts Extension ProcessFacts.

Lemma effectsOf_emit id j out w :
  effectsOf id (emit j out w)
  = (effectsOf id w ++ if Nat.eqb j id then out else [])%list.
Proof.
  unfold effectsOf. cbn [emit trace]. rewrite filter_app, map_app. f_equal.
  destruct (Nat.eqb j id) eqn:E.
  - induction out as [|o out IH]; [reflexivity|].
    cbn. rewrite E. cbn. now rewrite IH.
  - induction out as [|o out IH]; [reflexivity|].
    cbn. now rewrite E.
Qed.

Lemma untouched_refl id w : untouched id w w.
Proof. now split. Qed.

Lemma untouched_trans id w1 w2 w3 :
  untouched id w1 w2 -> untouched id w2 w3 -> untouched id w1 w3.
Proof. intros [A1 B1] [A2 B2]. split; congruence. Qed.

Lemma untouched_emit id j out w w' :
  j <> id -> untouched id w w' -> untouched id w (emit j out w').
Proof.
  intros Hj [A B]. split; [exact A|].
  rewrite effectsOf_emit.
  destruct (Nat.eqb_spec j id); [contradiction|]. now rewrite app_nil_r.
Qed.

Lemma untouched_setCall id j f w w' :
  j <> id -> untouched id w w' -> untouched id w (setCall j f w').
Proof.
  intros Hj [A B]. split; [|exact B].
  cbn. rewrite nth_error_updateAt.
  destruct (Nat.eqb_spec j id); [contradiction|exact A].
Qed.

Lemma untouched_setCall_fixed id f c w w' :
  nth_error (calls w') id = Some c -> f c = c ->
  untouched id w w' -> untouched id w (setCall id f w').
Proof.
  intros Hc Hf [A B]. split; [|exact B].
  cbn. rewrite nth_error_updateAt, Nat.eqb_refl, Hc. cbn.
  now rewrite Hf, <- A.
Qed.

Lemma untouched_push id t w w' :
  untouched id w w' -> untouched id w (push t w').
Proof. now intros [A B]. Qed.

Lemma untouched_withController id k w w' :
  untouched id w w' -> untouched id w (withController k w').
Proof. now intros [A B]. Qed.

Lemma untouched_withHistory id h w w' :
  untouched id w w' -> untouched id w (withHistory h w').
Proof. now intros [A B]. Qed.

Lemma untouched_new_call id c w w' :
  id < List.length (calls w') ->
  untouched id w w' -> untouched id w (withCalls (calls w' ++ [c]) w').
Proof.
  intros Hid [A B]. split; [|exact B].
  cbn. now rewrite nth_error_app1.
Qed.

Lemma silenced_untouched id w w' :
  silenced id w -> untouched id w w' -> silenced id w'.
Proof.
  intros (c & Hc & Hrest) [A _]. exists c.
  split; [congruence|exact Hrest].
Qed.

Ltac frame :=
  repeat first
    [ apply untouched_refl
    | apply untouched_push
    | apply untouched_withController
    | apply untouched_withHistory
    | apply untouched_emit; [assumption|]
    | apply untouched_setCall; [assumption|] ].

Lemma abort_untouched id k w : silenced id w -> untouched id w (abort k w).
Proof.
  intros (c & Hc & Ha & _). unfold abort.
  destruct (Nat.eq_dec k id) as [->|Hk].
  - rewrite Hc, Ha. apply untouched_refl.
  - destruct (nth_error (calls w) k) as [ck|]; [|apply untouched_refl].
    destruct (aborted ck); [apply untouched_refl|].
    destruct (phase ck); [destruct (selfHosted ck)|..]; frame.
Qed.

Lemma reject_settled e p : p <> Pending -> reject e p = p.
Proof. destruct p; [contradiction|reflexivity..]. Qed.

Section Steps.
Context `{Host}.

(** Whatever happens next leaves a silenced call as it is. *)
Lemma step_untouched id e w : silenced id w -> untouched id w (step e w).
Proof.
  intros Hs. pose proof Hs as (c & Hc & Ha & Hph & Hp).
  assert (Hid : id < List.length (calls w))
    by (apply nth_error_Some; congruence).
  destruct e as [config message| | |j e|j|j chunk|j|j message]; cbn [step].
  - unfold sendToDeepSeek.
    set (w1 := match currentAbortController w with
               | Some k => abort k w
               | None => w
               end).
    assert (H1 : untouched id w w1).
    { unfold w1. destruct (currentAbortController w);
        [now apply abort_untouched|apply untouched_refl]. }
    assert (Hid1 : id < List.length (calls w1)).
    { unfold w1. destruct (currentAbortController w);
        now rewrite ?length_calls_abort. }
    destruct (MultiRoundConversationContext config) as [[|]|];
      apply untouched_new_call; cbn; try assumption;
      first [apply untouched_push; apply untouched_withController; exact H1
            |apply untouched_withController; exact H1].
  - unfold stopGeneratingResponse.
    destruct (currentAbortController w);
      [now apply untouched_withController, abort_untouched
      |apply untouched_refl].
  - unfold resetConversation, stopGeneratingResponse. cbn.
    destruct (currentAbortController w); [|now apply untouched_withHistory, untouched_refl].
    apply untouched_withController.
    apply (untouched_trans id w (withHistory [] w));
      [now apply untouched_withHistory, untouched_refl|].
    apply abort_untouched.
    apply (silenced_untouched id w); [exact Hs|].
    now apply untouched_withHistory, untouched_refl.
  - unfold onPostRejected. destruct (Nat.eq_dec j id) as [->|Hj].
    + rewrite Hc. destruct (phase c); [contradiction|apply untouched_refl..].
    + destruct (nth_error (calls w) j) as [cj|]; [|apply untouched_refl].
      destruct (phase cj); frame.
  - unfold onResponse. destruct (Nat.eq_dec j id) as [->|Hj].
    + rewrite Hc. destruct (phase c); [contradiction|apply untouched_refl..].
    + destruct (nth_error (calls w) j) as [cj|]; [|apply untouched_refl].
      destruct (phase cj); [|frame..].
      destruct (selfHosted cj); frame.
  - unfold onData. destruct (Nat.eq_dec j id) as [->|Hj].
    + rewrite Hc, Ha. destruct (phase c); apply untouched_refl.
    + destruct (nth_error (calls w) j) as [cj|]; [|apply untouched_refl].
      destruct (phase cj) as [| |st|]; [frame..| |frame].
      destruct (aborted cj); [frame|].
      destruct (appendChunk chunk st). frame.
  - unfold onEnd, finalizeStream. destruct (Nat.eq_dec j id) as [->|Hj].
    + rewrite Hc, Ha. destruct (phase c); apply untouched_refl.
    + destruct (nth_error (calls w) j) as [cj|]; [|apply untouched_refl].
      destruct (phase cj) as [| |st|]; [frame..| |frame].
      destruct (aborted cj); [frame|]. destruct (useMultiRound cj); frame.
  - unfold onError. destruct (Nat.eq_dec j id) as [->|Hj].
    + rewrite Hc. destruct (phase c) eqn:Hphase; try apply untouched_refl.
      apply (untouched_setCall_fixed id _ c); [exact Hc| |apply untouched_refl].
      unfold withPromise. rewrite (reject_settled _ _ Hp).
      destruct c; reflexivity.
    + destruct (nth_error (calls w) j) as [cj|]; [|apply untouched_refl].
      destruct (phase cj); frame.
Qed.

Lemma run_untouched id events w :
  silenced id w -> untouched id w (run events w).
Proof.
  revert w. induction events as [|e events IH]; intros w Hs;
    [apply untouched_refl|].
  cbn [run fold_left]. fold (run events (step e w)).
  pose proof (step_untouched id e w Hs) as Hstep.
  apply (untouched_trans id w (step e w)); [exact Hstep|].
  apply IH. now apply (silenced_untouched id w).
Qed.

(** The abort of a call that is streaming: the rejection by the
    [error] handler, then two [streamComplete] messages, one from
    each listener; the rejection by the second listener comes too
    late. *)
Lemma abort_silences id w c state :
  nth_error (calls w) id = Some c ->
  phase c = Streaming state ->
  aborted c = false ->
  silenced id (abort id w)
  /\ effectsOf id (abort id w)
     = (effectsOf id w ++ [postMessage streamComplete; postMessage streamComplete])%list
  /\ promiseOf id (abort id w) = Some (reject (Str "canceled") (promise c))
  /\ conversationHistory (abort id w) = conversationHistory w.
Proof.
  intros Hc Hph Ha.
  assert (Hc2 : nth_error (calls (abort id w)) id
                = Some (withPromise (reject (Error "Request aborted"))
                          (withPromise (reject (Str "canceled")) (withAborted c)))).
  { unfold abort. rewrite Hc, Ha, Hph. cbn.
    rewrite !nth_error_updateAt, Nat.eqb_refl, Hc. reflexivity. }
  assert (Hp : promiseOf id (abort id w) = Some (reject (Str "canceled") (promise c))).
  { unfold promiseOf. rewrite Hc2. cbn. now destruct (promise c). }
  split; [|split; [|split]].
  - eexists. split; [exact Hc2|]. cbn. rewrite Hph.
    split; [reflexivity|]. split; [discriminate|].
    now destruct (promise c).
  - unfold abort. rewrite Hc, Ha, Hph.
    change (effectsOf id (setCall id ?f ?w)) with (effectsOf id w).
    rewrite !effectsOf_emit, Nat.eqb_refl, <- app_assoc.
    change (effectsOf id (setCall id ?f ?w)) with (effectsOf id w).
    reflexivity.
  - exact Hp.
  - apply history_abort.
Qed.

(** The abort of a self-hosted call whose post is pending: the
    transport rejects the post, and nothing is posted. *)
Lemma abort_cancels_post id w c :
  nth_error (calls w) id = Some c ->
  phase c = Posting ->
  selfHosted c = true ->
  aborted c = false ->
  silenced id (abort id w)
  /\ effectsOf id (abort id w) = effectsOf id w
  /\ promiseOf id (abort id w)
     = Some (reject (AxiosError None "canceled") (promise c))
  /\ conversationHistory (abort id w) = conversationHistory w.
Proof.
  intros Hc Hph Hs Ha.
  assert (Hc2 : nth_error (calls (abort id w)) id
                = Some (withPromise (reject (AxiosError None "canceled"))
                          (withPhase PostFailed (withAborted c)))).
  { unfold abort. rewrite Hc, Ha, Hph, Hs. cbn.
    rewrite !nth_error_updateAt, Nat.eqb_refl, Hc. reflexivity. }
  split; [|split; [|split]].
  - eexists. split; [exact Hc2|]. cbn.
    split; [reflexivity|]. split; [discriminate|].
    now destruct (promise c).
  - unfold abort. rewrite Hc, Ha, Hph, Hs. reflexivity.
  - unfold promiseOf. now rewrite Hc2.
  - apply history_abort.
Qed.

(** C7, as the code has it.  Once the abort signal of a self-hosted
    request in flight is raised, the call is silent: whatever events
    follow, it posts nothing more, its chunk handler and its end
    handler change nothing, and a response that comes late is not
    listened to; so no delta is emitted and no assistant turn is
    appended for it.  Its outcome, though, is not the rejection with
    [Request aborted] that the second listener makes.  A call that
    streams is rejected first by its [error] handler, with the bare
    message [canceled] of the error the transport raises, and both
    listeners post [streamComplete], so the webview is notified
    twice; a call that still awaits its response is rejected by the
    transport with its cancellation error, and the webview is not
    notified at all. *)
Theorem abort_silences_stream id w c events chunk :
  nth_error (calls w) id = Some c ->
  selfHosted c = true ->
  phase c = Posting \/ (exists state, phase c = Streaming state) ->
  aborted c = false ->
  promise c = Pending ->
  let w1 := abort id w in
  let w2 := run events w1 in
  let notified :=
    match phase c with
    | Streaming _ => [postMessage streamComplete; postMessage streamComplete]
    | _ => []
    end in
  let outcome :=
    match phase c with
    | Streaming _ => Str "canceled"
    | _ => AxiosError None "canceled"
    end in
  effectsOf id w1 = (effectsOf id w ++ notified)%list
  /\ conversationHistory w1 = conversationHistory w
  /\ effectsOf id w2 = effectsOf id w1
  /\ promiseOf id w2 = Some (Rejected outcome)
  /\ outcome <> Error "Request aborted"
  /\ step (StreamData id chunk) w2 = w2
  /\ step (StreamEnd id) w2 = w2
  /\ step (Response id) w2 = w2.
Proof.
  intros Hc Hself Hph Ha Hp w1 w2 notified outcome.
  assert (Hs : silenced id w1
               /\ effectsOf id w1 = (effectsOf id w ++ notified)%list
               /\ promiseOf id w1 = Some (Rejected outcome)
               /\ conversationHistory w1 = conversationHistory w).
  { unfold w1, notified, outcome. destruct Hph as [Hph|[state Hph]]; rewrite Hph.
    - destruct (abort_cancels_post id w c Hc Hph Hself Ha) as (S1 & E1 & P1 & H1).
      rewrite Hp in P1. rewrite app_nil_r. tauto.
    - destruct (abort_silences id w c state Hc Hph Ha) as (S1 & E1 & P1 & H1).
      rewrite Hp in P1. tauto. }
  destruct Hs as (Hs & He & Hpr & Hh).
  pose proof (run_untouched id events w1 Hs) as Hu. fold w2 in Hu.
  pose proof (silenced_untouched id w1 w2 Hs Hu) as (c2 & Hc2 & Ha2 & Hph2 & Hp2).
  split; [exact He|]. split; [exact Hh|]. split; [apply Hu|].
  split.
  { unfold promiseOf in *. destruct Hu as [Hu _]. now rewrite Hu. }
  split.
  { unfold outcome. destruct (phase c); discriminate. }
  split; [|split]; cbn [step]; unfold onData, onEnd, onResponse;
    rewrite Hc2, ?Ha2; destruct (phase c2); try reflexivity; contradiction.
Qed.

End Steps.

Lemma abort_silences_stream_witness :
  let w := run (H := exampleHost)
             [SendToDeepSeek (selfHostedConfig true) "hi"; Response 0;
              StreamData 0 (responseLine "Hel" ++ LF)]
             initial in
  let w2 := run (H := exampleHost)
              [StreamData 0 (responseLine "lo" ++ LF); StreamEnd 0]
              (abort 0 w) in
  effectsOf 0 w2
  = [postMessage startResponse; postMessage (streamChunk (JString "Hel"));
     postMessage streamComplete; postMessage streamComplete]
  /\ promiseOf 0 w2 = Some (Rejected (Str "canceled"))
  /\ conversationHistory w2 = [{| role := "user"; content := "hi" |}].
Proof.
  intros w w2.
  destruct (abort_silences_stream (H := exampleHost) 0 w
              {| aborted := false; selfHosted := true; useMultiRound := true;
                 request := prepareRequest (selfHostedConfig true) "hi" true
                              [{| role := "user"; content := "hi" |}];
                 phase := Streaming {| fullResponse := "Hel"; buffer := EmptyString |};
                 promise := Pending |}
              [StreamData 0 (responseLine "lo" ++ LF); StreamEnd 0]
              EmptyString eq_refl eq_refl
              (or_intror (ex_intro _ {| fullResponse := "Hel"; buffer := EmptyString |}
                            eq_refl))
              eq_refl eq_refl)
    as (E1 & _ & E2 & P & _).
  fold w2 in E2, P.
  split; [rewrite E2, E1; reflexivity|]. split; [exact P|reflexivity].
Defined.

End AbortFacts.

(** ** The data handler of a streaming call *)

Module StreamFacts.
Import JS JSFacts Extension DecoderFacts ProcessFacts AbortFacts.

Lemma updateAt_fixed {A} i (f : A -> A) (l : list A) x :
  nth_error l i = Some x -> f x = x -> updateAt i f l = l.
Proof.
  revert i. induction l as [|y l IH]; intros [|i]; cbn; try discriminate.
  - intros [= ->] ->. reflexivity.
  - intros Hx Hf. now rewrite IH.
Qed.

Lemma updateAt_twice {A} i (f g h : A -> A) (l : list A) :
  (forall x, g (f x) = h x) -> updateAt i g (updateAt i f l) = updateAt i h l.
Proof.
  intros Hh. revert i. induction l as [|y l IH]; intros [|i]; cbn;
    rewrite ?Hh, ?IH; reflexivity.
Qed.

Section Steps.
Context `{Host}.

(** On a call that streams and has not been aborted, a run of [data]
    events is [feed]: the stream state moves as [feed] says and the
    call posts and logs what [feed] emits. *)
Lemma data_events_feed id chunks w c state :
  nth_error (calls w) id = Some c ->
  phase c = Streaming state ->
  aborted c = false ->
  run (map (StreamData id) chunks) w
  = emit id (snd (feed chunks state))
      (setCall id (withPhase (Streaming (fst (feed chunks state)))) w).
Proof.
  revert w c state. induction chunks as [|chunk rest IH];
    intros w c state Hc Hph Ha.
  - cbn. destruct w as [h k cs t]. unfold emit, setCall, withCalls. cbn in *.
    rewrite app_nil_r. f_equal.
    symmetry. apply (updateAt_fixed id _ cs c Hc).
    destruct c; cbn in *; now subst.
  - change (run (map (StreamData id) (chunk :: rest)) w)
      with (run (map (StreamData id) rest) (onData id chunk w)).
    unfold onData. rewrite Hc, Hph, Ha. cbn [feed].
    destruct (appendChunk chunk state) as [state1 out1].
    rewrite (IH _ (withPhase (Streaming state1) c) state1);
      [|cbn; now rewrite nth_error_updateAt, Nat.eqb_refl, Hc|reflexivity|exact Ha].
    destruct (feed rest state1) as [state2 out2]. cbn [fst snd].
    destruct w as [h k cs t]. unfold emit, setCall, withCalls. cbn.
    rewrite map_app, app_assoc. f_equal.
    now apply updateAt_twice.
Qed.

(** X25: the buffer makes the decoder independent of how the text
    arrives.  However a text is cut into chunks, feeding the texts of
    the chunks one by one through the buffer-and-parse loop ends in
    the same stream state, with the same accumulated response, and
    emits the same effects in the same order, hence the same delta
    fragments, as feeding the whole text as one chunk; what follows
    the last newline stays in the buffer, unparsed.  For a call that
    has just begun to stream, the [data] events with these texts
    leave the whole process in the state that the one [data] event
    with the whole text leaves it in.  (This is about the texts the
    chunks decode to; [BytesFacts] is about their bytes.) *)
Theorem chunking_does_not_matter (chunks : list string) :
  let text := join EmptyString chunks in
  feed chunks freshState = feed [text] freshState
  /\ deltas (snd (feed chunks freshState)) = deltas (snd (feed [text] freshState))
  /\ fullResponse (fst (feed chunks freshState))
     = fullResponse (fst (feed [text] freshState))
  /\ buffer (fst (feed chunks freshState)) = afterLastNewline text
  /\ includes LF (buffer (fst (feed chunks freshState))) = false
  /\ forall w id c,
       nth_error (calls w) id = Some c ->
       phase c = Streaming freshState ->
       aborted c = false ->
       run (map (StreamData id) chunks) w = run [StreamData id text] w.
Proof.
  intros text.
  destruct (feed_chunking chunks) as (E & D & F & B & L). fold text in E, D, F, B.
  repeat (split; [assumption|]).
  intros w id c Hc Hph Ha.
  rewrite (data_events_feed id chunks w c freshState Hc Hph Ha).
  change [StreamData id text] with (map (StreamData id) [text]).
  rewrite (data_events_feed id [text] w c freshState Hc Hph Ha).
  now rewrite E.
Qed.

End Steps.

Lemma chunking_does_not_matter_witness :
  let w := run (H := exampleHost)
             [SendToDeepSeek (selfHostedConfig true) "hi"; Response 0] initial in
  let line := responseLine "Hel" ++ LF in
  run (H := exampleHost)
    [StreamData 0 "{"; StreamData 0 (slice 1 line); StreamData 0 (responseLine "lo")] w
  = run (H := exampleHost) [StreamData 0 (line ++ responseLine "lo")] w.
Proof.
  intros w line.
  destruct (chunking_does_not_matter (H := exampleHost)
              ["{"; slice 1 line; responseLine "lo"])
    as (_ & _ & _ & _ & _ & E).
  apply (E w 0
           {| aborted := false; selfHosted := true; useMultiRound := true;
              request := prepareRequest (selfHostedConfig true) "hi" true
                           [{| role := "user"; content := "hi" |}];
              phase := Streaming freshState; promise := Pending |});
    reflexivity.
Defined.

End StreamFacts.

(** ** The bytes of a self-hosted stream *)

Module BytesFacts.
Import Bytes.

(** *** Decoding bytes *)

(** A buffer of ASCII bytes decodes to the same code units. *)
Lemma Buffer_toString_ascii (chunk : Buffer) :
  Forall (fun b => (Byte.to_N b <= 0x7F)%N) chunk ->
  Buffer_toString chunk = map Byte.to_N chunk.
Proof.
  unfold Buffer_toString. induction 1 as [|b rest Hb _ IH]; [reflexivity|].
  cbn [map decode]. unfold lead.
  apply N.leb_le in Hb. rewrite Hb. cbn [app]. now rewrite IH.
Qed.

Lemma concat_ascii (chunks : list Buffer) :
  Forall (fun b => (Byte.to_N b <= 0x7F)%N) (concat chunks) ->
  concat (map Buffer_toString chunks) = Buffer_toString (concat chunks).
Proof.
  induction chunks as [|chunk rest IH]; [reflexivity|].
  cbn [concat map]. intros Hall. apply Forall_app in Hall as [Hc Hr].
  rewrite (IH Hr), (Buffer_toString_ascii chunk Hc),
    (Buffer_toString_ascii (concat rest) Hr),
    (Buffer_toString_ascii (chunk ++ concat rest)%list) by (apply Forall_app; now split).
  now rewrite map_app.
Qed.

(** *** Cutting a buffer at its first newline *)

Lemma indexOf_lower_units c s : (-1 <= indexOf c s)%Z.
Proof.
  induction s as [|x s IH]; cbn [indexOf]; [lia|].
  destruct (x =? c)%N; [lia|].
  destruct (indexOf c s <? 0)%Z eqn:E; [lia|].
  apply Z.ltb_ge in E. lia.
Qed.

Lemma includes_cons_units c x s : includes c (x :: s) = (x =? c)%N || includes c s.
Proof.
  unfold includes. cbn [indexOf]. destruct (x =? c)%N; [reflexivity|].
  cbn [orb]. pose proof (indexOf_lower_units c s).
  destruct (indexOf c s <? 0)%Z eqn:E.
  - apply Z.ltb_lt in E. symmetry. apply Z.leb_gt. lia.
  - apply Z.ltb_ge in E. transitivity true; [|symmetry]; apply Z.leb_le; lia.
Qed.

Lemma includes_middle_units l r : includes LF (l ++ LF :: r)%list = true.
Proof.
  induction l as [|x l IH]; cbn [app]; rewrite includes_cons_units;
    [reflexivity|]. now rewrite IH, orb_true_r.
Qed.

Lemma cut_exists_units b :
  includes LF b = true ->
  exists l r, b = (l ++ LF :: r)%list /\ includes LF l = false.
Proof.
  induction b as [|x b IH]; [discriminate|].
  rewrite includes_cons_units.
  destruct (N.eqb_spec x LF) as [->|Hx]; cbn [orb].
  - intros _. now exists [], b.
  - intros Hb. destruct (IH Hb) as (l & r & -> & Hl).
    exists (x :: l), r. split; [reflexivity|].
    rewrite includes_cons_units, Hl.
    destruct (N.eqb_spec x LF); [contradiction|reflexivity].
Qed.

Lemma indexOf_cut_units l r :
  includes LF l = false ->
  indexOf LF (l ++ LF :: r)%list = Z.of_nat (List.length l).
Proof.
  induction l as [|x l IH]; [reflexivity|].
  rewrite includes_cons_units. intros Hl. apply orb_false_iff in Hl as [Hx Hl].
  cbn [app indexOf List.length]. rewrite Hx, (IH Hl).
  destruct (Z.of_nat (List.length l) <? 0)%Z eqn:E; [apply Z.ltb_lt in E|]; lia.
Qed.

Lemma substring_head_units l r :
  substring 0 (Z.of_nat (List.length l)) (l ++ LF :: r)%list = l.
Proof.
  unfold substring, clamp. rewrite Nat2Z.id, length_app. cbn [Z.to_nat].
  rewrite Nat.min_0_l, (Nat.min_l (List.length l)) by lia.
  rewrite Nat.min_0_l, Nat.max_0_l, Nat.sub_0_r. cbn [skipn].
  rewrite firstn_app, Nat.sub_diag, firstn_all. cbn [firstn].
  apply app_nil_r.
Qed.

Lemma substring_tail_units l r :
  substring_from (Z.of_nat (List.length l) + 1) (l ++ LF :: r)%list = r.
Proof.
  unfold substring_from, substring, clamp. rewrite Nat2Z.id.
  replace (Z.to_nat (Z.of_nat (List.length l) + 1)) with (S (List.length l)) by lia.
  rewrite length_app. cbn [List.length].
  rewrite Nat.min_id, (Nat.min_l (S (List.length l))) by lia.
  rewrite Nat.min_l, Nat.max_r by lia.
  assert (E : skipn (S (List.length l)) (l ++ LF :: r)%list = r).
  { rewrite skipn_app, skipn_all2 by lia.
    replace (S (List.length l) - List.length l) with 1 by lia. reflexivity. }
  rewrite E. apply firstn_all2. lia.
Qed.

Lemma cut_ind_units (P : Text -> Prop) :
  (forall b, includes LF b = false -> P b) ->
  (forall l r, includes LF l = false -> P r -> P (l ++ LF :: r)%list) ->
  forall b, P b.
Proof.
  intros Hbase Hstep b.
  remember (List.length b) as n eqn:Hn.
  revert b Hn. induction n as [n IH] using lt_wf_ind. intros b ->.
  destruct (includes LF b) eqn:Hb; [|auto].
  destruct (cut_exists_units b Hb) as (l & r & -> & Hl).
  apply Hstep; [assumption|].
  apply (IH (List.length r)); [|reflexivity].
  rewrite length_app. cbn [List.length]. lia.
Qed.

(** *** The loop of [processBuffer] *)

Section Loop.
Context `{Host}.

Lemma processLine_shape_units line fr :
  exists fr' out,
    forall b, processLine line {| fullResponse := fr; buffer := b |}
              = ({| fullResponse := fr'; buffer := b |}, out).
Proof.
  unfold processLine.
  destruct (eqb line []); [now exists fr, []|].
  destruct (JSON_parse line) as [parsed|];
    [|do 2 eexists; intros b; reflexivity].
  destruct (getProp (text "response") (Some parsed)) as [[response|]|e];
    [|do 2 eexists; intros b; reflexivity..].
  destruct (truthy (Some response)); [|now exists fr, []].
  destruct (toString response) as [appended|e].
  - now exists (fr ++ appended)%list, [streamChunk response].
  - now exists fr, [consoleError e].
Qed.

Lemma processBuffer_body_cut_units fr l r :
  includes LF l = false ->
  processBuffer_body {| fullResponse := fr; buffer := (l ++ LF :: r)%list |}
  = processLine (trim l) {| fullResponse := fr; buffer := r |}.
Proof.
  intros Hl. unfold processBuffer_body. cbn [buffer fullResponse].
  now rewrite (indexOf_cut_units l r Hl), substring_head_units, substring_tail_units.
Qed.

Lemma processBuffer_loop_S_units fuel st :
  List.length (buffer st) <= fuel ->
  processBuffer_loop (S fuel) st = processBuffer_loop fuel st.
Proof.
  revert st. induction fuel as [|fuel IH]; intros [fr b] Hlen;
    cbn [buffer] in Hlen.
  - destruct b; [reflexivity|cbn in Hlen; lia].
  - cbn [processBuffer_loop buffer].
    destruct (includes LF b) eqn:Hb; [|reflexivity].
    destruct (cut_exists_units b Hb) as (l & r & -> & Hl).
    rewrite (processBuffer_body_cut_units fr l r Hl).
    destruct (processLine_shape_units (trim l) fr) as (fr' & out & ->).
    rewrite <- (IH {| fullResponse := fr'; buffer := r |}).
    + reflexivity.
    + cbn [buffer]. rewrite length_app in Hlen. cbn [List.length] in Hlen. lia.
Qed.

Lemma processBuffer_loop_enough_units k st :
  processBuffer_loop (List.length (buffer st) + k) st = processBuffer st.
Proof.
  induction k as [|k IH].
  - now rewrite Nat.add_0_r.
  - rewrite Nat.add_succ_r, processBuffer_loop_S_units by lia. exact IH.
Qed.

(** [processBuffer] obeys the equation of the [while] loop. *)
Lemma processBuffer_unfold_units st :
  processBuffer st
  = if includes LF (buffer st) then
      let (st1, out) := processBuffer_body st in
      let (st2, out') := processBuffer st1 in
      (st2, (out ++ out')%list)
    else (st, []).
Proof.
  destruct st as [fr b]. cbn [buffer].
  destruct (includes LF b) eqn:Hb.
  - destruct (cut_exists_units b Hb) as (l & r & -> & Hl).
    unfold processBuffer at 1. cbn [buffer].
    rewrite length_app. cbn [List.length].
    replace (List.length l + S (List.length r))
      with (S (List.length r + List.length l)) by lia.
    cbn [processBuffer_loop buffer]. rewrite includes_middle_units.
    rewrite (processBuffer_body_cut_units fr l r Hl).
    destruct (processLine_shape_units (trim l) fr) as (fr' & out & ->).
    pose proof (processBuffer_loop_enough_units (List.length l)
                  {| fullResponse := fr'; buffer := r |}) as E.
    cbn [buffer] in E. now rewrite E.
  - unfold processBuffer. cbn [buffer].
    destruct (List.length b); cbn [processBuffer_loop buffer];
      [reflexivity|now rewrite Hb].
Qed.

Lemma processBuffer_noLF_units fr b :
  includes LF b = false ->
  processBuffer {| fullResponse := fr; buffer := b |}
  = ({| fullResponse := fr; buffer := b |}, []).
Proof. intros Hb. rewrite processBuffer_unfold_units. cbn [buffer]. now rewrite Hb. Qed.

Lemma processBuffer_cut_units fr l r :
  includes LF l = false ->
  processBuffer {| fullResponse := fr; buffer := (l ++ LF :: r)%list |}
  = let (st1, out) := processLine (trim l) {| fullResponse := fr; buffer := r |} in
    let (st2, out') := processBuffer st1 in
    (st2, (out ++ out')%list).
Proof.
  intros Hl. rewrite processBuffer_unfold_units. cbn [buffer].
  now rewrite includes_middle_units, (processBuffer_body_cut_units fr l r Hl).
Qed.

(** No newline is left in the buffer. *)
Lemma processBuffer_clean fr b :
  includes LF (buffer (fst (processBuffer {| fullResponse := fr; buffer := b |})))
  = false.
Proof.
  revert fr. induction b as [b Hb|l r Hl IH] using cut_ind_units; intros fr.
  - now rewrite processBuffer_noLF_units.
  - rewrite (processBuffer_cut_units fr l r Hl).
    destruct (processLine_shape_units (trim l) fr) as (fr' & out & ->).
    specialize (IH fr').
    destruct (processBuffer {| fullResponse := fr'; buffer := r |}).
    exact IH.
Qed.

(** Decoding a text in two pieces is decoding it whole. *)
Lemma processBuffer_app_units fr (b c : Text) :
  processBuffer {| fullResponse := fr; buffer := (b ++ c)%list |}
  = let (st1, out) := processBuffer {| fullResponse := fr; buffer := b |} in
    let (st2, out') :=
      processBuffer {| fullResponse := fullResponse st1;
                       buffer := (buffer st1 ++ c)%list |} in
    (st2, (out ++ out')%list).
Proof.
  revert fr. induction b as [b Hb|l r Hl IH] using cut_ind_units; intros fr.
  - rewrite (processBuffer_noLF_units fr b Hb). cbn [fullResponse buffer].
    now destruct (processBuffer {| fullResponse := fr; buffer := (b ++ c)%list |}).
  - rewrite <- app_assoc. cbn [app].
    rewrite (processBuffer_cut_units fr l (r ++ c)%list Hl), (processBuffer_cut_units fr l r Hl).
    destruct (processLine_shape_units (trim l) fr) as (fr' & out & Hline).
    rewrite !Hline, (IH fr').
    destruct (processBuffer {| fullResponse := fr'; buffer := r |})
      as [st1 out1].
    destruct (processBuffer {| fullResponse := fullResponse st1;
                               buffer := (buffer st1 ++ c)%list |}) as [st2 out2].
    now rewrite app_assoc.
Qed.

(** The [data] events of the chunks do what the decoder does on the
    texts of the chunks joined. *)
Lemma feed_concat chunks st :
  includes LF (buffer st) = false ->
  feed chunks st
  = processBuffer {| fullResponse := fullResponse st;
                     buffer := (buffer st ++ concat (map Buffer_toString chunks))%list |}.
Proof.
  revert st. induction chunks as [|c rest IH]; intros [fr b] Hb;
    cbn [buffer] in Hb.
  - cbn [feed map concat fullResponse buffer].
    now rewrite app_nil_r, processBuffer_noLF_units.
  - cbn [feed map concat]. unfold onData. cbn [fullResponse buffer].
    rewrite app_assoc, (processBuffer_app_units fr (b ++ Buffer_toString c)%list).
    pose proof (processBuffer_clean fr (b ++ Buffer_toString c)%list) as Hbuf.
    destruct (processBuffer {| fullResponse := fr;
                               buffer := (b ++ Buffer_toString c)%list |})
      as [[fr1 b1] out1].
    cbn [fst buffer fullResponse] in Hbuf |- *.
    now rewrite (IH {| fullResponse := fr1; buffer := b1 |} Hbuf).
Qed.

(** X26: chunk boundaries matter through the decoding only.
    Whatever the buffers of a stream are, their [data] events do
    what the decoder does on the texts of the buffers, each decoded
    on its own, joined; so two ways of cutting a stream whose
    decoded texts join to the same text give the same state and the
    same effects.  This is so whenever no boundary falls inside a
    character: in particular, however a stream of ASCII bytes is
    cut, the outcome is that of the stream in one chunk. *)
Theorem chunking_matters_through_decoding_only :
  (forall chunks,
      feed chunks freshState
      = processBuffer {| fullResponse := [];
                         buffer := concat (map Buffer_toString chunks) |})
  /\ (forall chunks chunks',
         concat (map Buffer_toString chunks) = concat (map Buffer_toString chunks') ->
         feed chunks freshState = feed chunks' freshState)
  /\ (forall chunks,
         Forall (fun b => (Byte.to_N b <= 0x7F)%N) (concat chunks) ->
         feed chunks freshState = feed [concat chunks] freshState).
Proof.
  assert (A : forall chunks,
             feed chunks freshState
             = processBuffer {| fullResponse := [];
                                buffer := concat (map Buffer_toString chunks) |})
    by (intros chunks; now rewrite (feed_concat chunks freshState)).
  split; [exact A|]. split.
  - intros chunks chunks' E. now rewrite !A, E.
  - intros chunks Hall. rewrite !A. cbn [map concat].
    now rewrite app_nil_r, (concat_ascii chunks Hall).
Qed.

(** C1 does not hold of the code.  The [data] handler decodes each
    buffer on its own, so a chunk boundary inside a character that
    takes several bytes changes the text: each part of the character
    decodes to the replacement character U+FFFD.  Take the line
    [{"response":"..."}] whose response is the one character U+00E9,
    the two bytes C3 A9.  When the line arrives in one chunk the
    decoder posts the fragment U+00E9; when the chunk boundary falls
    between the two bytes it posts the fragment U+FFFD U+FFFD, and
    the accumulated response differs in the same way.  (The parser is
    asked about the line with U+00E9 in the first case and about the
    line with two U+FFFD in the second; both are well-formed.) *)
Theorem chunk_cut_inside_a_character :
  JSON_parse (responseText [0xE9]%N)
  = Some (JObject [(text "response", JString [0xE9]%N)]) ->
  JSON_parse (responseText [0xFFFD; 0xFFFD]%N)
  = Some (JObject [(text "response", JString [0xFFFD; 0xFFFD]%N)]) ->
  let whole := responseBytes [Byte.xc3; Byte.xa9] in
  let first := firstn 14 whole in
  let second := skipn 14 whole in
  (first ++ second)%list = whole
  /\ Buffer_toString whole = (responseText [0xE9]%N ++ [LF])%list
  /\ (Buffer_toString first ++ Buffer_toString second)%list
     = (responseText [0xFFFD; 0xFFFD]%N ++ [LF])%list
  /\ feed [whole] freshState
     = ({| fullResponse := [0xE9]%N; buffer := [] |},
        [streamChunk (JString [0xE9]%N)])
  /\ feed [first; second] freshState
     = ({| fullResponse := [0xFFFD; 0xFFFD]%N; buffer := [] |},
        [streamChunk (JString [0xFFFD; 0xFFFD]%N)])
  /\ fst (feed [first; second] freshState) <> fst (feed [whole] freshState).
Proof.
  intros Hone Htwo whole first second.
  assert (F1 : feed [whole] freshState
               = ({| fullResponse := [0xE9]%N; buffer := [] |},
                  [streamChunk (JString [0xE9]%N)])).
  { cbv -[JSON_parse]. cbv -[JSON_parse] in Hone. rewrite Hone. reflexivity. }
  assert (F2 : feed [first; second] freshState
               = ({| fullResponse := [0xFFFD; 0xFFFD]%N; buffer := [] |},
                  [streamChunk (JString [0xFFFD; 0xFFFD]%N)])).
  { cbv -[JSON_parse]. cbv -[JSON_parse] in Htwo. rewrite Htwo. reflexivity. }
  split; [reflexivity|]. split; [reflexivity|]. split; [reflexivity|].
  split; [exact F1|]. split; [exact F2|].
  rewrite F1, F2. discriminate.
Qed.

End Loop.

Lemma chunk_cut_inside_a_character_witness :
  let whole := responseBytes [Byte.xc3; Byte.xa9] in
  snd (feed (H := exampleHost) [whole] freshState)
  = [streamChunk (JString [0xE9]%N)]
  /\ snd (feed (H := exampleHost) [firstn 14 whole; skipn 14 whole] freshState)
     = [streamChunk (JString [0xFFFD; 0xFFFD]%N)].
Proof.
  intros whole.
  destruct (chunk_cut_inside_a_character (H := exampleHost) eq_refl eq_refl)
    as (_ & _ & _ & F1 & F2 & _).
  fold whole in F1, F2. rewrite F1, F2. split; reflexivity.
Defined.

End BytesFacts.

(** ** The cloud event-stream decoder *)

Module CloudFacts.
Import JS JSFacts Extension ProcessFacts AbortFacts.

Section Cloud.
Context `{Host}.





End Cloud.


End CloudFacts.

(** ** The request builder and the history *)

Module RequestFacts.
Import JS JSFacts Extension ProcessFacts.

Lemma prepareRequest_streams config message useMultiRound history :
  stream (data (prepareRequest config message useMultiRound history)) = true.
Proof.
  unfold prepareRequest.
  now destruct (String.eqb (orElse (accountType config) "self-hosted") "cloud").
Qed.

Lemma new_call config message w :
  let useMultiRound :=
    match MultiRoundConversationContext config with Some b => b | None => false end in
  let history :=
    if useMultiRound
    then (conversationHistory w ++ [{| role := "user"; content := message |}])%list
    else conversationHistory w in
  let w' := sendToDeepSeek config message w in
  conversationHistory w' = history
  /\ exists c, nth_error (calls w') (List.length (calls w)) = Some c
               /\ request c = prepareRequest config message useMultiRound history
               /\ phase c = Posting.
Proof.
  unfold sendToDeepSeek.
  destruct (MultiRoundConversationContext config) as [[|]|];
    destruct (currentAbortController w) as [k|]; cbn;
    rewrite ?history_abort;
    (split; [reflexivity|]);
    (eexists; split;
     [rewrite nth_error_app2, ?length_calls_abort, ?Nat.sub_diag;
      [reflexivity|rewrite ?length_calls_abort; lia]
     |now cbn; rewrite ?history_abort]).
Qed.

(** C4: a self-hosted request carries as its prompt the history
    rendered by [formatConversation] when multi-round is on, and the
    latest message alone when it is off; the history it renders in
    [sendToDeepSeek] is the current one, the new user turn included.
    The rendering labels each turn [User] or [Assistant] and joins
    the blocks with a blank line; on the two turns (user, hi),
    (assistant, hello) it gives the text of the design document. *)
Theorem selfHosted_prompt :
  (forall config message useMultiRound history,
      String.eqb (orElse (accountType config) "self-hosted") "cloud" = false ->
      prompt (data (prepareRequest config message useMultiRound history))
      = Some (if useMultiRound then formatConversation history else message))
  /\ (forall config message w,
         String.eqb (orElse (accountType config) "self-hosted") "cloud" = false ->
         exists c,
           nth_error (calls (sendToDeepSeek config message w)) (List.length (calls w))
           = Some c
           /\ prompt (data (request c))
              = Some match MultiRoundConversationContext config with
                     | Some true =>
                         formatConversation
                           (conversationHistory w
                            ++ [{| role := "user"; content := message |}])
                     | _ => message
                     end)
  /\ formatConversation [{| role := "user"; content := "hi" |};
                         {| role := "assistant"; content := "hello" |}]
     = "User: hi" ++ LF ++ LF ++ "Assistant: hello"
  /\ formatConversation [] = EmptyString
  /\ (forall t, formatConversation [t]
                = (if String.eqb (role t) "user" then "User" else "Assistant")
                  ++ ": " ++ content t)
  /\ (forall t t' rest,
         formatConversation (t :: t' :: rest)
         = ((if String.eqb (role t) "user" then "User" else "Assistant")
            ++ ": " ++ content t)
           ++ (LF ++ LF) ++ formatConversation (t' :: rest)).
Proof.
  assert (P : forall config message useMultiRound history,
             String.eqb (orElse (accountType config) "self-hosted") "cloud" = false ->
             prompt (data (prepareRequest config message useMultiRound history))
             = Some (if useMultiRound then formatConversation history else message)).
  { intros config message useMultiRound history Hself.
    unfold prepareRequest. now rewrite Hself. }
  split; [exact P|]. split; [|repeat split].
  intros config message w Hself.
  destruct (new_call config message w) as (_ & c & Hc & Hreq & _).
  exists c. split; [exact Hc|]. rewrite Hreq, (P _ _ _ _ Hself).
  now destruct (MultiRoundConversationContext config) as [[|]|].
Qed.

Lemma selfHosted_prompt_witness :
  prompt (data (prepareRequest (selfHostedConfig true) "how are you" true
                  [{| role := "user"; content := "hi" |};
                   {| role := "assistant"; content := "hello" |};
                   {| role := "user"; content := "how are you" |}]))
  = Some ("User: hi" ++ LF ++ LF ++ "Assistant: hello" ++ LF ++ LF
          ++ "User: how are you").
Proof.
  rewrite (proj1 selfHosted_prompt (selfHostedConfig true)) by reflexivity.
  reflexivity.
Defined.

Section Steps.
Context `{Host}.

(** Only a reset takes turns away. *)
Lemma history_step e w :
  e <> ResetConversation ->
  exists later, conversationHistory (step e w)
                = (conversationHistory w ++ later)%list.
Proof.
  intros He.
  destruct e as [config message| | |j e|j|j chunk|j|j message]; cbn [step];
    [| |contradiction| | | | |].
  - destruct (new_call config message w) as (Hh & _). rewrite Hh.
    destruct (MultiRoundConversationContext config) as [[|]|];
      [now eexists|exists []; now rewrite app_nil_r..].
  - exists []. rewrite app_nil_r. unfold stopGeneratingResponse.
    destruct (currentAbortController w); [apply history_abort|reflexivity].
  - exists []. rewrite app_nil_r. unfold onPostRejected.
    destruct (nth_error (calls w) j) as [c|]; [|reflexivity].
    now destruct (phase c).
  - exists []. rewrite app_nil_r. unfold onResponse.
    destruct (nth_error (calls w) j) as [c|]; [|reflexivity].
    destruct (phase c); try reflexivity. now destruct (selfHosted c).
  - exists []. rewrite app_nil_r. unfold onData.
    destruct (nth_error (calls w) j) as [c|]; [|reflexivity].
    destruct (phase c) as [| |st|]; try reflexivity.
    destruct (aborted c); [reflexivity|]. now destruct (appendChunk chunk st).
  - unfold onEnd, finalizeStream.
    destruct (nth_error (calls w) j) as [c|];
      [|exists []; now rewrite app_nil_r].
    destruct (phase c) as [| |st|];
      try (exists []; now rewrite app_nil_r).
    destruct (aborted c); [exists []; now rewrite app_nil_r|].
    destruct (useMultiRound c); [now eexists|exists []; now rewrite app_nil_r].
  - exists []. rewrite app_nil_r. unfold onError.
    destruct (nth_error (calls w) j) as [c|]; [|reflexivity].
    now destruct (phase c).
Qed.

Lemma history_run events w :
  Forall (fun e => e <> ResetConversation) events ->
  exists later, conversationHistory (run events w)
                = (conversationHistory w ++ later)%list.
Proof.
  intros Hall. revert w. induction Hall as [|e events He _ IH]; intros w.
  - exists []. now rewrite app_nil_r.
  - cbn [run fold_left]. fold (run events (step e w)).
    destruct (history_step e w He) as (l1 & E1).
    destruct (IH (step e w)) as (l2 & E2).
    exists (l1 ++ l2)%list. now rewrite E2, E1, app_assoc.
Qed.

(** C8, as the code has it.  With multi-round context enabled,
    [sendToDeepSeek] appends the user's turn before it builds the
    request, so the request is built from a history that ends with
    that turn (as messages on the cloud path, rendered into the
    prompt on the self-hosted path), and the turn stays stored
    through whatever follows short of a reset, a failing send
    included.  With multi-round context disabled, or not set, the
    call appends no turn: the history is left as it was and the
    request is built from it. *)
Theorem user_turn_is_stored_first config message w events :
  Forall (fun e => e <> ResetConversation) events ->
  let useMultiRound :=
    match MultiRoundConversationContext config with Some b => b | None => false end in
  let turn := {| role := "user"; content := message |} in
  let w1 := sendToDeepSeek config message w in
  (useMultiRound = true ->
   conversationHistory w1 = (conversationHistory w ++ [turn])%list
   /\ (exists c,
          nth_error (calls w1) (List.length (calls w)) = Some c
          /\ phase c = Posting
          /\ request c
             = prepareRequest config message true (conversationHistory w ++ [turn])
          /\ match data (request c) with
             | CloudData _ ms _ _ => ms = (conversationHistory w ++ [turn])%list
             | SelfHostedData _ p _ _ _ =>
                 p = formatConversation (conversationHistory w ++ [turn])
             end)
   /\ exists later,
        conversationHistory (run events w1)
        = (conversationHistory w ++ [turn] ++ later)%list)
  /\ (useMultiRound = false ->
      conversationHistory w1 = conversationHistory w
      /\ exists c,
           nth_error (calls w1) (List.length (calls w)) = Some c
           /\ phase c = Posting
           /\ request c
              = prepareRequest config message false (conversationHistory w)
           /\ match data (request c) with
              | CloudData _ ms _ _ => ms = conversationHistory w
              | SelfHostedData _ p _ _ _ => p = message
              end).
Proof.
  intros Hall useMultiRound turn w1.
  destruct (new_call config message w) as (Hh & c & Hc & Hreq & Hph).
  fold w1 in Hh, Hc. fold useMultiRound in Hh, Hreq.
  split; intros Hflag; rewrite Hflag in Hh, Hreq.
  - split; [exact Hh|]. split.
    + exists c. split; [exact Hc|]. split; [exact Hph|]. split; [exact Hreq|].
      rewrite Hreq. unfold prepareRequest.
      now destruct (String.eqb (orElse (accountType config) "self-hosted") "cloud").
    + destruct (history_run events w1 Hall) as (later & E).
      exists later. now rewrite E, Hh, <- app_assoc.
  - split; [exact Hh|].
    exists c. split; [exact Hc|]. split; [exact Hph|]. split; [exact Hreq|].
    rewrite Hreq. unfold prepareRequest.
    now destruct (String.eqb (orElse (accountType config) "self-hosted") "cloud").
Qed.

End Steps.

Lemma user_turn_is_stored_first_witness :
  let failure := PostRejected 0 (AxiosError None "connect ECONNREFUSED") in
  let w1 := sendToDeepSeek (selfHostedConfig true) "hi" initial in
  conversationHistory w1 = [{| role := "user"; content := "hi" |}]
  /\ exists later,
       conversationHistory (run (H := exampleHost) [failure] w1)
       = ([{| role := "user"; content := "hi" |}] ++ later)%list.
Proof.
  intros failure w1.
  destruct (user_turn_is_stored_first (H := exampleHost)
              (selfHostedConfig true) "hi" initial [failure])
    as (On & _).
  - repeat constructor. discriminate.
  - destruct (On eq_refl) as (A & _ & B). split; [exact A|exact B].
Defined.

(** C8 as the design document has it does not hold for every call:
    with multi-round context disabled the user's turn is not
    appended, and the prompt is the bare message. *)
Lemma user_turn_not_stored_when_flag_off :
  let w := sendToDeepSeek (selfHostedConfig false) "hi" initial in
  conversationHistory w = []
  /\ option_map (fun c => prompt (data (request c))) (nth_error (calls w) 0)
     = Some (Some "hi").
Proof. split; reflexivity. Qed.

(** C9 does not hold of the code.  [sendToDeepSeek] returns the
    promise of its handler without awaiting it, so a failure of the
    request never reaches its [catch] clause: the promise the caller
    holds is rejected with the raw error (the error of the post, or
    what an abort rejects with), [sendToDeepSeek] posts no [error]
    message, and the stored controller stays.  The [catch] clause,
    had it run, would have done what the design document says. *)
Theorem sendToDeepSeek_rejection_escapes :
  let unauthorized := AxiosError (Some 401%Z) "Request failed with status code 401" in
  let w1 := run (H := exampleHost)
              [SendToDeepSeek (selfHostedConfig true) "hi";
               PostRejected 0 unauthorized]
              initial in
  let w2 := run (H := exampleHost)
              [SendToDeepSeek (selfHostedConfig true) "hi"; Response 0;
               StopGeneratingResponse]
              initial in
  let w3 := run (H := exampleHost)
              [SendToDeepSeek (selfHostedConfig true) "hi";
               StopGeneratingResponse]
              initial in
  (promiseOf 0 w1 = Some (Rejected unauthorized)
   /\ effectsOf 0 w1 = []
   /\ currentAbortController w1 = Some 0)
  /\ (promiseOf 0 w2 = Some (Rejected (Str "canceled"))
      /\ effectsOf 0 w2
         = [postMessage startResponse; postMessage streamComplete;
            postMessage streamComplete])
  /\ (promiseOf 0 w3 = Some (Rejected (AxiosError None "canceled"))
      /\ effectsOf 0 w3 = [])
  /\ (let w := sendToDeepSeek_catch 0 unauthorized
                 (sendToDeepSeek (selfHostedConfig true) "hi" initial) in
      promiseOf 0 w = Some (Fulfilled "Authentication failed. Check your API key.")
      /\ effectsOf 0 w
         = [consoleError "API Error:" unauthorized;
            postMessage (error "Authentication failed. Check your API key.")]
      /\ currentAbortController w = None)
  /\ fst (handleError (AxiosError (Some 404%Z) "Request failed with status code 404"))
     = "Invalid API endpoint. Check your configuration."
  /\ fst (handleError (Error "Request aborted")) = "Generation stopped.".
Proof. vm_compute. repeat split. Qed.

End RequestFacts.


(** ** More on the reasoning split and on escaping *)

Module WebviewFacts.
Import JS JSFacts ChatView ChatViewFacts.

Lemma startsWith_extend p x y :
  startsWith p x = true -> startsWith p (x ++ y) = true.
Proof.
  revert x. induction p as [|a p IH]; intros x Hx; [reflexivity|].
  destruct x as [|b x]; [discriminate|].
  cbn [startsWith append] in Hx |- *.
  destruct (Ascii.eqb a b); [auto|discriminate].
Qed.

Lemma lazyUntil_none close s :
  lazyUntil close s = None -> includes close s = false.
Proof.
  induction s as [|c s IH]; cbn [lazyUntil].
  - destruct (startsWith close EmptyString) eqn:E; [discriminate|].
    intros _. unfold includes. cbn [indexOf]. now rewrite E.
  - destruct (startsWith close (String c s)) eqn:E; [discriminate|].
    destruct (lazyUntil close s) as [[cap rest]|]; [discriminate|].
    intros _. rewrite includes_cons, E. now apply IH.
Qed.

(** The lazy star stops at the first closing literal: none is left
    inside the capture. *)
Lemma lazyUntil_shortest a close' s cap rest :
  lazyUntil (String a close') s = Some (cap, rest) ->
  includes (String a close') cap = false.
Proof.
  revert cap rest. induction s as [|c s IH]; intros cap rest; cbn [lazyUntil].
  - cbn [startsWith]. discriminate.
  - destruct (startsWith (String a close') (String c s)) eqn:E.
    + intros [= <- _]. reflexivity.
    + destruct (lazyUntil (String a close') s) as [[cap' rest']|] eqn:El;
        [|discriminate].
      intros [= <- <-]. rewrite includes_cons, (IH _ _ eq_refl), orb_false_r.
      destruct (startsWith (String a close') (String c cap')) eqn:Ec;
        [|reflexivity].
      apply lazyUntil_sound in El. subst s.
      apply (startsWith_extend _ _ (String a close' ++ rest')) in Ec.
      cbn [append] in E, Ec. congruence.
Qed.

(** The matcher takes the leftmost match: no opening tag lies before it. *)
Lemma exec_leftmost text m :
  exec text = Some m -> includes openTag (before m) = false.
Proof.
  revert m. induction text as [|c text IH]; intros m; rewrite exec_unfold.
  - destruct (matchHere EmptyString) as [[cap rest]|]; [|discriminate].
    now intros [= <-].
  - destruct (matchHere (String c text)) as [[cap rest]|] eqn:Hm;
      [now intros [= <-]|].
    destruct (exec text) as [m'|] eqn:He; [|discriminate].
    intros [= <-]. cbn [before].
    rewrite includes_cons, (IH _ eq_refl), orb_false_r.
    destruct (startsWith openTag (String c (before m'))) eqn:Es; [|reflexivity].
    apply exec_sound in He.
    pose proof (startsWith_split _ _ Es) as Hsplit.
    assert (Et : String c text
                 = openTag ++ (slice (String.length openTag) (String c (before m'))
                               ++ openTag ++ group1 m') ++ closeTag ++ after m').
    { rewrite He at 1.
      change (String c (before m' ++ openTag ++ group1 m' ++ closeTag ++ after m'))
        with (String c (before m') ++ openTag ++ group1 m' ++ closeTag ++ after m').
      rewrite Hsplit at 1. now rewrite !append_assoc. }
    unfold matchHere in Hm. rewrite Et, startsWith_app, slice_app in Hm.
    apply lazyUntil_none in Hm. now rewrite includes_middle in Hm.
Qed.

Lemma exec_none text :
  exec text = None ->
  forall a b c, text <> a ++ openTag ++ b ++ closeTag ++ c.
Proof.
  intros He a. revert text He. induction a as [|x a IH]; intros text He b c ->.
  - rewrite exec_unfold in He.
    change (EmptyString ++ openTag ++ b ++ closeTag ++ c)
      with (openTag ++ b ++ closeTag ++ c) in He.
    unfold matchHere in He. rewrite startsWith_app, slice_app in He.
    destruct (lazyUntil closeTag (b ++ closeTag ++ c)) as [[cap rest]|] eqn:El;
      [discriminate|].
    apply lazyUntil_none in El. now rewrite includes_middle in El.
  - rewrite exec_unfold in He.
    change (String x a ++ openTag ++ b ++ closeTag ++ c)
      with (String x (a ++ openTag ++ b ++ closeTag ++ c)) in He.
    destruct (matchHere _) as [[cap rest]|]; [discriminate|].
    destruct (exec (a ++ openTag ++ b ++ closeTag ++ c)) as [m|] eqn:E;
      [discriminate|].
    now apply (IH _ E b c).
Qed.

(** X1: what [extractThinkContent] returns, in full.  Either the text
    holds no complete pair and comes back whole with empty reasoning;
    or the text is [before ++ <think> ++ reasoning ++ </think> ++ after],
    the main text is [before ++ after], no opening tag occurs in
    [before] (the pair is the leftmost) and no closing tag occurs in
    the reasoning (the pair closes at the first closing tag). *)
Theorem extractThinkContent_characterised text :
  (extractThinkContent text = {| mainText := text; thinkContent := EmptyString |}
   /\ forall a b c, text <> a ++ "<think>" ++ b ++ "</think>" ++ c)
  \/ (exists before after,
         text = before ++ "<think>" ++ thinkContent (extractThinkContent text)
                ++ "</think>" ++ after
         /\ mainText (extractThinkContent text) = before ++ after
         /\ includes "<think>" before = false
         /\ includes "</think>" (thinkContent (extractThinkContent text)) = false).
Proof.
  unfold extractThinkContent, replaceFirst.
  destruct (exec text) as [m|] eqn:He.
  - right. exists (before m), (after m). cbn [mainText thinkContent].
    split; [now apply exec_sound|]. split; [reflexivity|].
    split; [now apply (exec_leftmost text)|].
    clear - He. revert m He. induction text as [|c text IH]; intros m;
      rewrite exec_unfold.
    + unfold matchHere. cbn [startsWith openTag]. discriminate.
    + destruct (matchHere (String c text)) as [[cap rest]|] eqn:Hm.
      * intros [= <-]. cbn [group1]. unfold matchHere in Hm.
        destruct (startsWith openTag (String c text)); [|discriminate].
        now apply (lazyUntil_shortest "<"%char "/think>") in Hm.
      * destruct (exec text) as [m'|]; [|discriminate].
        intros [= <-]. cbn [group1]. now apply IH.
  - left. split; [reflexivity|]. now apply exec_none.
Qed.

(** *** [escapeHtml] *)

Lemma replaceAll_app c r a b :
  replaceAll c r (a ++ b) = replaceAll c r a ++ replaceAll c r b.
Proof.
  induction a as [|x a IH]; [reflexivity|].
  cbn [append replaceAll]. destruct (Ascii.eqb x c); rewrite IH;
    [now rewrite append_assoc|reflexivity].
Qed.

Lemma escapeHtml_app a b : escapeHtml (a ++ b) = escapeHtml a ++ escapeHtml b.
Proof. unfold escapeHtml. now rewrite !replaceAll_app. Qed.

Lemma escapeHtml_char x :
  escapeHtml (String x EmptyString)
  = if Ascii.eqb x "&" then "&amp;"
    else if Ascii.eqb x "<" then "&lt;"
    else if Ascii.eqb x ">" then "&gt;"
    else String x EmptyString.
Proof.
  unfold escapeHtml. cbn [replaceAll].
  destruct (Ascii.eqb x "&"); [reflexivity|]. cbn [replaceAll].
  destruct (Ascii.eqb x "<"); [reflexivity|]. cbn [replaceAll].
  now destruct (Ascii.eqb x ">").
Qed.

Lemma escapeHtml_cons x s :
  escapeHtml (String x s) = escapeHtml (String x EmptyString) ++ escapeHtml s.
Proof. exact (escapeHtml_app (String x EmptyString) s). Qed.

Lemma includes_char_app x a b :
  includes (String x EmptyString) (a ++ b)
  = includes (String x EmptyString) a || includes (String x EmptyString) b.
Proof.
  induction a as [|c a IH].
  - reflexivity.
  - cbn [append]. rewrite !includes_cons, IH. cbn [startsWith].
    now destruct (Ascii.eqb x c).
Qed.

(** X2: [escapeHtml] works character by character, whatever the order
    of its three passes suggests: it respects concatenation, turns
    the three special characters into their entities and keeps every
    other character; its result holds neither angle bracket. *)
Theorem escapeHtml_spec :
  escapeHtml EmptyString = EmptyString
  /\ (forall a b, escapeHtml (a ++ b) = escapeHtml a ++ escapeHtml b)
  /\ (forall x, escapeHtml (String x EmptyString)
                = if Ascii.eqb x "&" then "&amp;"
                  else if Ascii.eqb x "<" then "&lt;"
                  else if Ascii.eqb x ">" then "&gt;"
                  else String x EmptyString)
  /\ (forall s, includes "<" (escapeHtml s) = false
                /\ includes ">" (escapeHtml s) = false).
Proof.
  split; [reflexivity|]. split; [exact escapeHtml_app|].
  split; [exact escapeHtml_char|].
  induction s as [|x s [IH1 IH2]]; [now split|].
  rewrite escapeHtml_cons, !includes_char_app, IH1, IH2, !orb_false_r,
    escapeHtml_char.
  destruct (Ascii.eqb_spec x "&"); [now split|].
  destruct (Ascii.eqb_spec x "<"); [now split|].
  destruct (Ascii.eqb_spec x ">"); [now split|].
  rewrite !includes_cons. cbn [startsWith].
  split.
  - destruct (Ascii.eqb_spec "<" x); [congruence|reflexivity].
  - destruct (Ascii.eqb_spec ">" x); [congruence|reflexivity].
Qed.

(** X3: [escapeHtml] loses nothing: two texts with the same escaped
    form are the same text. *)
Theorem escapeHtml_injective a b : escapeHtml a = escapeHtml b -> a = b.
Proof.
  revert b. induction a as [|x a IH]; intros [|y b].
  - reflexivity.
  - rewrite (escapeHtml_cons y b), escapeHtml_char.
    destruct (Ascii.eqb y "&"); [discriminate|].
    destruct (Ascii.eqb y "<"); [discriminate|].
    destruct (Ascii.eqb y ">"); discriminate.
  - rewrite (escapeHtml_cons x a), escapeHtml_char.
    destruct (Ascii.eqb x "&"); [discriminate|].
    destruct (Ascii.eqb x "<"); [discriminate|].
    destruct (Ascii.eqb x ">"); discriminate.
  - rewrite (escapeHtml_cons x a), (escapeHtml_cons y b), !escapeHtml_char.
    destruct (Ascii.eqb_spec x "&") as [->|Hx1];
      [|destruct (Ascii.eqb_spec x "<") as [->|Hx2];
        [|destruct (Ascii.eqb_spec x ">") as [->|Hx3]]];
      (destruct (Ascii.eqb_spec y "&") as [->|Hy1];
       [|destruct (Ascii.eqb_spec y "<") as [->|Hy2];
         [|destruct (Ascii.eqb_spec y ">") as [->|Hy3]]]);
      cbn [append]; intros E; try discriminate E;
      try (injection E as E; f_equal; now apply IH);
      try (injection E as E1 E; congruence).
    injection E as -> E. f_equal. now apply IH.
Qed.

Lemma escapeHtml_injective_witness :
  "a<b" = "a<b".
Proof. apply escapeHtml_injective. reflexivity. Defined.

End WebviewFacts.


(** ** More on the self-hosted decoder *)

Module DecoderMore.
Import JS JSFacts Extension DecoderFacts.

Lemma trimEnd_white ws : allWhiteSpace ws = true -> trimEnd ws = EmptyString.
Proof.
  induction ws as [|c ws IH]; [reflexivity|]. cbn [allWhiteSpace trimEnd].
  intros Hc. apply andb_true_iff in Hc as [Hc Hws]. now rewrite (IH Hws), Hc.
Qed.

Lemma trimStart_white ws : allWhiteSpace ws = true -> trimStart ws = EmptyString.
Proof.
  induction ws as [|c ws IH]; [reflexivity|]. cbn [allWhiteSpace trimStart].
  intros Hc. apply andb_true_iff in Hc as [Hc Hws]. now rewrite Hc, (IH Hws).
Qed.

Lemma trimEnd_pad s ws : allWhiteSpace ws = true -> trimEnd (s ++ ws) = trimEnd s.
Proof.
  intros Hws. induction s as [|c s IH]; [now apply trimEnd_white|].
  cbn [append trimEnd]. now rewrite IH.
Qed.

Lemma trim_pad_right s ws : allWhiteSpace ws = true -> trim (s ++ ws) = trim s.
Proof.
  intros Hws. unfold trim. induction s as [|c s IH].
  - cbn [append]. now rewrite trimStart_white.
  - cbn [append trimStart]. destruct (isWhiteSpace c); [exact IH|].
    exact (trimEnd_pad (String c s) ws Hws).
Qed.

Lemma includes_LF_app a b :
  includes LF (a ++ b) = includes LF a || includes LF b.
Proof.
  induction a as [|c a IH]; [reflexivity|].
  cbn [append]. rewrite !includes_LF_cons, IH. now destruct (Ascii.eqb LFc c).
Qed.

Section Loop.
Context `{Host}.

(** X4: the response the decoder accumulates is, at every moment, the
    response it started from followed by the fragments it has posted,
    in order: the webview, which joins the chunks it receives, and
    the extension, which resolves with [fullResponse], hold the same
    text.  This holds for one pass of [processBuffer] and for a whole
    sequence of chunks. *)
Theorem response_is_what_was_posted :
  (forall st,
      fullResponse (fst (processBuffer st))
      = fullResponse st ++ chunkText (snd (processBuffer st)))
  /\ (forall chunks st,
         fullResponse (fst (feed chunks st))
         = fullResponse st ++ chunkText (snd (feed chunks st))).
Proof.
  split.
  - intros [fr b]. apply processBuffer_response.
  - induction chunks as [|chunk rest IH]; intros [fr b].
    + cbn. now rewrite append_empty.
    + cbn [feed]. unfold appendChunk. cbn [fullResponse buffer].
      pose proof (processBuffer_response fr (b ++ chunk)) as H1.
      destruct (processBuffer {| fullResponse := fr; buffer := b ++ chunk |})
        as [st1 out1].
      specialize (IH st1). destruct (feed rest st1) as [st2 out2].
      cbn [fst snd fullResponse] in *.
      now rewrite IH, H1, chunkText_app, append_assoc.
Qed.

(** X5: the decoder works line by line.  On a buffer made of complete
    lines followed by an unfinished tail, it emits for each line, in
    order, what that line emits on its own after trimming, and it
    leaves exactly the tail in the buffer, undecoded. *)
Theorem decoding_is_line_by_line fr (lines : list string) (tail : string) :
  Forall (fun l => includes LF l = false) lines ->
  includes LF tail = false ->
  let r := processBuffer {| fullResponse := fr;
                            buffer := terminated lines ++ tail |} in
  snd r = flat_map (fun l => snd (processLine (trim l) freshState)) lines
  /\ buffer (fst r) = tail.
Proof. exact (line_by_line fr lines tail). Qed.

(** X6: white space around a line does not matter.  Lines that end in
    a run of white space without a newline (a carriage return, say,
    from a server that ends its lines with CR LF) are decoded exactly
    as the bare lines: same effects, same final state. *)
Theorem trailing_white_space_is_ignored fr (lines : list string) (pad : string) :
  Forall (fun l => includes LF l = false) lines ->
  allWhiteSpace pad = true ->
  includes LF pad = false ->
  processBuffer {| fullResponse := fr;
                   buffer := terminated (map (fun l => l ++ pad) lines) |}
  = processBuffer {| fullResponse := fr; buffer := terminated lines |}.
Proof.
  intros Hall Hws Hpad. revert fr. induction Hall as [|l ls Hl _ IH]; intros fr.
  - reflexivity.
  - cbn [map].
    change (terminated ((l ++ pad) :: map (fun l0 => l0 ++ pad) ls))
      with ((l ++ pad) ++ LF ++ terminated (map (fun l0 => l0 ++ pad) ls)).
    change (terminated (l :: ls)) with (l ++ LF ++ terminated ls).
    rewrite processBuffer_cut by (now rewrite includes_LF_app, Hl, Hpad).
    rewrite (processBuffer_cut fr l _ Hl), (trim_pad_right l pad Hws).
    destruct (processLine_shape (trim l) fr) as (fr' & out & E).
    rewrite !E. now rewrite IH.
Qed.

End Loop.

Lemma decoding_is_line_by_line_witness :
  let r := processBuffer (H := exampleHost)
             {| fullResponse := EmptyString;
                buffer := terminated [responseLine "Hel"; EmptyString]
                          ++ responseLine "lo" |} in
  snd r = [postMessage (streamChunk (JString "Hel"))]
  /\ buffer (fst r) = responseLine "lo".
Proof.
  apply (decoding_is_line_by_line (H := exampleHost) EmptyString
           [responseLine "Hel"; EmptyString] (responseLine "lo")).
  - repeat constructor.
  - reflexivity.
Defined.

Lemma trailing_white_space_is_ignored_witness :
  let CR := String (ascii_of_nat 13) EmptyString in
  processBuffer (H := exampleHost)
    {| fullResponse := EmptyString;
       buffer := terminated [responseLine "Hel" ++ CR; responseLine "lo" ++ CR] |}
  = processBuffer (H := exampleHost)
      {| fullResponse := EmptyString;
         buffer := terminated [responseLine "Hel"; responseLine "lo"] |}.
Proof.
  intros CR.
  apply (trailing_white_space_is_ignored (H := exampleHost) EmptyString
           [responseLine "Hel"; responseLine "lo"] CR).
  - repeat constructor.
  - reflexivity.
  - reflexivity.
Defined.

End DecoderMore.


(** ** Whole exchanges *)

Module ExchangeFacts.
Import JS JSFacts Extension DecoderFacts ProcessFacts AbortFacts StreamFacts
       RequestFacts DecoderMore.

Lemma lookup_setCall id f w c :
  nth_error (calls w) id = Some c ->
  nth_error (calls (setCall id f w)) id = Some (f c).
Proof. intros Hc. cbn. now rewrite nth_error_updateAt, Nat.eqb_refl, Hc. Qed.

Lemma effectsOf_abort_other id k w :
  k <> id -> effectsOf id (abort k w) = effectsOf id w.
Proof.
  intros Hk. unfold abort.
  destruct (nth_error (calls w) k) as [c|]; [|reflexivity].
  destruct (aborted c); [reflexivity|].
  destruct (phase c); [now destruct (selfHosted c)|reflexivity| |reflexivity].
  change (effectsOf id (setCall k ?f ?w)) with (effectsOf id w).
  rewrite !effectsOf_emit.
  destruct (Nat.eqb_spec k id); [contradiction|]. now rewrite !app_nil_r.
Qed.

Lemma abort_beyond id w :
  List.length (calls w) <= id -> abort id w = w.
Proof.
  intros Hid. unfold abort.
  destruct (nth_error (calls w) id) eqn:E; [|reflexivity].
  apply nth_error_None in Hid. congruence.
Qed.

(** The call that [sendToDeepSeek] has just made. *)
Lemma sent_call config message w :
  let id := List.length (calls w) in
  let flag :=
    match MultiRoundConversationContext config with Some b => b | None => false end in
  let history :=
    (conversationHistory w
     ++ if flag then [{| role := "user"; content := message |}] else [])%list in
  let w' := sendToDeepSeek config message w in
  nth_error (calls w') id
  = Some {| aborted := false;
            selfHosted :=
              String.eqb (orElse (accountType config) "self-hosted") "self-hosted"
              && stream (data (prepareRequest config message flag history));
            useMultiRound := flag;
            request := prepareRequest config message flag history;
            phase := Posting;
            promise := Pending |}
  /\ conversationHistory w' = history
  /\ currentAbortController w' = Some id
  /\ effectsOf id w' = effectsOf id w
  /\ List.length (calls w') = S id.
Proof.
  intros id flag history w'.
  assert (He : effectsOf id w' = effectsOf id w).
  { unfold w', sendToDeepSeek.
    destruct (MultiRoundConversationContext config) as [[|]|];
      destruct (currentAbortController w) as [k|] eqn:Hk; try reflexivity;
      change (effectsOf id (abort k w) = effectsOf id w);
      (destruct (Nat.lt_ge_cases k id) as [Hlt|Hge];
       [apply effectsOf_abort_other; lia
       |now rewrite (abort_beyond k w Hge)]). }
  split; [|split; [|split; [apply controller_sendToDeepSeek|split; [exact He|]]]].
  - unfold w', history, flag, id, sendToDeepSeek.
    destruct (MultiRoundConversationContext config) as [[|]|];
      destruct (currentAbortController w) as [k|]; cbn;
      rewrite ?history_abort, ?app_nil_r;
      rewrite nth_error_app2, ?length_calls_abort, ?Nat.sub_diag;
      try reflexivity; rewrite ?length_calls_abort; lia.
  - unfold w', history, flag, sendToDeepSeek.
    destruct (MultiRoundConversationContext config) as [[|]|];
      destruct (currentAbortController w) as [k|]; cbn;
      now rewrite ?history_abort, ?app_nil_r.
  - unfold w', id, sendToDeepSeek.
    destruct (MultiRoundConversationContext config) as [[|]|];
      destruct (currentAbortController w) as [k|]; cbn;
      rewrite List.length_app, ?length_calls_abort; cbn; lia.
Qed.

(** An unfinished last line adds nothing to what the decoder emits
    and accumulates. *)
Lemma tail_is_left fr lines tail :
  forall `{Host},
  Forall (fun l => includes LF l = false) lines ->
  includes LF tail = false ->
  processBuffer {| fullResponse := fr; buffer := terminated lines ++ tail |}
  = ({| fullResponse :=
          fullResponse
            (fst (processBuffer {| fullResponse := fr; buffer := terminated lines |}));
        buffer := tail |},
     snd (processBuffer {| fullResponse := fr; buffer := terminated lines |})).
Proof.
  intros H Hall Htail. rewrite processBuffer_app.
  pose proof (processBuffer_buffer fr (terminated lines)) as Hbuf.
  rewrite (afterLastNewline_terminated lines Hall) in Hbuf.
  destruct (processBuffer {| fullResponse := fr; buffer := terminated lines |})
    as [[fr1 b1] out1].
  cbn [fst snd buffer fullResponse] in *. subst b1. cbn [append].
  now rewrite (processBuffer_noLF fr1 tail Htail), app_nil_r.
Qed.

Section Steps.
Context `{Host}.

Lemma run_app a b w : run (a ++ b) w = run b (run a w).
Proof. unfold run. apply fold_left_app. Qed.

Lemma onEnd_live id w c state :
  nth_error (calls w) id = Some c ->
  phase c = Streaming state ->
  aborted c = false ->
  onEnd id w = finalizeStream id state (useMultiRound c) w.
Proof. intros Hc Hph Ha. unfold onEnd. now rewrite Hc, Hph, Ha. Qed.

(** A stream that runs from its first chunk to its end. *)
Lemma stream_to_end id chunks w c :
  nth_error (calls w) id = Some c ->
  phase c = Streaming freshState ->
  aborted c = false ->
  promise c = Pending ->
  let reply := fullResponse (fst (feed chunks freshState)) in
  let w' := run (map (StreamData id) chunks ++ [StreamEnd id]) w in
  promiseOf id w' = Some (Fulfilled reply)
  /\ effectsOf id w'
     = (effectsOf id w ++ snd (feed chunks freshState)
        ++ [postMessage streamComplete])%list
  /\ conversationHistory w'
     = (conversationHistory w
        ++ if useMultiRound c
           then [{| role := "assistant"; content := reply |}] else [])%list
  /\ currentAbortController w' = currentAbortController w
  /\ List.length (calls w') = List.length (calls w).
Proof.
  intros Hc Hph Ha Hp reply w'. unfold w'.
  rewrite run_app, (data_events_feed id chunks w c freshState Hc Hph Ha).
  set (st := fst (feed chunks freshState)) in *.
  set (out := snd (feed chunks freshState)).
  set (w1 := emit id out (setCall id (withPhase (Streaming st)) w)).
  assert (Hc1 : nth_error (calls w1) id = Some (withPhase (Streaming st) c))
    by (unfold w1; cbn; now rewrite nth_error_updateAt, Nat.eqb_refl, Hc).
  change (run [StreamEnd id] w1) with (onEnd id w1).
  rewrite (onEnd_live id w1 _ st Hc1 eq_refl Ha). unfold finalizeStream.
  cbn [useMultiRound withPhase].
  split; [|split; [|split; [|split]]].
  - unfold promiseOf.
    destruct (useMultiRound c); cbn;
      rewrite nth_error_updateAt, Nat.eqb_refl;
      (cbn in Hc1; rewrite Hc1); cbn; now rewrite Hp.
  - change (effectsOf id (setCall id ?f ?x)) with (effectsOf id x).
    rewrite effectsOf_emit, Nat.eqb_refl.
    destruct (useMultiRound c);
      [change (effectsOf id (push ?t w1)) with (effectsOf id w1)|];
      unfold w1; rewrite effectsOf_emit, Nat.eqb_refl;
      change (effectsOf id (setCall id ?f w)) with (effectsOf id w);
      now rewrite <- app_assoc.
  - destruct (useMultiRound c); cbn; [reflexivity|now rewrite app_nil_r].
  - now destruct (useMultiRound c).
  - destruct (useMultiRound c); cbn; now rewrite !length_updateAt.
Qed.

(** X7: a last line that never gets its newline is lost.  When the
    stream ends, the text still waiting in the buffer is not decoded:
    the call resolves with the same reply, has posted the same
    messages and stores the same history as if that text had never
    arrived. *)
Theorem unfinished_last_line_is_dropped id w c (lines : list string) (tail : string) :
  nth_error (calls w) id = Some c ->
  phase c = Streaming freshState ->
  aborted c = false ->
  promise c = Pending ->
  Forall (fun l => includes LF l = false) lines ->
  includes LF tail = false ->
  let w1 := run [StreamData id (terminated lines ++ tail); StreamEnd id] w in
  let w2 := run [StreamData id (terminated lines); StreamEnd id] w in
  promiseOf id w1 = promiseOf id w2
  /\ promiseOf id w1
     = Some (Fulfilled
               (chunkText
                  (flat_map (fun l => snd (processLine (trim l) freshState)) lines)))
  /\ trace w1 = trace w2
  /\ conversationHistory w1 = conversationHistory w2.
Proof.
  intros Hc Hph Ha Hp Hall Htail w1 w2.
  pose proof (stream_to_end id [terminated lines ++ tail] w c Hc Hph Ha Hp)
    as (P1 & E1 & H1 & _ & _).
  pose proof (stream_to_end id [terminated lines] w c Hc Hph Ha Hp)
    as (P2 & E2 & H2 & _ & _).
  cbn [map app] in P1, E1, H1, P2, E2, H2. fold w1 in P1, E1, H1.
  fold w2 in P2, E2, H2.
  assert (F : feed [terminated lines ++ tail] freshState
              = ({| fullResponse :=
                      fullResponse (fst (feed [terminated lines] freshState));
                    buffer := tail |},
                 snd (feed [terminated lines] freshState))).
  { cbn [feed]. unfold appendChunk, freshState. cbn [fullResponse buffer append].
    rewrite (tail_is_left EmptyString lines tail Hall Htail).
    destruct (processBuffer {| fullResponse := EmptyString;
                               buffer := terminated lines |}) as [st out].
    cbn. now rewrite !app_nil_r. }
  rewrite F in P1, E1, H1. cbn [fst snd fullResponse] in P1, E1, H1.
  split; [congruence|]. split.
  - rewrite P1. do 2 f_equal.
    cbn [feed]. unfold appendChunk, freshState. cbn [fullResponse buffer append].
    pose proof (processBuffer_response EmptyString (terminated lines)) as R.
    pose proof (line_by_line EmptyString lines EmptyString Hall eq_refl)
      as [L _].
    rewrite append_empty in L.
    destruct (processBuffer {| fullResponse := EmptyString;
                               buffer := terminated lines |}) as [st out].
    cbn [fst snd fullResponse] in *. rewrite R, L. reflexivity.
  - split; [|congruence].
    unfold w1, w2.
    change (run [StreamData id ?x; StreamEnd id] w)
      with (run (map (StreamData id) [x] ++ [StreamEnd id]) w).
    rewrite !run_app, !(data_events_feed id _ w c freshState Hc Hph Ha), F.
    cbn [fst snd].
    set (out := snd (feed [terminated lines] freshState)).
    set (fr := fullResponse (fst (feed [terminated lines] freshState))).
    destruct (feed [terminated lines] freshState) as [[fr' b'] out'] eqn:Ef.
    cbn [fst snd fullResponse] in *. subst out fr.
    change (run [StreamEnd id] ?x) with (onEnd id x).
    unfold onEnd. cbn.
    rewrite !nth_error_updateAt, Nat.eqb_refl, Hc. cbn. rewrite Ha.
    unfold finalizeStream. now destruct (useMultiRound c).
Qed.

Lemma onResponse_selfHosted id w c :
  nth_error (calls w) id = Some c ->
  phase c = Posting ->
  selfHosted c = true ->
  onResponse id w
  = emit id [postMessage startResponse]
      (setCall id (withPhase (Streaming freshState)) w).
Proof. intros Hc Hph Hs. unfold onResponse. now rewrite Hc, Hph, Hs. Qed.

(** From the call to the resolved promise. *)
Lemma exchange config message chunks w :
  String.eqb (orElse (accountType config) "self-hosted") "self-hosted" = true ->
  let id := List.length (calls w) in
  let flag :=
    match MultiRoundConversationContext config with Some b => b | None => false end in
  let reply := fullResponse (fst (feed chunks freshState)) in
  let w' := run (SendToDeepSeek config message :: Response id
                 :: map (StreamData id) chunks ++ [StreamEnd id]) w in
  promiseOf id w' = Some (Fulfilled reply)
  /\ effectsOf id w'
     = (effectsOf id w ++ [postMessage startResponse]
        ++ snd (feed chunks freshState) ++ [postMessage streamComplete])%list
  /\ conversationHistory w'
     = (conversationHistory w
        ++ if flag
           then [{| role := "user"; content := message |};
                 {| role := "assistant"; content := reply |}]
           else [])%list
  /\ currentAbortController w' = Some id
  /\ List.length (calls w') = S id.
Proof.
  intros Hself id flag reply w'.
  destruct (sent_call config message w) as (Hc & Hh & Hk & He & Hl).
  fold id flag in Hc, Hh, Hk, He, Hl.
  rewrite Hself, prepareRequest_streams in Hc. cbn [andb] in Hc.
  set (w1 := sendToDeepSeek config message w) in *.
  set (w2 := onResponse id w1).
  assert (E2 : w2 = emit id [postMessage startResponse]
                      (setCall id (withPhase (Streaming freshState)) w1))
    by (apply (onResponse_selfHosted id w1 _ Hc); reflexivity).
  assert (Hc2 : nth_error (calls w2) id
                = Some (withPhase (Streaming freshState)
                          {| aborted := false; selfHosted := true;
                             useMultiRound := flag;
                             request := prepareRequest config message flag
                                          (conversationHistory w
                                           ++ if flag
                                              then [{| role := "user";
                                                       content := message |}]
                                              else []);
                             phase := Posting; promise := Pending |}))
    by (rewrite E2; exact (lookup_setCall id _ w1 _ Hc)).
  change w' with (run (map (StreamData id) chunks ++ [StreamEnd id]) w2).
  destruct (stream_to_end id chunks w2 _ Hc2 eq_refl eq_refl eq_refl)
    as (P & E & Hist & K & L).
  split; [exact P|]. split; [|split; [|split]].
  - rewrite E, E2, effectsOf_emit, Nat.eqb_refl.
    change (effectsOf id (setCall id ?f w1)) with (effectsOf id w1).
    now rewrite He, <- app_assoc.
  - rewrite Hist. cbn [useMultiRound withPhase].
    replace (conversationHistory w2) with (conversationHistory w1)
      by now rewrite E2.
    rewrite Hh. destruct flag; now rewrite <- app_assoc.
  - rewrite K. replace (currentAbortController w2)
      with (currentAbortController w1) by now rewrite E2.
    exact Hk.
  - rewrite L, E2. cbn. now rewrite length_updateAt.
Qed.

(** X8: a self-hosted request that runs undisturbed.  From the call
    of [sendToDeepSeek] through the response, the chunks and the end
    of the stream, the call posts [startResponse], then what the
    decoder emits for the chunks, then [streamComplete]; its promise
    is fulfilled with the decoded reply; with multi-round context the
    history gains the user's turn and the assistant's reply, in that
    order, and without it the history stays as it was.  The
    controller of the finished call is still stored. *)
Theorem undisturbed_exchange config message chunks w :
  String.eqb (orElse (accountType config) "self-hosted") "self-hosted" = true ->
  let id := List.length (calls w) in
  let flag :=
    match MultiRoundConversationContext config with Some b => b | None => false end in
  let reply := fullResponse (fst (feed chunks freshState)) in
  let w' := run (SendToDeepSeek config message :: Response id
                 :: map (StreamData id) chunks ++ [StreamEnd id]) w in
  promiseOf id w' = Some (Fulfilled reply)
  /\ effectsOf id w'
     = (effectsOf id w ++ [postMessage startResponse]
        ++ snd (feed chunks freshState) ++ [postMessage streamComplete])%list
  /\ conversationHistory w'
     = (conversationHistory w
        ++ if flag
           then [{| role := "user"; content := message |};
                 {| role := "assistant"; content := reply |}]
           else [])%list
  /\ currentAbortController w' = Some id
  /\ List.length (calls w') = S id.
Proof. exact (exchange config message chunks w). Qed.

(** X9: the second prompt of a conversation.  After an undisturbed
    self-hosted exchange with multi-round context, the next request
    carries as its prompt the rendering of the earlier history, the
    first message, the reply to it and the new message. *)
Theorem second_prompt config message chunks message2 w :
  String.eqb (orElse (accountType config) "self-hosted") "self-hosted" = true ->
  MultiRoundConversationContext config = Some true ->
  let id := List.length (calls w) in
  let reply := fullResponse (fst (feed chunks freshState)) in
  let w' := run (SendToDeepSeek config message :: Response id
                 :: map (StreamData id) chunks ++ [StreamEnd id]
                 ++ [SendToDeepSeek config message2]) w in
  exists c,
    nth_error (calls w') (S id) = Some c
    /\ prompt (data (request c))
       = Some (formatConversation
                 (conversationHistory w
                  ++ [{| role := "user"; content := message |};
                      {| role := "assistant"; content := reply |};
                      {| role := "user"; content := message2 |}])).
Proof.
  intros Hself Hflag id reply w'.
  set (w1 := run (SendToDeepSeek config message :: Response id
                  :: map (StreamData id) chunks ++ [StreamEnd id]) w).
  assert (Ew : w' = sendToDeepSeek config message2 w1).
  { unfold w', w1.
    change (SendToDeepSeek config message :: Response id
            :: map (StreamData id) chunks ++ [StreamEnd id]
            ++ [SendToDeepSeek config message2])
      with ([SendToDeepSeek config message; Response id]
            ++ map (StreamData id) chunks ++ [StreamEnd id]
            ++ [SendToDeepSeek config message2])%list.
    change (SendToDeepSeek config message :: Response id
            :: map (StreamData id) chunks ++ [StreamEnd id])
      with ([SendToDeepSeek config message; Response id]
            ++ map (StreamData id) chunks ++ [StreamEnd id])%list.
    now rewrite !run_app. }
  destruct (exchange config message chunks w Hself) as (_ & _ & Hh & _ & Hlen).
  fold id reply w1 in Hh, Hlen. rewrite Hflag in Hh.
  destruct (sent_call config message2 w1) as (Hc & _).
  rewrite Hlen, Hflag in Hc. rewrite Ew.
  eexists. split; [exact Hc|]. cbn [request].
  unfold prepareRequest.
  destruct (String.eqb_spec (orElse (accountType config) "self-hosted") "cloud")
    as [Ecl|_].
  - rewrite Ecl in Hself. discriminate.
  - cbn [data prompt]. now rewrite Hh, <- app_assoc.
Qed.

End Steps.

Lemma unfinished_last_line_is_dropped_witness :
  let w := run (H := exampleHost)
             [SendToDeepSeek (selfHostedConfig true) "hi"; Response 0] initial in
  promiseOf 0
    (run (H := exampleHost)
       [StreamData 0 (terminated [responseLine "Hel"] ++ responseLine "lo");
        StreamEnd 0] w)
  = Some (Fulfilled "Hel").
Proof.
  intros w.
  epose proof (unfinished_last_line_is_dropped (H := exampleHost)
                 0 w _ [responseLine "Hel"] (responseLine "lo")) as X.
  specialize (X eq_refl eq_refl eq_refl eq_refl).
  destruct X as (_ & P & _).
  - repeat constructor.
  - reflexivity.
  - exact P.
Defined.

Lemma undisturbed_exchange_witness :
  let w' := run (H := exampleHost)
              (SendToDeepSeek (selfHostedConfig true) "hi" :: Response 0
               :: map (StreamData 0) [responseLine "Hel" ++ LF; responseLine "lo" ++ LF]
               ++ [StreamEnd 0])
              initial in
  promiseOf 0 w' = Some (Fulfilled "Hello")
  /\ conversationHistory w'
     = [{| role := "user"; content := "hi" |};
        {| role := "assistant"; content := "Hello" |}].
Proof.
  intros w'.
  destruct (undisturbed_exchange (H := exampleHost) (selfHostedConfig true) "hi"
              [responseLine "Hel" ++ LF; responseLine "lo" ++ LF] initial eq_refl)
    as (P & _ & Hh & _).
  split; [exact P|exact Hh].
Defined.

Lemma second_prompt_witness :
  exists c,
    nth_error
      (calls
         (run (H := exampleHost)
            (SendToDeepSeek (selfHostedConfig true) "hi" :: Response 0
             :: map (StreamData 0) [responseLine "Hel" ++ LF; responseLine "lo" ++ LF]
             ++ [StreamEnd 0]
             ++ [SendToDeepSeek (selfHostedConfig true) "how are you"])
            initial))
      1
    = Some c
    /\ prompt (data (request c))
       = Some ("User: hi" ++ LF ++ LF ++ "Assistant: Hello" ++ LF ++ LF
               ++ "User: how are you").
Proof.
  exact (second_prompt (H := exampleHost) (selfHostedConfig true) "hi"
           [responseLine "Hel" ++ LF; responseLine "lo" ++ LF] "how are you"
           initial eq_refl eq_refl).
Defined.

End ExchangeFacts.


(** ** Cancellation and reset, continued *)

Module LifecycleFacts.
Import JS JSFacts Extension DecoderFacts ProcessFacts AbortFacts StreamFacts
       RequestFacts ExchangeFacts.

Lemma Forall_updateAt {A} (P : A -> Prop) i f (l : list A) :
  Forall P l -> (forall x, P x -> P (f x)) -> Forall P (updateAt i f l).
Proof.
  intros Hl Hf. revert i. induction Hl as [|x l Hx Hl IH]; intros [|i]; cbn;
    constructor; auto.
Qed.

Lemma Forall_nth_error {A} (P : A -> Prop) (l : list A) i x :
  Forall P l -> nth_error l i = Some x -> P x.
Proof.
  intros Hl Hx. apply (proj1 (Forall_forall P l) Hl). eapply nth_error_In, Hx.
Qed.

(** Every property of the calls that aborting a call respects
    survives [abort]. *)
Lemma Forall_abort (P : Call -> Prop) k w :
  (forall c, P c -> P (withAborted c)) ->
  (forall c f, P c -> P (withPromise f c)) ->
  (forall c ph, P c -> P (withPhase ph c)) ->
  Forall P (calls w) -> Forall P (calls (abort k w)).
Proof.
  intros Ha Hp Hph Hw. unfold abort.
  destruct (nth_error (calls w) k) as [c|]; [|exact Hw].
  destruct (aborted c); [exact Hw|].
  destruct (phase c); [destruct (selfHosted c)|..]; cbn;
    repeat apply Forall_updateAt; auto.
Qed.

Section Steps.
Context `{Host}.

(** X10: at most one request in flight.  When [sendToDeepSeek] is
    called while the stored request is streaming, that request is
    aborted in the same step, before the new one exists: its [error]
    handler rejects it with the message [canceled] of the
    cancellation, it posts its two [streamComplete] messages, the
    new call has posted nothing yet, and whatever happens afterwards
    the old call posts nothing more and stays rejected. *)
Theorem new_request_aborts_the_streaming_one config message w a c state events :
  currentAbortController w = Some a ->
  nth_error (calls w) a = Some c ->
  phase c = Streaming state ->
  aborted c = false ->
  promise c = Pending ->
  let b := List.length (calls w) in
  let w' := sendToDeepSeek config message w in
  effectsOf a w'
  = (effectsOf a w ++ [postMessage streamComplete; postMessage streamComplete])%list
  /\ promiseOf a w' = Some (Rejected (Str "canceled"))
  /\ effectsOf b w' = effectsOf b w
  /\ currentAbortController w' = Some b
  /\ effectsOf a (run events w') = effectsOf a w'
  /\ promiseOf a (run events w') = Some (Rejected (Str "canceled")).
Proof.
  intros Hk Hc Hph Ha Hp b w'.
  destruct (abort_silences a w c state Hc Hph Ha) as (Hs & He & Hpr & _).
  rewrite Hp in Hpr. cbn [reject] in Hpr.
  assert (Hlt : a < List.length (calls (abort a w)))
    by (rewrite length_calls_abort; apply nth_error_Some; congruence).
  assert (Hu : untouched a (abort a w) w').
  { unfold w', sendToDeepSeek. rewrite Hk.
    destruct (MultiRoundConversationContext config) as [[|]|];
      apply untouched_new_call; cbn; try assumption;
      first [apply untouched_push; apply untouched_withController
            |apply untouched_withController]; apply untouched_refl. }
  pose proof (silenced_untouched a _ _ Hs Hu) as Hs'.
  pose proof (run_untouched a events w' Hs') as Hr.
  destruct (sent_call config message w) as (_ & _ & Kb & Eb & _).
  destruct Hu as [Un Ue]. destruct Hr as [Rn Re].
  assert (P1 : promiseOf a w' = Some (Rejected (Str "canceled")))
    by (unfold promiseOf in *; now rewrite Un).
  split; [now rewrite Ue|].
  split; [exact P1|].
  split; [exact Eb|]. split; [exact Kb|].
  split; [exact Re|].
  unfold promiseOf in *. now rewrite Rn.
Qed.

(** X11: the controller of a finished request stays stored, and its
    listeners stay registered.  Stopping, or sending the next
    message, after a stream has ended normally makes the finished
    call post two more [streamComplete] messages; its fulfilled
    promise is not touched. *)
Theorem finished_call_is_notified_again config message w id c state reply :
  currentAbortController w = Some id ->
  nth_error (calls w) id = Some c ->
  phase c = Streaming state ->
  aborted c = false ->
  promise c = Fulfilled reply ->
  (effectsOf id (stopGeneratingResponse w)
   = (effectsOf id w ++ [postMessage streamComplete; postMessage streamComplete])%list
   /\ promiseOf id (stopGeneratingResponse w) = Some (Fulfilled reply))
  /\ (effectsOf id (sendToDeepSeek config message w)
      = (effectsOf id w ++ [postMessage streamComplete; postMessage streamComplete])%list
      /\ promiseOf id (sendToDeepSeek config message w) = Some (Fulfilled reply)).
Proof.
  intros Hk Hc Hph Ha Hp.
  destruct (abort_silences id w c state Hc Hph Ha) as (_ & He & Hpr & _).
  rewrite Hp in Hpr. cbn [reject] in Hpr.
  split.
  - unfold stopGeneratingResponse. rewrite Hk. split; [exact He|exact Hpr].
  - assert (Hlt : id < List.length (calls (abort id w)))
      by (rewrite length_calls_abort; apply nth_error_Some; congruence).
    assert (Hu : untouched id (abort id w) (sendToDeepSeek config message w)).
    { unfold sendToDeepSeek. rewrite Hk.
      destruct (MultiRoundConversationContext config) as [[|]|];
        apply untouched_new_call; cbn; try assumption;
        first [apply untouched_push; apply untouched_withController
              |apply untouched_withController]; apply untouched_refl. }
    destruct Hu as [Hn Hf]. split; [now rewrite Hf|].
    unfold promiseOf in *. now rewrite Hn.
Qed.

(** After a reset every call is aborted and the history is empty;
    the transport, stops and further resets keep it so. *)
Lemma quiet_step e w :
  isSend e = false ->
  Forall (fun c => aborted c = true) (calls w) ->
  conversationHistory w = [] ->
  Forall (fun c => aborted c = true) (calls (step e w))
  /\ conversationHistory (step e w) = [].
Proof.
  intros He Hall Hh.
  set (P := fun c => aborted c = true) in *.
  assert (Hstop : forall v, Forall P (calls v) -> stopGeneratingResponse v
                            = withController None v).
  { intros v Hv. unfold stopGeneratingResponse.
    destruct (currentAbortController v) as [k|] eqn:Hk;
      [|destruct v; cbn in *; now subst].
    unfold abort. destruct (nth_error (calls v) k) as [c|] eqn:Hc; [|reflexivity].
    pose proof (Forall_nth_error P _ _ _ Hv Hc) as Ha. unfold P in Ha.
    now rewrite Ha. }
  destruct e as [config message| | |j e|j|j chunk|j|j message];
    try discriminate He; cbn [step].
  - rewrite (Hstop w Hall). now split.
  - unfold resetConversation. rewrite (Hstop (withHistory [] w) Hall). now split.
  - unfold onPostRejected.
    destruct (nth_error (calls w) j) as [c|] eqn:Hc; [|now split].
    destruct (phase c); try now split.
    split; [|exact Hh]. cbn. apply Forall_updateAt; [exact Hall|]. auto.
  - unfold onResponse.
    destruct (nth_error (calls w) j) as [c|] eqn:Hc; [|now split].
    destruct (phase c); try now split.
    destruct (selfHosted c); (split; [|exact Hh]); cbn;
      (apply Forall_updateAt; [exact Hall|]); auto.
  - unfold onData.
    destruct (nth_error (calls w) j) as [c|] eqn:Hc; [|now split].
    pose proof (Forall_nth_error P _ _ _ Hall Hc) as Ha. unfold P in Ha.
    destruct (phase c); try now split.
    now rewrite Ha.
  - unfold onEnd.
    destruct (nth_error (calls w) j) as [c|] eqn:Hc; [|now split].
    pose proof (Forall_nth_error P _ _ _ Hall Hc) as Ha. unfold P in Ha.
    destruct (phase c); try now split.
    now rewrite Ha.
  - unfold onError.
    destruct (nth_error (calls w) j) as [c|] eqn:Hc; [|now split].
    destruct (phase c); try now split.
    split; [|exact Hh]. cbn. apply Forall_updateAt; [exact Hall|]. auto.
Qed.

(** X12: reset really clears the conversation.  In a process that
    keeps the cancellation invariant, after [resetConversation] the
    history is empty and stays empty until the next message is sent:
    no late chunk, end or error of an earlier stream brings a reply
    back into it. *)
Theorem reset_clears_selfHosted_history w events :
  storedIsLive w ->
  Forall (fun e => isSend e = false) events ->
  conversationHistory (run events (resetConversation w)) = [].
Proof.
  intros Hlive Hev.
  set (P := fun c => aborted c = true).
  assert (H0 : Forall P (calls (resetConversation w))
               /\ conversationHistory (resetConversation w) = []).
  { split.
    - apply Forall_forall. intros c Hin.
      destruct (In_nth_error _ _ Hin) as (i & Hi).
      unfold P. destruct (aborted c) eqn:Ha; [reflexivity|].
      assert (Hl : live (resetConversation w) i) by (now exists c).
      assert (Hinv : storedIsLive (resetConversation w))
        by (unfold resetConversation; apply storedIsLive_stop; exact Hlive).
      apply Hinv in Hl.
      unfold resetConversation in Hl.
      rewrite controller_stopGeneratingResponse in Hl. discriminate.
    - unfold resetConversation, stopGeneratingResponse. cbn.
      destruct (currentAbortController w); [|reflexivity].
      cbn. now rewrite history_abort. }
  destruct H0 as [HP Hh]. revert HP Hh.
  generalize (resetConversation w) as v.
  induction Hev as [|e events He _ IH]; intros v HP Hh; [exact Hh|].
  change (run (e :: events) v) with (run events (step e v)).
  destruct (quiet_step e v He HP Hh) as [HP' Hh']. now apply IH.
Qed.

(** X13: stop and reset do not reach a cloud request.
    [handleCloudRequest] hands no signal to its post, so aborting the
    controller of a cloud call that awaits its response changes the
    flag and nothing else: the promise stays pending, nothing is
    posted, and the response, or the failure of the post, is handled
    afterwards as it would have been. *)
Theorem stop_does_not_reach_a_cloud_request w id c e :
  currentAbortController w = Some id ->
  nth_error (calls w) id = Some c ->
  selfHosted c = false ->
  phase c = Posting ->
  aborted c = false ->
  let w1 := stopGeneratingResponse w in
  promiseOf id w1 = Some (promise c)
  /\ effectsOf id w1 = effectsOf id w
  /\ promiseOf id (step (Response id) w1) = Some (reject TypeError (promise c))
  /\ promiseOf id (step (PostRejected id e) w1) = Some (reject e (promise c))
  /\ promiseOf id (step (PostRejected id e) w) = Some (reject e (promise c)).
Proof.
  intros Hk Hc Hs Hph Ha w1.
  assert (H1 : nth_error (calls w1) id = Some (withAborted c)).
  { unfold w1, stopGeneratingResponse. rewrite Hk. cbn.
    unfold abort. rewrite Hc, Ha, Hph, Hs. now apply lookup_setCall. }
  split; [unfold promiseOf; now rewrite H1|].
  split.
  { unfold w1, stopGeneratingResponse. rewrite Hk.
    unfold abort. rewrite Hc, Ha, Hph, Hs. reflexivity. }
  split; [|split]; cbn [step]; unfold onResponse, onPostRejected, promiseOf;
    rewrite ?H1, ?Hc; cbn; rewrite ?Hph, ?Hs; cbn;
    rewrite nth_error_updateAt, Nat.eqb_refl, ?H1, ?Hc; reflexivity.
Qed.

(** X14: without multi-round context nothing is remembered.  If every
    message of a session is sent with the flag off, the history is
    empty at every moment, whatever the transport does. *)
Theorem single_prompt_mode_keeps_no_history events :
  Forall (fun e => isMultiRoundSend e = false) events ->
  conversationHistory (run events initial) = [].
Proof.
  intros Hev.
  set (P := fun c : Call => useMultiRound c = false).
  assert (G : forall w, Forall P (calls w) -> conversationHistory w = [] ->
                        conversationHistory (run events w) = []).
  { induction Hev as [|e events He _ IH]; intros w HP Hh; [exact Hh|].
    change (run (e :: events) w) with (run events (step e w)).
    assert (Habort : forall k v, Forall P (calls v) -> Forall P (calls (abort k v)))
      by (intros k v; apply Forall_abort; auto).
    apply IH.
    - destruct e as [config message| | |j e|j|j chunk|j|j message]; cbn [step].
      + unfold sendToDeepSeek. cbn [isMultiRoundSend] in He.
        destruct (MultiRoundConversationContext config) as [[|]|];
          try discriminate He;
          destruct (currentAbortController w); cbn;
          apply Forall_app; split; auto; repeat constructor.
      + unfold stopGeneratingResponse.
        destruct (currentAbortController w); cbn; auto.
      + unfold resetConversation, stopGeneratingResponse. cbn.
        destruct (currentAbortController w) as [k|]; cbn; auto.
      + unfold onPostRejected.
        destruct (nth_error (calls w) j) as [c|]; [|exact HP].
        destruct (phase c); try exact HP. cbn. apply Forall_updateAt; auto.
      + unfold onResponse.
        destruct (nth_error (calls w) j) as [c|]; [|exact HP].
        destruct (phase c); try exact HP.
        destruct (selfHosted c); cbn; apply Forall_updateAt; auto.
      + unfold onData.
        destruct (nth_error (calls w) j) as [c|]; [|exact HP].
        destruct (phase c) as [| |st|]; try exact HP.
        destruct (aborted c); [exact HP|].
        destruct (appendChunk chunk st). cbn. apply Forall_updateAt; auto.
      + unfold onEnd, finalizeStream.
        destruct (nth_error (calls w) j) as [c|]; [|exact HP].
        destruct (phase c) as [| |st|]; try exact HP.
        destruct (aborted c); [exact HP|].
        destruct (useMultiRound c); cbn; apply Forall_updateAt; auto.
      + unfold onError.
        destruct (nth_error (calls w) j) as [c|]; [|exact HP].
        destruct (phase c); try exact HP; cbn; apply Forall_updateAt; auto.
    - destruct e as [config message| | |j e|j|j chunk|j|j message]; cbn [step].
      + destruct (sent_call config message w) as (_ & -> & _).
        cbn [isMultiRoundSend] in He. rewrite Hh.
        now destruct (MultiRoundConversationContext config) as [[|]|].
      + unfold stopGeneratingResponse.
        destruct (currentAbortController w); cbn; now rewrite ?history_abort.
      + unfold resetConversation, stopGeneratingResponse. cbn.
        destruct (currentAbortController w); cbn; now rewrite ?history_abort.
      + unfold onPostRejected.
        destruct (nth_error (calls w) j) as [c|]; [|exact Hh].
        now destruct (phase c).
      + unfold onResponse.
        destruct (nth_error (calls w) j) as [c|]; [|exact Hh].
        destruct (phase c); try exact Hh. now destruct (selfHosted c).
      + unfold onData.
        destruct (nth_error (calls w) j) as [c|]; [|exact Hh].
        destruct (phase c) as [| |st|]; try exact Hh.
        destruct (aborted c); [exact Hh|]. now destruct (appendChunk chunk st).
      + unfold onEnd, finalizeStream.
        destruct (nth_error (calls w) j) as [c|] eqn:Hc; [|exact Hh].
        pose proof (Forall_nth_error P _ _ _ HP Hc) as Hm. unfold P in Hm.
        destruct (phase c) as [| |st|]; try exact Hh.
        destruct (aborted c); [exact Hh|]. now rewrite Hm.
      + unfold onError.
        destruct (nth_error (calls w) j) as [c|]; [|exact Hh].
        now destruct (phase c). }
  apply G; [constructor|reflexivity].
Qed.

(** X15: only the latest request can be live.  In every state the
    process can reach, a call whose controller has not been aborted
    is the last call made. *)
Theorem only_the_latest_call_is_live events id :
  live (run events initial) id ->
  S id = List.length (calls (run events initial)).
Proof.
  intros Hl.
  apply (storedIsLive_run events initial storedIsLive_initial) in Hl.
  revert Hl.
  assert (G : forall w,
             (forall k, currentAbortController w = Some k ->
                        S k = List.length (calls w)) ->
             forall k, currentAbortController (run events w) = Some k ->
                       S k = List.length (calls (run events w))).
  { induction events as [|e events IH]; intros w Hw; [exact Hw|].
    change (run (e :: events) w) with (run events (step e w)). apply IH.
    pose proof (transport_keeps_cancellation e w) as T.
    destruct e as [config message| | |j e|j|j chunk|j|j message]; cbn [step];
      [ | |
      | destruct T as [F K]; intros k; cbn [step] in F, K; rewrite K;
        rewrite <- (length_map aborted), F, length_map; apply Hw .. ].
    - intros k Hk.
      destruct (sent_call config message w) as (_ & _ & K & _ & L).
      rewrite K in Hk. injection Hk as <-. now rewrite L.
    - intros k. now rewrite controller_stopGeneratingResponse.
    - intros k. unfold resetConversation.
      now rewrite controller_stopGeneratingResponse. }
  apply G. discriminate.
Qed.

End Steps.

(** X16: stopping and resetting are idempotent, and a stop after a
    reset finds nothing to do. *)
Theorem stop_and_reset_compose w :
  stopGeneratingResponse (stopGeneratingResponse w) = stopGeneratingResponse w
  /\ resetConversation (resetConversation w) = resetConversation w
  /\ stopGeneratingResponse (resetConversation w) = resetConversation w
  /\ resetConversation (stopGeneratingResponse w) = resetConversation w.
Proof.
  assert (S1 : forall v, currentAbortController v = None ->
                         stopGeneratingResponse v = v)
    by (intros v Hv; unfold stopGeneratingResponse; now rewrite Hv).
  assert (E : forall v, conversationHistory v = [] -> withHistory [] v = v)
    by (intros [h k cs t] Hv; cbn in *; now subst).
  assert (Hr : conversationHistory (resetConversation w) = []).
  { unfold resetConversation, stopGeneratingResponse. cbn.
    destruct (currentAbortController w); cbn; now rewrite ?history_abort. }
  split; [apply S1, controller_stopGeneratingResponse|].
  split.
  - unfold resetConversation at 1. rewrite (E _ Hr).
    apply S1. unfold resetConversation. apply controller_stopGeneratingResponse.
  - split.
    + apply S1. unfold resetConversation. apply controller_stopGeneratingResponse.
    + unfold resetConversation at 1.
      rewrite S1 by (cbn; apply controller_stopGeneratingResponse).
      unfold resetConversation, stopGeneratingResponse.
      change (currentAbortController (withHistory [] w))
        with (currentAbortController w).
      destruct (currentAbortController w) as [k|]; [|reflexivity].
      unfold abort.
      change (calls (withHistory [] w)) with (calls w).
      destruct (nth_error (calls w) k) as [c|]; [|reflexivity].
      destruct (aborted c); [reflexivity|].
      destruct (phase c); [now destruct (selfHosted c)|reflexivity..].
Qed.

Lemma new_request_aborts_the_streaming_one_witness :
  let w := run (H := exampleHost)
             [SendToDeepSeek (selfHostedConfig true) "hi"; Response 0] initial in
  let w' := sendToDeepSeek (selfHostedConfig true) "again" w in
  effectsOf 0 (run (H := exampleHost) [StreamData 0 (responseLine "Hel" ++ LF)] w')
  = [postMessage startResponse; postMessage streamComplete;
     postMessage streamComplete]
  /\ promiseOf 0 w' = Some (Rejected (Str "canceled")).
Proof.
  intros w w'.
  epose proof (new_request_aborts_the_streaming_one (H := exampleHost)
                 (selfHostedConfig true) "again" w 0 _ _
                 [StreamData 0 (responseLine "Hel" ++ LF)]) as X.
  specialize (X eq_refl eq_refl eq_refl eq_refl eq_refl).
  destruct X as (E1 & P & _ & _ & E2 & _).
  split; [|exact P].
  etransitivity; [exact E2|]. etransitivity; [exact E1|]. reflexivity.
Defined.

Lemma finished_call_is_notified_again_witness :
  let w := run (H := exampleHost)
             [SendToDeepSeek (selfHostedConfig true) "hi"; Response 0;
              StreamData 0 (responseLine "Hel" ++ LF); StreamEnd 0] initial in
  effectsOf 0 (stopGeneratingResponse w)
  = [postMessage startResponse; postMessage (streamChunk (JString "Hel"));
     postMessage streamComplete; postMessage streamComplete;
     postMessage streamComplete]
  /\ promiseOf 0 (stopGeneratingResponse w) = Some (Fulfilled "Hel").
Proof.
  intros w.
  epose proof (finished_call_is_notified_again
                 (selfHostedConfig true) "next" w 0 _ _ _) as X.
  specialize (X eq_refl eq_refl eq_refl eq_refl eq_refl).
  destruct X as ((E & P) & _).
  split; [|exact P].
  etransitivity; [exact E|]. reflexivity.
Defined.

Lemma reset_clears_selfHosted_history_witness :
  let w := run (H := exampleHost)
             [SendToDeepSeek (selfHostedConfig true) "hi"; Response 0;
              StreamData 0 (responseLine "Hel" ++ LF)] initial in
  conversationHistory
    (run (H := exampleHost)
       [StreamData 0 (responseLine "lo" ++ LF); StreamEnd 0]
       (resetConversation w))
  = [].
Proof.
  intros w.
  apply (reset_clears_selfHosted_history (H := exampleHost) w).
  - apply (storedIsLive_run (H := exampleHost)), storedIsLive_initial.
  - repeat constructor.
Defined.

Lemma stop_does_not_reach_a_cloud_request_witness :
  let w := sendToDeepSeek cloudConfig "hi" initial in
  promiseOf 0 (stopGeneratingResponse w) = Some Pending
  /\ promiseOf 0 (step (H := exampleHost) (Response 0) (stopGeneratingResponse w))
     = Some (Rejected TypeError).
Proof.
  intros w.
  epose proof (stop_does_not_reach_a_cloud_request (H := exampleHost) w 0 _
                 (AxiosError None "connect ECONNREFUSED")) as X.
  specialize (X eq_refl eq_refl eq_refl eq_refl eq_refl).
  destruct X as (P & _ & R & _).
  split; [exact P|exact R].
Defined.

Lemma single_prompt_mode_keeps_no_history_witness :
  conversationHistory
    (run (H := exampleHost)
       [SendToDeepSeek (selfHostedConfig false) "hi"; Response 0;
        StreamData 0 (responseLine "Hel" ++ LF); StreamEnd 0] initial)
  = [].
Proof.
  apply (single_prompt_mode_keeps_no_history (H := exampleHost)).
  repeat constructor.
Defined.

Lemma only_the_latest_call_is_live_witness :
  2 = List.length
        (calls (run (H := exampleHost)
                  [SendToDeepSeek (selfHostedConfig true) "hi"; Response 0;
                   SendToDeepSeek (selfHostedConfig true) "again"] initial)).
Proof.
  apply (only_the_latest_call_is_live (H := exampleHost)
           [SendToDeepSeek (selfHostedConfig true) "hi"; Response 0;
            SendToDeepSeek (selfHostedConfig true) "again"] 1).
  eexists. split; reflexivity.
Defined.

End LifecycleFacts.


(** ** More on the request builder *)

Module RequestMore.
Import JS JSFacts Extension ProcessFacts RequestFacts.

(** X17: on the cloud path with multi-round context off, the message
    is not sent.  The request carries the stored history, which the
    message never enters, so two calls that differ only in their
    message leave the process in the same state, request included.
    The body holds the fixed model name, the history, the
    temperature setting (0.3 when it is not set or is 0) and the
    stream flag. *)
Theorem cloud_without_context_drops_the_message config message1 message2 w :
  String.eqb (orElse (accountType config) "self-hosted") "cloud" = true ->
  MultiRoundConversationContext config <> Some true ->
  sendToDeepSeek config message1 w = sendToDeepSeek config message2 w
  /\ exists c,
       nth_error (calls (sendToDeepSeek config message1 w)) (List.length (calls w))
       = Some c
       /\ data (request c)
          = CloudData "deepseek-chat" (conversationHistory w)
              (orElseNumber (aiR1ModelTemperature config) "0.3") true.
Proof.
  intros Hcloud Hflag.
  assert (F : match MultiRoundConversationContext config with
              | Some b => b
              | None => false
              end = false)
    by (destruct (MultiRoundConversationContext config) as [[|]|]; congruence).
  split.
  - unfold sendToDeepSeek. rewrite F. unfold prepareRequest. now rewrite Hcloud.
  - destruct (new_call config message1 w) as (_ & c & Hc & Hreq & _).
    exists c. split; [exact Hc|]. rewrite Hreq, F.
    unfold prepareRequest. now rewrite Hcloud.
Qed.

Lemma cloud_without_context_drops_the_message_witness :
  let config := {| accountType := Some "cloud";
                   optionalCloudApiKey := Some "sk-example";
                   aiR1SelfHostedUrl := None;
                   aiR1Model := None;
                   aiR1ModelTemperature :=
                     Some {| isNonZero := false; numberText := "0" |};
                   MultiRoundConversationContext := Some false |} in
  sendToDeepSeek config "first question" initial
  = sendToDeepSeek config "another question" initial
  /\ exists c,
       nth_error (calls (sendToDeepSeek config "first question" initial)) 0 = Some c
       /\ data (request c) = CloudData "deepseek-chat" [] "0.3" true.
Proof.
  intros config.
  apply (cloud_without_context_drops_the_message config
           "first question" "another question" initial).
  - reflexivity.
  - discriminate.
Defined.

(** X18: the API key never goes to a self-hosted server.  For an
    account that is not the cloud one, two configurations that differ
    only in the key make [sendToDeepSeek] do exactly the same, so no
    part of the request depends on the key. *)
Theorem selfHosted_request_ignores_the_key config1 config2 message w :
  accountType config1 = accountType config2 ->
  aiR1SelfHostedUrl config1 = aiR1SelfHostedUrl config2 ->
  aiR1Model config1 = aiR1Model config2 ->
  aiR1ModelTemperature config1 = aiR1ModelTemperature config2 ->
  MultiRoundConversationContext config1 = MultiRoundConversationContext config2 ->
  String.eqb (orElse (accountType config1) "self-hosted") "cloud" = false ->
  sendToDeepSeek config1 message w = sendToDeepSeek config2 message w.
Proof.
  intros Ha Hu Hm Ht Hf Hself.
  unfold sendToDeepSeek, prepareRequest.
  rewrite <- Ha, <- Hu, <- Hm, <- Ht, <- Hf, Hself. reflexivity.
Qed.

Lemma selfHosted_request_ignores_the_key_witness :
  sendToDeepSeek (selfHostedConfig true) "hi" initial
  = sendToDeepSeek
      {| accountType := Some "self-hosted";
         optionalCloudApiKey := Some "sk-example";
         aiR1SelfHostedUrl := None;
         aiR1Model := None;
         aiR1ModelTemperature := None;
         MultiRoundConversationContext := Some true |}
      "hi" initial.
Proof.
  apply selfHosted_request_ignores_the_key; reflexivity.
Defined.

Lemma formatConversation_cons t t' rest :
  formatConversation (t :: t' :: rest)
  = formatConversation [t] ++ (LF ++ LF) ++ formatConversation (t' :: rest).
Proof. reflexivity. Qed.

(** X19: the rendering of a history is the rendering of its parts
    joined by one blank line.  So the prompt of each round is the
    prompt material of the round before, a blank line, and the
    rendering of the turns added since. *)
Theorem formatConversation_app (a b : list Turn) :
  a <> [] -> b <> [] ->
  formatConversation (a ++ b)
  = formatConversation a ++ (LF ++ LF) ++ formatConversation b.
Proof.
  intros Ha Hb. induction a as [|t a IH]; [contradiction|].
  destruct a as [|t' a].
  - destruct b as [|u b]; [contradiction|]. apply formatConversation_cons.
  - change ((t :: t' :: a) ++ b)%list with (t :: t' :: (a ++ b))%list.
    rewrite formatConversation_cons.
    change (t' :: (a ++ b))%list with ((t' :: a) ++ b)%list.
    rewrite IH by discriminate.
    rewrite (formatConversation_cons t t' a).
    now rewrite !append_assoc.
Qed.

Lemma formatConversation_app_witness :
  formatConversation
    ([{| role := "user"; content := "hi" |}]
     ++ [{| role := "assistant"; content := "hello" |}])
  = "User: hi" ++ (LF ++ LF) ++ "Assistant: hello".
Proof.
  rewrite formatConversation_app by discriminate. reflexivity.
Defined.

Lemma join_forge sep (xs ys : list string) x y :
  join sep (xs ++ [x ++ sep ++ y] ++ ys) = join sep (xs ++ [x; y] ++ ys).
Proof.
  induction xs as [|z xs IH].
  - destruct ys as [|u ys]; cbn [app join]; [reflexivity|].
    now rewrite !append_assoc.
  - destruct xs as [|z' xs].
    + destruct ys as [|u ys]; cbn [app join]; rewrite ?append_assoc; reflexivity.
    + change (join sep ((z :: z' :: xs) ++ ?l))
        with (z ++ sep ++ join sep ((z' :: xs) ++ l)).
      now rewrite IH.
Qed.

(** X20: the rendering does not escape what the turns hold.  Anywhere
    in a history, a user message that contains a blank line followed
    by an [Assistant: ] label renders exactly as a user turn followed
    by an assistant turn: the prompt cannot tell the two histories
    apart. *)
Theorem formatConversation_is_ambiguous (h k : list Turn) (a b : string) :
  formatConversation
    (h ++ [{| role := "user"; content := a ++ LF ++ LF ++ "Assistant: " ++ b |}]
       ++ k)
  = formatConversation
      (h ++ [{| role := "user"; content := a |};
             {| role := "assistant"; content := b |}] ++ k).
Proof.
  unfold formatConversation. rewrite !map_app. cbn [map role content].
  change (if String.eqb "user" "user" then "User" else "Assistant") with "User".
  change (if String.eqb "assistant" "user" then "User" else "Assistant")
    with "Assistant".
  rewrite <- (join_forge (LF ++ LF) _ _ ("User" ++ ": " ++ a)
                ("Assistant" ++ ": " ++ b)).
  reflexivity.
Qed.

End RequestMore.


(** ** More on the cloud decoder *)

Module CloudMore.
Import JS JSFacts Extension DecoderFacts ProcessFacts AbortFacts StreamFacts
       RequestFacts DecoderMore ExchangeFacts LifecycleFacts.

Section Steps.
Context `{Host}.

Lemma cloudLine_shape line fr fr' out :
  cloudLine line fr = Normal (fr', out) ->
  fr' = fr ++ chunkText out /\ Forall (fun e => isDelta e = true) out.
Proof.
  unfold cloudLine.
  destruct (startsWith "data: " line);
    [|intros [= <- <-]; cbn; now rewrite append_empty].
  destruct (JSON_parse (slice 6 line)) as [data|]; [|discriminate].
  destruct (getProp "choices" (Some data)) as [choices|]; [|discriminate].
  cbn [bind]. destruct (getIndex0 choices) as [choice0|]; [|discriminate].
  cbn [bind]. destruct (getProp "delta" choice0) as [delta|]; [|discriminate].
  cbn [bind]. destruct (getProp "content" delta) as [[v|]|]; [| |discriminate];
    cbn [bind].
  - destruct (truthy (Some v)); [|intros [= <- <-]; cbn; now rewrite append_empty].
    destruct (toString v) as [text|] eqn:E; [|discriminate]. cbn [bind].
    intros [= <- <-]. cbn. rewrite E, append_empty. split; auto.
  - intros [= <- <-]. cbn. now rewrite append_empty.
Qed.

Lemma cloudLines_shape lines fr :
  fst (fst (cloudLines lines fr))
  = fr ++ chunkText (snd (fst (cloudLines lines fr)))
  /\ Forall (fun e => isDelta e = true) (snd (fst (cloudLines lines fr))).
Proof.
  revert fr. induction lines as [|line rest IH]; intros fr.
  - cbn. now rewrite append_empty.
  - cbn [cloudLines].
    destruct (cloudLine line fr) as [[fr1 out1]|e] eqn:E;
      [|cbn; now rewrite append_empty].
    destruct (cloudLine_shape _ _ _ _ E) as [E1 D1].
    specialize (IH fr1).
    destruct (cloudLines rest fr1) as [[fr2 out2] thrown]. cbn [fst snd] in *.
    destruct IH as [E2 D2]. split.
    + now rewrite E2, E1, chunkText_app, append_assoc.
    + apply Forall_app. now split.
Qed.

Lemma cloudOnData_shape chunk fr p :
  fst (fst (cloudOnData chunk fr p))
  = fr ++ chunkText (snd (fst (cloudOnData chunk fr p)))
  /\ Forall (fun e => isDelta e = true) (snd (fst (cloudOnData chunk fr p)))
  /\ (p <> Pending -> snd (cloudOnData chunk fr p) = p).
Proof.
  unfold cloudOnData.
  pose proof (cloudLines_shape (split LFc chunk) fr) as [E D].
  destruct (cloudLines (split LFc chunk) fr) as [[fr1 out] thrown].
  cbn [fst snd] in *. split; [exact E|]. split; [exact D|].
  intros Hp. destruct thrown; [|reflexivity]. now destruct p.
Qed.

Lemma cloud_response_is_what_was_posted_lemma chunks fr p :
  fst (fst (cloudFeed chunks fr p))
  = fr ++ chunkText (snd (fst (cloudFeed chunks fr p)))
  /\ Forall (fun e => isDelta e = true) (snd (fst (cloudFeed chunks fr p))).
Proof.
  revert fr p. induction chunks as [|chunk rest IH]; intros fr p.
  - cbn. now rewrite append_empty.
  - cbn [cloudFeed].
    pose proof (cloudOnData_shape chunk fr p) as (E1 & D1 & _).
    destruct (cloudOnData chunk fr p) as [[fr1 out1] p1].
    specialize (IH fr1 p1).
    destruct (cloudFeed rest fr1 p1) as [[fr2 out2] p2]. cbn [fst snd] in *.
    destruct IH as [E2 D2]. split.
    + now rewrite E2, E1, chunkText_app, append_assoc.
    + apply Forall_app. now split.
Qed.

(** X21: what the cloud decoder accumulates is what it has posted.
    After any sequence of chunks the accumulated response is the
    response it started from followed by the posted fragments in
    order, whether or not a fragment was malformed on the way; and
    the decoder posts nothing but [streamChunk] messages and logs
    nothing. *)
Theorem cloud_response_is_what_was_posted chunks fr p :
  fst (fst (cloudFeed chunks fr p))
  = fr ++ chunkText (snd (fst (cloudFeed chunks fr p)))
  /\ Forall (fun e => isDelta e = true) (snd (fst (cloudFeed chunks fr p))).
Proof. exact (cloud_response_is_what_was_posted_lemma chunks fr p). Qed.

Lemma cloudLines_ignored lines fr :
  Forall (fun l => startsWith "data: " l = false) lines ->
  cloudLines lines fr = (fr, [], None).
Proof.
  induction 1 as [|l ls Hl _ IH]; [reflexivity|].
  cbn [cloudLines]. unfold cloudLine. now rewrite Hl, IH.
Qed.

(** X22: lines without the [data: ] prefix are ignored.  A chunk none
    of whose lines begins with the six characters [data: ] (an empty
    chunk, blank lines, comments, event names, a [data:] field
    without the space) changes nothing: no fragment, no error, the
    promise as it was. *)
Theorem cloud_lines_without_prefix_are_ignored chunk fr p :
  Forall (fun l => startsWith "data: " l = false) (split LFc chunk) ->
  cloudOnData chunk fr p = (fr, [], p).
Proof.
  intros Hall. unfold cloudOnData. now rewrite (cloudLines_ignored _ fr Hall).
Qed.

(** The decoding does not depend on the promise. *)
Lemma cloudFeed_decoding chunks fr p p' :
  fst (cloudFeed chunks fr p) = fst (cloudFeed chunks fr p').
Proof.
  revert fr p p'. induction chunks as [|chunk rest IH]; intros fr p p';
    [reflexivity|].
  cbn [cloudFeed]. unfold cloudOnData.
  destruct (cloudLines (split LFc chunk) fr) as [[fr1 out1] thrown].
  specialize (IH fr1 (match thrown with Some e => reject e p | None => p end)
                (match thrown with Some e => reject e p' | None => p' end)).
  destruct (cloudFeed rest fr1 _) as [[fr2 out2] p2].
  destruct (cloudFeed rest fr1 _) as [[fr3 out3] p3].
  cbn [fst] in *. now injection IH as -> ->.
Qed.

Lemma cloudFeed_settled chunks fr p :
  p <> Pending -> snd (cloudFeed chunks fr p) = p.
Proof.
  revert fr p. induction chunks as [|chunk rest IH]; intros fr p Hp;
    [reflexivity|].
  cbn [cloudFeed].
  pose proof (cloudOnData_shape chunk fr p) as (_ & _ & K).
  destruct (cloudOnData chunk fr p) as [[fr1 out1] p1]. cbn [snd] in K.
  rewrite (K Hp). specialize (IH fr1 p Hp).
  destruct (cloudFeed rest fr1 p) as [[fr2 out2] p2]. exact IH.
Qed.

(** X23: after a malformed fragment the handler goes on, but the
    reply is lost.  The [data] handler never looks at the promise:
    once the promise is rejected it still decodes the later chunks
    and posts their fragments, exactly those it would have posted
    otherwise, while the promise stays rejected with the first
    error, and the [resolve] of the [end] handler comes too late. *)
Theorem rejected_cloud_stream_goes_on chunks fr e :
  fst (cloudFeed chunks fr (Rejected e)) = fst (cloudFeed chunks fr Pending)
  /\ snd (cloudFeed chunks fr (Rejected e)) = Rejected e
  /\ resolve (fst (fst (cloudFeed chunks fr (Rejected e))))
             (snd (cloudFeed chunks fr (Rejected e)))
     = Rejected e.
Proof.
  split; [apply cloudFeed_decoding|].
  rewrite (cloudFeed_settled chunks fr (Rejected e)) by discriminate.
  split; reflexivity.
Qed.

(** A call of [handleCloudRequest] that has met its response stays
    as it is: nothing that happens later changes its promise or makes
    it post. *)
Lemma notAStream_abort id k w c :
  nth_error (calls w) id = Some c ->
  phase c = NotAStream ->
  (exists c', nth_error (calls (abort k w)) id = Some c'
              /\ phase c' = NotAStream /\ promise c' = promise c)
  /\ effectsOf id (abort k w) = effectsOf id w.
Proof.
  intros Hc Hph. unfold abort.
  destruct (Nat.eq_dec k id) as [->|Hk].
  - rewrite Hc. destruct (aborted c); [split; [now exists c|reflexivity]|].
    rewrite Hph. split; [|reflexivity].
    exists (withAborted c). split; [now apply lookup_setCall|now cbn].
  - split; [|now apply effectsOf_abort_other].
    exists c. split; [|now split].
    destruct (nth_error (calls w) k) as [ck|]; [|exact Hc].
    destruct (aborted ck); [exact Hc|].
    destruct (phase ck); [destruct (selfHosted ck)|..]; cbn;
      rewrite ?nth_error_updateAt;
      destruct (Nat.eqb_spec k id); try contradiction; exact Hc.
Qed.

Lemma notAStream_step id e w c :
  nth_error (calls w) id = Some c ->
  phase c = NotAStream ->
  (exists c', nth_error (calls (step e w)) id = Some c'
              /\ phase c' = NotAStream /\ promise c' = promise c)
  /\ effectsOf id (step e w) = effectsOf id w.
Proof.
  intros Hc Hph.
  assert (Hid : id < List.length (calls w))
    by (apply nth_error_Some; congruence).
  assert (Other : forall j f out,
             j <> id ->
             (exists c', nth_error (calls (emit j out (setCall j f w))) id = Some c'
                         /\ phase c' = NotAStream /\ promise c' = promise c)
             /\ effectsOf id (emit j out (setCall j f w)) = effectsOf id w).
  { intros j f out Hj. split.
    - exists c. split; [|now split]. cbn. rewrite nth_error_updateAt.
      destruct (Nat.eqb_spec j id); [contradiction|exact Hc].
    - rewrite effectsOf_emit. destruct (Nat.eqb_spec j id); [contradiction|].
      now rewrite app_nil_r. }
  assert (Other' : forall j f,
             j <> id ->
             (exists c', nth_error (calls (setCall j f w)) id = Some c'
                         /\ phase c' = NotAStream /\ promise c' = promise c)
             /\ effectsOf id (setCall j f w) = effectsOf id w).
  { intros j f Hj. split; [|reflexivity].
    exists c. split; [|now split]. cbn. rewrite nth_error_updateAt.
    destruct (Nat.eqb_spec j id); [contradiction|exact Hc]. }
  assert (Same : (exists c', nth_error (calls w) id = Some c'
                             /\ phase c' = NotAStream /\ promise c' = promise c)
                 /\ effectsOf id w = effectsOf id w)
    by (split; [now exists c|reflexivity]).
  destruct e as [config message| | |j e|j|j chunk|j|j message]; cbn [step].
  - unfold sendToDeepSeek.
    set (w1 := match currentAbortController w with
               | Some k => abort k w
               | None => w
               end).
    assert (H1 : (exists c', nth_error (calls w1) id = Some c'
                             /\ phase c' = NotAStream /\ promise c' = promise c)
                 /\ effectsOf id w1 = effectsOf id w).
    { unfold w1. destruct (currentAbortController w);
        [now apply notAStream_abort|exact Same]. }
    assert (Hid1 : id < List.length (calls w1)).
    { unfold w1. destruct (currentAbortController w);
        now rewrite ?length_calls_abort. }
    destruct H1 as [(c' & Hc' & Hrest) He]. split.
    + exists c'. split; [|exact Hrest].
      destruct (MultiRoundConversationContext config) as [[|]|]; cbn;
        now rewrite nth_error_app1.
    + now destruct (MultiRoundConversationContext config) as [[|]|].
  - unfold stopGeneratingResponse.
    destruct (currentAbortController w) as [k|]; [|exact Same].
    exact (notAStream_abort id k w c Hc Hph).
  - unfold resetConversation, stopGeneratingResponse. cbn.
    destruct (currentAbortController w) as [k|]; [|exact Same].
    exact (notAStream_abort id k (withHistory [] w) c Hc Hph).
  - unfold onPostRejected. destruct (Nat.eq_dec j id) as [->|Hj].
    + rewrite Hc, Hph. exact Same.
    + destruct (nth_error (calls w) j) as [cj|]; [|exact Same].
      destruct (phase cj); try exact Same. now apply Other'.
  - unfold onResponse. destruct (Nat.eq_dec j id) as [->|Hj].
    + rewrite Hc, Hph. exact Same.
    + destruct (nth_error (calls w) j) as [cj|]; [|exact Same].
      destruct (phase cj); try exact Same.
      destruct (selfHosted cj); [now apply Other|now apply Other'].
  - unfold onData. destruct (Nat.eq_dec j id) as [->|Hj].
    + rewrite Hc, Hph. exact Same.
    + destruct (nth_error (calls w) j) as [cj|]; [|exact Same].
      destruct (phase cj) as [| |st|]; try exact Same.
      destruct (aborted cj); [exact Same|].
      destruct (appendChunk chunk st). now apply Other.
  - unfold onEnd, finalizeStream. destruct (Nat.eq_dec j id) as [->|Hj].
    + rewrite Hc, Hph. exact Same.
    + destruct (nth_error (calls w) j) as [cj|]; [|exact Same].
      destruct (phase cj) as [| |st|]; try exact Same.
      destruct (aborted cj); [exact Same|].
      destruct (useMultiRound cj).
      * split.
        -- exists c. split; [|now split]. cbn. rewrite nth_error_updateAt.
           destruct (Nat.eqb_spec j id); [contradiction|exact Hc].
        -- change (effectsOf id (setCall j ?f ?x)) with (effectsOf id x).
           rewrite effectsOf_emit.
           destruct (Nat.eqb_spec j id); [contradiction|]. now rewrite app_nil_r.
      * split.
        -- exists c. split; [|now split]. cbn. rewrite nth_error_updateAt.
           destruct (Nat.eqb_spec j id); [contradiction|exact Hc].
        -- change (effectsOf id (setCall j ?f ?x)) with (effectsOf id x).
           rewrite effectsOf_emit.
           destruct (Nat.eqb_spec j id); [contradiction|]. now rewrite app_nil_r.
  - unfold onError. destruct (Nat.eq_dec j id) as [->|Hj].
    + rewrite Hc, Hph. exact Same.
    + destruct (nth_error (calls w) j) as [cj|]; [|exact Same].
      destruct (phase cj); try exact Same. now apply Other'.
Qed.

Lemma notAStream_run id events w c :
  nth_error (calls w) id = Some c ->
  phase c = NotAStream ->
  promiseOf id (run events w) = Some (promise c)
  /\ effectsOf id (run events w) = effectsOf id w.
Proof.
  revert w c. induction events as [|e events IH]; intros w c Hc Hph.
  - unfold promiseOf. cbn. now rewrite Hc.
  - change (run (e :: events) w) with (run events (step e w)).
    destruct (notAStream_step id e w c Hc Hph) as [(c' & Hc' & Hph' & Hp') He].
    destruct (IH (step e w) c' Hc' Hph') as [P E].
    split; [now rewrite P, Hp'|now rewrite E].
Qed.

(** X24: a cloud request never streams.  Whatever the account type,
    a request that does not go to [handleStreamingRequest] fails on
    its response: [handleCloudRequest] has not asked the transport
    for a stream, so [handleCloudStream] cannot listen to the body,
    and the call is rejected with the [TypeError].  It has posted
    nothing, neither fragments nor a lifecycle message, and whatever
    follows changes neither; with multi-round context the user's
    turn stays in the history without a reply. *)
Theorem cloud_request_never_streams config message events w :
  String.eqb (orElse (accountType config) "self-hosted") "self-hosted" = false ->
  let id := List.length (calls w) in
  let flag :=
    match MultiRoundConversationContext config with Some b => b | None => false end in
  let w1 := run [SendToDeepSeek config message; Response id] w in
  promiseOf id w1 = Some (Rejected TypeError)
  /\ conversationHistory w1
     = (conversationHistory w
        ++ if flag then [{| role := "user"; content := message |}] else [])%list
  /\ promiseOf id (run events w1) = Some (Rejected TypeError)
  /\ effectsOf id (run events w1) = effectsOf id w.
Proof.
  intros Hns id flag w1.
  destruct (sent_call config message w) as (Hc & Hh & _ & He & _).
  fold id flag in Hc, Hh, He.
  rewrite Hns in Hc. cbn [andb] in Hc.
  set (w0 := sendToDeepSeek config message w) in *.
  set (c0 := {| aborted := false; selfHosted := false; useMultiRound := flag;
                request := prepareRequest config message flag
                             (conversationHistory w
                              ++ if flag
                                 then [{| role := "user"; content := message |}]
                                 else []);
                phase := Posting; promise := Pending |}) in *.
  assert (E1 : w1 = setCall id (fun c => withPromise (reject TypeError)
                                           (withPhase NotAStream c)) w0).
  { change w1 with (onResponse id w0). unfold onResponse. now rewrite Hc. }
  assert (Hc1 : nth_error (calls w1) id
                = Some (withPromise (reject TypeError) (withPhase NotAStream c0)))
    by (rewrite E1; exact (lookup_setCall id _ w0 _ Hc)).
  destruct (notAStream_run id events w1 _ Hc1 eq_refl) as [P E].
  split; [unfold promiseOf; now rewrite Hc1|].
  split; [rewrite E1; exact Hh|].
  split; [exact P|].
  rewrite E, E1. exact He.
Qed.

End Steps.

Lemma cloud_lines_without_prefix_are_ignored_witness :
  cloudOnData (H := exampleHost) (": keep-alive" ++ LF ++ LF ++ "data:[DONE]")
    "so far" Pending
  = ("so far", [], Pending).
Proof.
  apply (cloud_lines_without_prefix_are_ignored (H := exampleHost)).
  repeat constructor.
Defined.

Lemma cloud_request_never_streams_witness :
  let w' := run (H := exampleHost)
              [SendToDeepSeek cloudConfig "hi"; Response 0;
               StreamData 0 ("data: " ++ deltaPayload "Hi"); StreamEnd 0]
              initial in
  promiseOf 0 w' = Some (Rejected TypeError)
  /\ effectsOf 0 w' = []
  /\ conversationHistory w' = [{| role := "user"; content := "hi" |}].
Proof.
  intros w'.
  destruct (cloud_request_never_streams (H := exampleHost) cloudConfig "hi"
              [StreamData 0 ("data: " ++ deltaPayload "Hi"); StreamEnd 0]
              initial eq_refl)
    as (_ & _ & P & E).
  split; [exact P|]. split; [exact E|reflexivity].
Defined.

End CloudMore.
